(** * SSHarbor: validation, command construction and SSH-config entries

    A shallow embedding of the pure core of the SSHarbor extension
    ([core/security.ts], [core/ssh.ts] and the defaults cascade of
    [VesselItem] in [types/index.ts]) together with the properties
    stated about it; and of the code around it: the lists and the
    document kept by [core/config.ts], the reader of SSH configuration
    files of [commands/import-ssh-config.ts], [saveCurrentFolder] of
    [commands/connect.ts] and the form of
    [views/add-vessel-webview.ts].

    Conventions of the embedding.
    - A JavaScript string is a [string]; its characters are the code
      units in the range 0..255.
    - A JavaScript number is a [number]: [NaN], an infinity, or a finite
      value kept as an exact rational.  Comparisons of doubles are exact,
      so nothing is lost for [<], [<=] and [!==].
    - [undefined] in an optional field is [None].
    - Regular expressions are values of [regex], run by a backtracking
      matcher with the priorities of ECMAScript (greedy quantifiers,
      left alternative first). *)

From Stdlib Require Import Bool Arith List ZArith QArith Lia.
From Stdlib Require Import Ascii String.
From Stdlib Require Import DecimalString DecimalN DecimalPos.
Import ListNotations.

Local Close Scope Q_scope.
Local Open Scope string_scope.
Local Open Scope bool_scope.

(* ------------------------------------------------------------------ *)
(** * Characters and strings *)
(* ------------------------------------------------------------------ *)

Module Str.

Definition code (c : ascii) : nat := nat_of_ascii c.

Definition between (lo hi : ascii) (c : ascii) : bool :=
  (code lo <=? code c)%nat && (code c <=? code hi)%nat.

Definition is_digit (c : ascii) : bool := between "0" "9" c.
Definition is_lower (c : ascii) : bool := between "a" "z" c.
Definition is_upper (c : ascii) : bool := between "A" "Z" c.
Definition is_alnum (c : ascii) : bool :=
  is_lower c || is_upper c || is_digit c.

(** [[A-Za-z0-9_]] *)
Definition is_word (c : ascii) : bool := is_alnum c || Ascii.eqb c "_".

Definition LF : ascii := ascii_of_nat 10.
Definition CR : ascii := ascii_of_nat 13.

(** [\n] and [\r]: the line terminators below code 256. *)
Definition is_line_terminator (c : ascii) : bool :=
  Ascii.eqb c LF || Ascii.eqb c CR.

(** WhiteSpace and LineTerminator of ECMAScript below code 256:
    TAB, LF, VT, FF, CR, SP and NBSP. *)
Definition is_space (c : ascii) : bool :=
  ((9 <=? code c)%nat && (code c <=? 13)%nat)
  || (code c =? 32)%nat || (code c =? 160)%nat.

Definition nl : string := String LF EmptyString.

Fixpoint forallb (p : ascii -> bool) (s : string) : bool :=
  match s with
  | EmptyString => true
  | String c s' => p c && forallb p s'
  end.

Fixpoint map (f : ascii -> ascii) (s : string) : string :=
  match s with
  | EmptyString => EmptyString
  | String c s' => String (f c) (map f s')
  end.

Fixpoint rev_append (s acc : string) : string :=
  match s with
  | EmptyString => acc
  | String c s' => rev_append s' (String c acc)
  end.

Definition rev (s : string) : string := rev_append s EmptyString.

Fixpoint drop_while (p : ascii -> bool) (s : string) : string :=
  match s with
  | EmptyString => EmptyString
  | String c s' => if p c then drop_while p s' else s
  end.

(** [s.startsWith(p)] *)
Definition startsWith (s p : string) : bool := String.prefix p s.

(** [s.includes(p)] *)
Fixpoint includes (s p : string) : bool :=
  String.prefix p s ||
  match s with
  | EmptyString => false
  | String _ s' => includes s' p
  end.

(** [p] begins at none of the positions of [w] in the text [w ++ rest]. *)
Fixpoint absent_in (p w rest : string) : bool :=
  match w with
  | EmptyString => true
  | String _ w' => negb (String.prefix p (w ++ rest)) && absent_in p w' rest
  end.

(** [s.trimStart()], [s.trimEnd()] and [s.trim()] *)
Definition trimStart (s : string) : string := drop_while is_space s.
Definition trimEnd (s : string) : string :=
  rev (drop_while is_space (rev s)).
Definition trim (s : string) : string := trimEnd (trimStart s).

(** [parts.join(sep)] *)
Definition join (sep : string) (parts : list string) : string :=
  String.concat sep parts.

(** The boolean value of a string: the empty string is falsy. *)
Definition truthy (s : string) : bool :=
  match s with EmptyString => false | _ => true end.

End Str.

(* ------------------------------------------------------------------ *)
(** * Numbers *)
(* ------------------------------------------------------------------ *)

Inductive number : Type :=
| NaN : number
| Infinity (negative : bool) : number
| Finite (q : Q) : number.

Module Num.

Definition of_Z (z : Z) : number := Finite (inject_Z z).

Definition isNaN (n : number) : bool :=
  match n with NaN => true | _ => false end.

Definition Qltb (p q : Q) : bool := negb (Qle_bool q p).

(** [a < b] *)
Definition ltb (a b : number) : bool :=
  match a, b with
  | NaN, _ | _, NaN => false
  | Infinity true, Infinity true => false
  | Infinity true, _ => true
  | _, Infinity true => false
  | Infinity false, _ => false
  | Finite _, Infinity false => true
  | Finite p, Finite q => Qltb p q
  end.

(** [a <= b] *)
Definition leb (a b : number) : bool :=
  match a, b with
  | NaN, _ | _, NaN => false
  | Infinity true, _ => true
  | _, Infinity true => false
  | _, Infinity false => true
  | Infinity false, Finite _ => false
  | Finite p, Finite q => Qle_bool p q
  end.

(** [a > b] *)
Definition gtb (a b : number) : bool := ltb b a.

(** [a === b] on numbers *)
Definition strict_eqb (a b : number) : bool :=
  match a, b with
  | Finite p, Finite q => Qeq_bool p q
  | Infinity s, Infinity t => Bool.eqb s t
  | _, _ => false
  end.

(** The boolean value of a number: [0] and [NaN] are falsy. *)
Definition truthy (n : number) : bool :=
  match n with
  | NaN => false
  | Infinity _ => true
  | Finite q => negb (Qeq_bool q 0)
  end.

Definition is_integer (q : Q) : bool :=
  (Qnum q mod Zpos (Qden q) =? 0)%Z.

Definition floor (q : Q) : Z := (Qnum q / Zpos (Qden q))%Z.

(** Decimal digits of a natural number, ["0"] for zero. *)
Definition digits (n : N) : string :=
  NilZero.string_of_uint (N.to_uint n).

Definition Z_toString (z : Z) : string :=
  match z with
  | Zneg p => "-" ++ digits (Npos p)
  | _ => digits (Z.to_N z)
  end.

Section ToString.
(** Number::toString on a finite value that is not an integer is
    the shortest-round-trip rendering of the double; it is left as
    a parameter.  Integers are printed in full decimal notation,
    which is what ECMAScript prints for the integers up to 2^53. *)
Variable fractionToString : Q -> string.

Definition toString (n : number) : string :=
  match n with
  | NaN => "NaN"
  | Infinity false => "Infinity"
  | Infinity true => "-Infinity"
  | Finite q =>
      if is_integer q then Z_toString (floor q) else fractionToString q
  end.
End ToString.

(** The longest prefix of decimal digits of [s], as a decimal
    numeral, and what follows it. *)
Fixpoint digit_prefix (s : string) : Decimal.uint * string :=
  match s with
  | EmptyString => (Decimal.Nil, EmptyString)
  | String c s' =>
      let '(d, rest) := digit_prefix s' in
      if Ascii.eqb c "0" then (Decimal.D0 d, rest)
      else if Ascii.eqb c "1" then (Decimal.D1 d, rest)
      else if Ascii.eqb c "2" then (Decimal.D2 d, rest)
      else if Ascii.eqb c "3" then (Decimal.D3 d, rest)
      else if Ascii.eqb c "4" then (Decimal.D4 d, rest)
      else if Ascii.eqb c "5" then (Decimal.D5 d, rest)
      else if Ascii.eqb c "6" then (Decimal.D6 d, rest)
      else if Ascii.eqb c "7" then (Decimal.D7 d, rest)
      else if Ascii.eqb c "8" then (Decimal.D8 d, rest)
      else if Ascii.eqb c "9" then (Decimal.D9 d, rest)
      else (Decimal.Nil, s)
  end.

(** [parseInt(s, 10)]: leading white space is skipped, one sign is
    read, then the longest run of decimal digits; [NaN] when that run
    is empty.  Whatever follows the digits is ignored.  The value is
    the integer the digits write, which is what [parseInt] returns for
    the integers up to 2^53; above, it returns the nearest double. *)
Definition parseInt10 (s : string) : number :=
  let t := Str.trimStart s in
  let '(neg, u) :=
    match t with
    | String "-" u => (true, u)
    | String "+" u => (false, u)
    | _ => (false, t)
    end in
  match fst (digit_prefix u) with
  | Decimal.Nil => NaN
  | d => of_Z (if neg then - Z.of_N (N.of_uint d) else Z.of_N (N.of_uint d))
  end.

End Num.

(* ------------------------------------------------------------------ *)
(** * Regular expressions *)
(* ------------------------------------------------------------------ *)

(** The fragment of ECMAScript regular expressions the sources use.
    No capture group of theirs stands under a quantifier, so a group is
    recorded once, when the matcher leaves it. *)
Inductive regex : Type :=
| Eps : regex                          (* the empty pattern *)
| Cls (p : ascii -> bool) : regex      (* one character of a class *)
| Seq (r1 r2 : regex) : regex          (* r1 r2 *)
| Alt (r1 r2 : regex) : regex          (* r1|r2 *)
| Star (r : regex) : regex             (* r*, greedy *)
| Grp (i : nat) (r : regex) : regex    (* capture group number i *)
| Bol : regex                          (* ^ *)
| Eol : regex.                         (* $ *)

Module RegExp.

Definition Chr (c : ascii) : regex := Cls (Ascii.eqb c).
Definition Not (c : ascii) : regex := Cls (fun x => negb (Ascii.eqb c x)).
Definition Plus (r : regex) : regex := Seq r (Star r).
Definition Opt (r : regex) : regex := Alt r Eps.

(** A string taken literally. *)
Fixpoint Lit (s : string) : regex :=
  match s with
  | EmptyString => Eps
  | String c s' => Seq (Chr c) (Lit s')
  end.

(** A position in the input: what was read (last character first) and
    what is left. *)
Record cursor : Type := Cursor { before : string; after : string }.

Definition captures : Type := list (nat * string).

Definition outcome : Type := option (cursor * captures).
Definition cont : Type := cursor -> captures -> outcome.

(** The text between two positions of one input. *)
Definition consumed (c c' : cursor) : string :=
  String.substring 0 (String.length (after c) - String.length (after c'))
    (after c).

Definition at_bol (multiline : bool) (c : cursor) : bool :=
  match before c with
  | EmptyString => true
  | String a _ => multiline && Str.is_line_terminator a
  end.

Definition at_eol (multiline : bool) (c : cursor) : bool :=
  match after c with
  | EmptyString => true
  | String a _ => multiline && Str.is_line_terminator a
  end.

(** The iterations of a greedy star: one more round of [body] first,
    the continuation second.  A round that reads nothing is not
    taken, so [fuel] = the length of what is left is enough. *)
Fixpoint star_loop (fuel : nat)
    (body : cursor -> captures -> cont -> outcome)
    (c : cursor) (caps : captures) (k : cont) : outcome :=
  match fuel with
  | O => k c caps
  | S fuel' =>
      match body c caps (fun c' caps' =>
               if (String.length (after c') <? String.length (after c))%nat
               then star_loop fuel' body c' caps' k
               else None) with
      | Some res => Some res
      | None => k c caps
      end
  end.

Fixpoint run (multiline : bool) (r : regex)
    (c : cursor) (caps : captures) (k : cont) : outcome :=
  match r with
  | Eps => k c caps
  | Cls p =>
      match after c with
      | String a rest =>
          if p a then k (Cursor (String a (before c)) rest) caps else None
      | EmptyString => None
      end
  | Seq r1 r2 =>
      run multiline r1 c caps (fun c' caps' => run multiline r2 c' caps' k)
  | Alt r1 r2 =>
      match run multiline r1 c caps k with
      | Some res => Some res
      | None => run multiline r2 c caps k
      end
  | Star r' =>
      star_loop (String.length (after c)) (run multiline r') c caps k
  | Grp i r' =>
      run multiline r' c caps
        (fun c' caps' => k c' ((i, consumed c c') :: caps'))
  | Bol => if at_bol multiline c then k c caps else None
  | Eol => if at_eol multiline c then k c caps else None
  end.

Definition accept : cont := fun c caps => Some (c, caps).

(** A match: where it starts, where it ends, and its groups. *)
Record result : Type :=
  Result { m_start : cursor; m_end : cursor; m_caps : captures }.

(** The leftmost match at or after a position. *)
Fixpoint search (multiline : bool) (r : regex)
    (bef aft : string) : option result :=
  match run multiline r (Cursor bef aft) [] accept with
  | Some (c', caps) => Some (Result (Cursor bef aft) c' caps)
  | None =>
      match aft with
      | EmptyString => None
      | String a aft' => search multiline r (String a bef) aft'
      end
  end.

(** [re.exec(s)] for a regular expression without the [g] flag. *)
Definition exec (multiline : bool) (r : regex) (s : string)
  : option result :=
  search multiline r EmptyString s.

(** [re.test(s)] *)
Definition test (multiline : bool) (r : regex) (s : string) : bool :=
  match exec multiline r s with Some _ => true | None => false end.

(** Element [i] of the array returned by [s.match(re)]. *)
Definition group (i : nat) (m : result) : option string :=
  match List.find (fun e => Nat.eqb (fst e) i) (m_caps m) with
  | Some e => Some (snd e)
  | None => None
  end.

(** GetSubstitution for a match without capture groups: [$$], [$&],
    [$`] and [$'] are expanded, every other character is copied. *)
Fixpoint substitution (template matched pre post : string) : string :=
  match template with
  | String "$" (String "$" t) =>
      String "$" (substitution t matched pre post)
  | String "$" (String "&" t) =>
      matched ++ substitution t matched pre post
  | String "$" (String "`" t) =>
      pre ++ substitution t matched pre post
  | String "$" (String "'" t) =>
      post ++ substitution t matched pre post
  | String a t => String a (substitution t matched pre post)
  | EmptyString => EmptyString
  end.

Definition expand (template : string) (m : result) : string :=
  substitution template (consumed (m_start m) (m_end m))
    (Str.rev (before (m_start m))) (after (m_end m)).

(** [s.replace(re, template)] for [re] without the [g] flag. *)
Definition replace (multiline : bool) (r : regex) (template s : string)
  : string :=
  match exec multiline r s with
  | None => s
  | Some m =>
      Str.rev (before (m_start m)) ++ expand template m ++ after (m_end m)
  end.

(** The loop of [s.replace(re, template)] for [re] with the [g] flag:
    rewrite what is left of the input from a position on.  After an
    empty match the next search starts one character further. *)
Fixpoint replace_loop (fuel : nat) (multiline : bool) (r : regex)
    (template bef aft : string) : string :=
  match fuel with
  | O => aft
  | S fuel' =>
      match search multiline r bef aft with
      | None => aft
      | Some m =>
          let skipped := consumed (Cursor bef aft) (m_start m) in
          let out := skipped ++ expand template m in
          let e := m_end m in
          match consumed (m_start m) e, after e with
          | EmptyString, EmptyString => out
          | EmptyString, String a rest =>
              out ++ String a
                (replace_loop fuel' multiline r template
                   (String a (before e)) rest)
          | _, _ =>
              out ++ replace_loop fuel' multiline r template
                       (before e) (after e)
          end
      end
  end.

Definition replaceAll (multiline : bool) (r : regex) (template s : string)
  : string :=
  replace_loop (S (String.length s)) multiline r template EmptyString s.

(** The longest prefix of [s] made of characters of [p], and the
    rest. *)
Fixpoint span (p : ascii -> bool) (s : string) : string * string :=
  match s with
  | EmptyString => (EmptyString, EmptyString)
  | String a s' =>
      if p a then let '(u, v) := span p s' in (String a u, v)
      else (EmptyString, s)
  end.

(** [s] does not begin with a character of [p]. *)
Definition stops (p : ascii -> bool) (s : string) : bool :=
  match s with
  | EmptyString => true
  | String a _ => negb (p a)
  end.

(** A continuation that fails wherever a character of [p] comes
    next: what follows [p*] in a pattern when it cannot begin with
    a character of [p]. *)
Definition needs_stop (p : ascii -> bool) (k : cont) : Prop :=
  forall bef a rest caps, p a = true ->
    k (Cursor bef (String a rest)) caps = None.

End RegExp.

(** [s.replace(search, template)] for a string [search]: the first
    occurrence is replaced, with the [$] patterns of the template
    expanded. *)
Fixpoint replace_string_from (search template bef aft : string) : string :=
  if String.prefix search aft then
    let post := String.substring (String.length search)
                  (String.length aft - String.length search) aft in
    RegExp.substitution template search (Str.rev bef) post ++ post
  else
    match aft with
    | EmptyString => EmptyString
    | String a aft' =>
        String a (replace_string_from search template (String a bef) aft')
    end.

Definition replace_string (search template s : string) : string :=
  replace_string_from search template EmptyString s.

(** A value of TypeScript type [number | string]. *)
Inductive number_or_string : Type :=
| IsNumber (n : number)
| IsString (s : string).

(* ------------------------------------------------------------------ *)
(** * core/security.ts: [isValidPort] *)
(* ------------------------------------------------------------------ *)

Definition isValidPort (port : number_or_string) : bool :=
  let p := match port with
           | IsString s => Num.parseInt10 s
           | IsNumber n => n
           end in
  negb (Num.isNaN p) && Num.gtb p (Num.of_Z 0) && Num.leb p (Num.of_Z 65535).

(* ------------------------------------------------------------------ *)
(** * The [path] module (POSIX flavour) *)
(* ------------------------------------------------------------------ *)

Module Path.

Definition sep : string := "/".

(** The segments of a path between its slashes, with the segment read
    so far in [cur]. *)
Fixpoint segments_from (cur : string) (s : string) : list string :=
  match s with
  | EmptyString => [cur]
  | String c s' =>
      if Ascii.eqb c "/" then cur :: segments_from EmptyString s'
      else segments_from (cur ++ String c EmptyString) s'
  end.

Definition segments (s : string) : list string :=
  segments_from EmptyString s.

(** One segment against the stack of segments kept so far (last one
    first): empty segments and [.] are dropped, [..] removes the
    segment before it, or is kept when there is none and the path is
    relative. *)
Definition step (allowAboveRoot : bool) (stack : list string)
    (seg : string) : list string :=
  if String.eqb seg "" then stack
  else if String.eqb seg "." then stack
  else if String.eqb seg ".." then
    match stack with
    | top :: below =>
        if String.eqb top ".."
        then (if allowAboveRoot then seg :: stack else stack)
        else below
    | [] => if allowAboveRoot then [seg] else []
    end
  else seg :: stack.

Definition normalizeString (path : string) (allowAboveRoot : bool)
  : string :=
  Str.join "/"
    (List.rev (List.fold_left (step allowAboveRoot) (segments path) [])).

Definition isAbsolute (path : string) : bool := Str.startsWith path "/".

Definition endsWithSlash (path : string) : bool :=
  match Str.rev path with
  | String c _ => Ascii.eqb c "/"
  | EmptyString => false
  end.

(** [path.normalize(p)] *)
Definition normalize (path : string) : string :=
  match path with
  | EmptyString => "."
  | _ =>
      let absolute := isAbsolute path in
      let trailing := endsWithSlash path in
      let p := normalizeString path (negb absolute) in
      match p with
      | EmptyString =>
          if absolute then "/" else if trailing then "./" else "."
      | _ =>
          let p' := if trailing then p ++ "/" else p in
          if absolute then "/" ++ p' else p'
      end
  end.

(** [path.join(...parts)] *)
Definition join (parts : list string) : string :=
  match List.filter Str.truthy parts with
  | [] => "."
  | parts' => normalize (Str.join "/" parts')
  end.

Section Resolve.
(** [process.cwd()] *)
Variable cwd : string.

(** [path.resolve(p)]: an absolute [p] is normalised, any other is
    taken from the working directory. *)
Definition resolve (p : string) : string :=
  let '(resolvedPath, resolvedAbsolute) :=
    match p with
    | EmptyString => (EmptyString, false)
    | _ => (p ++ "/", isAbsolute p)
    end in
  let '(resolvedPath, resolvedAbsolute) :=
    if resolvedAbsolute then (resolvedPath, true)
    else
      match cwd with
      | EmptyString => (resolvedPath, false)
      | _ => (cwd ++ "/" ++ resolvedPath, isAbsolute cwd)
      end in
  let n := normalizeString resolvedPath (negb resolvedAbsolute) in
  if resolvedAbsolute then "/" ++ n
  else match n with EmptyString => "." | _ => n end.
End Resolve.

(** [path.dirname(p)]: the path up to its last slash that has a name
    after it, trailing slashes apart; the first character is never
    taken for that slash. *)
Definition dirname (path : string) : string :=
  match path with
  | EmptyString => "."
  | String c rest =>
      let hasRoot := Ascii.eqb c "/" in
      let back :=
        Str.drop_while (fun x => negb (Ascii.eqb x "/"))
          (Str.drop_while (fun x => Ascii.eqb x "/") (Str.rev rest)) in
      match back with
      | EmptyString => if hasRoot then "/" else "."
      | String _ before =>
          match before with
          | EmptyString => if hasRoot then "//" else String c EmptyString
          | _ => String c (Str.rev before)
          end
      end
  end.

(** The segments a normalisation keeps when none of them is [..]. *)
Definition kept (seg : string) : bool :=
  negb (String.eqb seg "") && negb (String.eqb seg ".").

(** Joining with slashes, when something follows. *)
Fixpoint dirs (l : list string) : string :=
  match l with
  | [] => ""
  | x :: l' => x ++ "/" ++ dirs l'
  end.

(** The stack of segments of the home directory. *)
Definition home_stack (homedir : string) : list string :=
  List.fold_left (Path.step false) (Path.segments homedir) [].

End Path.

(* ------------------------------------------------------------------ *)
(** * Values, effects and the data model (types/index.ts) *)
(* ------------------------------------------------------------------ *)

(** [array.push(...items)] *)
Definition push {A : Type} (array items : list A) : list A :=
  (array ++ items)%list.

(** [a || b] on optional values: [a] when it is truthy, else [b]. *)
Definition js_or {A : Type} (truthy : A -> bool) (a b : option A)
  : option A :=
  match a with
  | Some x => if truthy x then a else b
  | None => b
  end.

(** [a || d] where [d] cannot be [undefined]. *)
Definition js_or_last {A : Type} (truthy : A -> bool) (a : option A) (d : A)
  : A :=
  match a with
  | Some x => if truthy x then x else d
  | None => d
  end.

(** The boolean value of an optional string. *)
Definition truthy_opt (a : option string) : bool :=
  match a with Some s => Str.truthy s | None => false end.

(** What the functions below touch outside their arguments: the files
    they look up, read or write, and the console. *)
Inductive node : Type :=
| File (content : string)
| Directory.

Record world : Type := World {
  files : string -> option node;
  console : list string
}.

Inductive completion (A : Type) : Type :=
| Normal (a : A)
| Throw (message : string).
Arguments Normal {A} a.
Arguments Throw {A} message.

Module Eff.

Definition t (A : Type) : Type := world -> completion A * world.

Definition ret {A : Type} (a : A) : t A := fun w => (Normal a, w).

Definition bind {A B : Type} (m : t A) (f : A -> t B) : t B :=
  fun w =>
    match m w with
    | (Normal a, w') => f a w'
    | (Throw e, w') => (Throw e, w')
    end.

(** [throw new Error(message)] *)
Definition throw {A : Type} (message : string) : t A :=
  fun w => (Throw message, w).

(** [try { m } catch { handler }] *)
Definition try_catch {A : Type} (m : t A) (handler : t A) : t A :=
  fun w =>
    match m w with
    | (Normal a, w') => (Normal a, w')
    | (Throw _, w') => handler w'
    end.

(** [console.warn(line)] *)
Definition warn (line : string) : t unit :=
  fun w => (Normal tt, World (files w) (console w ++ [line])%list).

(** [fs.existsSync(path)] *)
Definition existsSync (path : string) : t bool :=
  fun w =>
    (Normal match files w path with Some _ => true | None => false end, w).

(** [fs.readFileSync(path, 'utf-8')] *)
Definition readFileSync (path : string) : t string :=
  fun w =>
    match files w path with
    | Some (File content) => (Normal content, w)
    | Some Directory =>
        (Throw "EISDIR: illegal operation on a directory, read", w)
    | None => (Throw "ENOENT: no such file or directory", w)
    end.

(** [fs.writeFileSync(path, content, 'utf-8')]: the file is made or
    replaced in a directory that exists; nothing is written, and the
    call throws, when the directory is missing, when it is a file, or
    when the path is a directory.  Permissions are not part of the
    store. *)
Definition writeFileSync (path content : string) : t unit :=
  fun w =>
    match files w (Path.dirname path) with
    | None =>
        (Throw ("ENOENT: no such file or directory, open '" ++ path ++ "'"),
         w)
    | Some (File _) =>
        (Throw ("ENOTDIR: not a directory, open '" ++ path ++ "'"), w)
    | Some Directory =>
        match files w path with
        | Some Directory =>
            (Throw ("EISDIR: illegal operation on a directory, open '"
                    ++ path ++ "'"), w)
        | _ =>
            (Normal tt,
             World (fun p => if String.eqb p path then Some (File content)
                             else files w p)
                   (console w))
        end
    end.

End Eff.

Notation "x <- m ;; k" := (Eff.bind m (fun x => k))
  (at level 61, m at next level, right associativity).
Notation "m ;;; k" := (Eff.bind m (fun _ => k))
  (at level 61, right associativity).

Record HarborDefaults : Type := {
  hd_shell : option string;
  hd_user : option string;
  hd_port : option number;
  hd_identityFile : option string
}.

Record FleetDefaults : Type := {
  fd_user : option string;
  fd_port : option number;
  fd_identityFile : option string;
  fd_shell : option string
}.

Record Vessel : Type := {
  v_name : string;
  v_host : string;
  v_user : option string;
  v_port : option number;
  v_identityFile : option string;
  v_shell : option string;
  v_tags : option (list string);
  v_favorite : option bool;
  v_notes : option string
}.

Record Fleet : Type := {
  f_name : string;
  f_defaults : option FleetDefaults;
  f_vessels : list Vessel
}.

Record SSHConnectionInfo : Type := {
  name : string;
  host : string;
  user : string;
  port : number;
  identityFile : option string;
  shell : string;
  fleetName : string;
  favorite : bool;
  tags : list string
}.

Record SSHarborSettings : Type := {
  defaultShell : string;
  defaultUser : string;
  defaultPort : number;
  showRecentConnections : bool;
  maxRecentConnections : number
}.

Record QuickConnectParsed : Type := {
  qc_user : option string;
  qc_host : string;
  qc_port : option number
}.

Record ValidationResult : Type := {
  valid : bool;
  error : option string
}.

(** The record of [buildConnectionId] and [parseConnectionId]. *)
Record ConnectionId : Type := {
  ci_host : string;
  ci_user : string;
  ci_port : number
}.

(** [fleet.defaults?.field] *)
Definition fleet_default {A : Type} (field : FleetDefaults -> option A)
    (fleet : Fleet) : option A :=
  match f_defaults fleet with
  | Some d => field d
  | None => None
  end.

(** The defaults cascade in the constructor of [VesselItem]. *)
Definition VesselItem_connectionInfo (vessel : Vessel) (fleet : Fleet)
    (harborDefaults : HarborDefaults) (settings : SSHarborSettings)
  : SSHConnectionInfo :=
  let user :=
    js_or_last Str.truthy
      (js_or Str.truthy
         (js_or Str.truthy (v_user vessel) (fleet_default fd_user fleet))
         (hd_user harborDefaults))
      (defaultUser settings) in
  let port :=
    js_or_last Num.truthy
      (js_or Num.truthy
         (js_or Num.truthy (v_port vessel) (fleet_default fd_port fleet))
         (hd_port harborDefaults))
      (defaultPort settings) in
  let identityFile :=
    js_or Str.truthy
      (js_or Str.truthy (v_identityFile vessel)
         (fleet_default fd_identityFile fleet))
      (hd_identityFile harborDefaults) in
  let shell :=
    js_or_last Str.truthy
      (js_or Str.truthy
         (js_or Str.truthy (v_shell vessel) (fleet_default fd_shell fleet))
         (hd_shell harborDefaults))
      (defaultShell settings) in
  {| name := if Str.truthy (v_name vessel) then v_name vessel
             else v_host vessel;
     host := v_host vessel;
     user := user;
     port := port;
     identityFile := identityFile;
     shell := shell;
     fleetName := f_name fleet;
     favorite := match v_favorite vessel with
                 | Some true => true
                 | _ => false
                 end;
     tags := match v_tags vessel with
             | Some l => l
             | None => []
             end |}.

(* ------------------------------------------------------------------ *)
(** * core/security.ts *)
(* ------------------------------------------------------------------ *)

Import RegExp.

Definition chars (s : string) (c : ascii) : bool :=
  Str.includes s (String c EmptyString).

(** [[a-zA-Z0-9]] followed by the extra characters of [more]. *)
Definition alnum_or (more : string) (c : ascii) : bool :=
  Str.is_alnum c || chars more c.

(** [/^[a-zA-Z0-9][a-zA-Z0-9.-]*[a-zA-Z0-9]$|^[a-zA-Z0-9]$/] *)
Definition re_host : regex :=
  Alt (Seq Bol (Seq (Cls Str.is_alnum)
         (Seq (Star (Cls (alnum_or ".-"))) (Seq (Cls Str.is_alnum) Eol))))
      (Seq Bol (Seq (Cls Str.is_alnum) Eol)).

Definition isValidHost (host : string) : bool :=
  if negb (Str.truthy host) then false
  else RegExp.test false re_host host.

(** [/^[a-zA-Z_][a-zA-Z0-9_-]*$/] *)
Definition re_user : regex :=
  Seq Bol (Seq (Cls (fun c => Str.is_lower c || Str.is_upper c || chars "_" c))
    (Seq (Star (Cls (alnum_or "_-"))) Eol)).

Definition isValidUser (user : string) : bool :=
  if negb (Str.truthy user) then false
  else RegExp.test false re_user user.

(** [/^[~\/][a-zA-Z0-9._\/-]*$/] *)
Definition re_identity : regex :=
  Seq Bol (Seq (Cls (chars "~/")) (Seq (Star (Cls (alnum_or "._/-"))) Eol)).

(** The character class of the pattern in [sanitize]: the shell
    metacharacters, both quotes, the backslash, line feed and carriage
    return. *)
Definition dangerous (c : ascii) : bool :=
  chars ";&|`$(){}[]<>\'!#" c
  || Ascii.eqb c (ascii_of_nat 34) || Ascii.eqb c Str.LF
  || Ascii.eqb c Str.CR.

Definition sanitize (input : string) : string :=
  RegExp.replaceAll false (Cls dangerous) "" input.

(** [/^(?:([^@]+)@)?([^:]+)(?::(\d+))?$/] *)
Definition re_quick : regex :=
  Seq Bol
    (Seq (Opt (Seq (Grp 1 (Plus (Not "@"))) (Chr "@")))
       (Seq (Grp 2 (Plus (Not ":")))
          (Seq (Opt (Seq (Chr ":") (Grp 3 (Plus (Cls Str.is_digit))))) Eol))).

Section Host.

(** [os.homedir()] and [process.cwd()] *)
Variable homedir : string.
Variable cwd : string.
(** The rendering of numbers that are not integers, see
    [Num.toString]. *)
Variable fractionToString : Q -> string.

Definition String_ (n : number) : string :=
  Num.toString fractionToString n.

Definition isValidIdentityFile (filePath : string) : bool :=
  if negb (Str.truthy filePath) then false
  else if negb (RegExp.test false re_identity filePath) then false
  else
    let expandedPath :=
      if Str.startsWith filePath "~"
      then RegExp.replace false (Seq Bol (Chr "~")) homedir filePath
      else filePath in
    let resolvedPath := Path.resolve cwd expandedPath in
    let homeDir := homedir in
    let sshDir := Path.join [homeDir; ".ssh"] in
    let isInSshDir :=
      Str.startsWith resolvedPath (sshDir ++ Path.sep)
      || String.eqb resolvedPath sshDir in
    let isInHomeDir := Str.startsWith resolvedPath (homeDir ++ Path.sep) in
    let isSafePattern :=
      Str.startsWith filePath "~/.ssh/"
      || Str.startsWith filePath "/home/"
      || Str.startsWith filePath "/Users/" in
    if Str.includes filePath ".." then false
    else isInSshDir || (isInHomeDir && isSafePattern).

Definition validateConnectionInfo (info : SSHConnectionInfo)
  : ValidationResult :=
  if negb (isValidHost (host info)) then
    {| valid := false; error := Some ("Invalid host: " ++ host info) |}
  else if negb (isValidUser (user info)) then
    {| valid := false; error := Some ("Invalid user: " ++ user info) |}
  else if negb (isValidPort (IsNumber (port info))) then
    {| valid := false;
       error := Some ("Invalid port: " ++ String_ (port info)) |}
  else
    match identityFile info with
    | Some f =>
        if Str.truthy f && negb (isValidIdentityFile f) then
          {| valid := false;
             error := Some ("Invalid identity file path: " ++ f) |}
        else {| valid := true; error := None |}
    | None => {| valid := true; error := None |}
    end.

(** A group that took no part in the match is [undefined]:
    [isValidHost(undefined)] is false, a user or a port that is
    [undefined] is not checked. *)
Definition parseQuickConnect (input : string) : option QuickConnectParsed :=
  let trimmed := sanitize (Str.trim input) in
  if negb (Str.truthy trimmed) then None
  else
    match RegExp.exec false re_quick trimmed with
    | None => None
    | Some m =>
        let user := RegExp.group 1 m in
        let portStr := RegExp.group 3 m in
        match RegExp.group 2 m with
        | None => None
        | Some host =>
            if negb (isValidHost host) then None
            else if truthy_opt user
                    && negb (match user with
                             | Some u => isValidUser u
                             | None => false
                             end) then None
            else
              let port :=
                match portStr with
                | Some p => if Str.truthy p then Some (Num.parseInt10 p)
                            else None
                | None => None
                end in
              match port with
              | Some p =>
                  if negb (isValidPort (IsNumber p)) then None
                  else Some {| qc_user := js_or Str.truthy user None;
                               qc_host := host;
                               qc_port := port |}
              | None => Some {| qc_user := js_or Str.truthy user None;
                                qc_host := host;
                                qc_port := port |}
              end
        end
    end.

(* ---------------------------------------------------------------- *)
(** * core/ssh.ts *)
(* ---------------------------------------------------------------- *)

Definition expandPath (filePath : string) : string :=
  if Str.startsWith filePath "~"
  then RegExp.replace false (Seq Bol (Chr "~")) homedir filePath
  else filePath.

(** [info.port !== 22] *)
Definition nonstandard_port (info : SSHConnectionInfo) : bool :=
  negb (Num.strict_eqb (port info) (Num.of_Z 22)).

Definition buildSSHCommand (info : SSHConnectionInfo) : Eff.t string :=
  let validation := validateConnectionInfo info in
  if negb (valid validation) then
    Eff.throw (match error validation with
               | Some e => e
               | None => EmptyString
               end)
  else
    let parts := ["ssh"] in
    parts <-
      (if truthy_opt (identityFile info) then
         let keyPath :=
           expandPath (match identityFile info with
                       | Some f => f
                       | None => EmptyString
                       end) in
         found <- Eff.existsSync keyPath ;;
         if (found : bool) then Eff.ret (push parts ["-i"; keyPath])
         else
           Eff.warn ("SSHarbor: Identity file not found: " ++ keyPath) ;;;
           Eff.ret parts
       else Eff.ret parts) ;;
    let parts :=
      if nonstandard_port info
      then push parts ["-p"; String_ (port info)]
      else parts in
    let parts := push parts [user info ++ "@" ++ host info] in
    Eff.ret (Str.join " " parts).

Definition buildSSHCommandDisplay (info : SSHConnectionInfo) : string :=
  let parts := ["ssh"] in
  let parts :=
    match identityFile info with
    | Some f => if Str.truthy f then push parts ["-i"; f] else parts
    | None => parts
    end in
  let parts :=
    if nonstandard_port info
    then push parts ["-p"; String_ (port info)]
    else parts in
  let parts := push parts [user info ++ "@" ++ host info] in
  Str.join " " parts.

Definition buildConnectionId (info : ConnectionId) : string :=
  ci_user info ++ "@" ++ ci_host info ++ ":" ++ String_ (ci_port info).

(** [/^([^@]+)@([^:]+):(\d+)$/] *)
Definition re_connection_id : regex :=
  Seq Bol
    (Seq (Grp 1 (Plus (Not "@")))
       (Seq (Chr "@")
          (Seq (Grp 2 (Plus (Not ":")))
             (Seq (Chr ":") (Seq (Grp 3 (Plus (Cls Str.is_digit))) Eol))))).

(** The three groups take part in every match of the pattern, so the
    last case below is never met. *)
Definition parseConnectionId (id : string) : option ConnectionId :=
  match RegExp.exec false re_connection_id id with
  | None => None
  | Some m =>
      match RegExp.group 1 m, RegExp.group 2 m, RegExp.group 3 m with
      | Some user, Some host, Some portStr =>
          let port := Num.parseInt10 portStr in
          Some {| ci_host := host; ci_user := user; ci_port := port |}
      | _, _, _ => None
      end
  end.

(** [/[^a-zA-Z0-9]/g] *)
Definition re_not_alnum : regex := Cls (fun c => negb (Str.is_alnum c)).

Definition generateSSHConfigAlias (info : SSHConnectionInfo) : string :=
  let fleet := RegExp.replaceAll false re_not_alnum "_" (fleetName info) in
  let vessel := RegExp.replaceAll false re_not_alnum "_" (name info) in
  "SSHarbor_" ++ fleet ++ "_" ++ vessel.

Definition marker : string := "# === SSHarbor Managed Entries ===".

(** The lines of the entry of [info], joined. *)
Definition newEntry (info : SSHConnectionInfo) : string :=
  let alias := generateSSHConfigAlias info in
  let entryLines :=
    ["Host " ++ alias;
     "  HostName " ++ host info;
     "  User " ++ user info] in
  let entryLines :=
    if nonstandard_port info
    then push entryLines ["  Port " ++ String_ (port info)]
    else entryLines in
  let entryLines :=
    match identityFile info with
    | Some f =>
        if Str.truthy f then push entryLines ["  IdentityFile " ++ f]
        else entryLines
    | None => entryLines
    end in
  let entryLines := push entryLines [""] in
  Str.join Str.nl entryLines.

(** [new RegExp(`^Host ${alias}$`, 'm')]; an alias is made of letters,
    digits and [_], which stand for themselves in a pattern. *)
Definition entryRegex (alias : string) : regex :=
  Seq Bol (Seq (Lit ("Host " ++ alias)) Eol).

(** [  [^\n]+\n], one indented line of an entry. *)
Definition line_re : regex :=
  Seq (Lit "  ") (Seq (Plus (Not Str.LF)) (Chr Str.LF)).

(** [new RegExp(`\\n?Host ${alias}\\n(?:  [^\\n]+\\n)*`, 'g')] *)
Definition removeRegex (alias : string) : regex :=
  Seq (Opt (Chr Str.LF))
    (Seq (Lit ("Host " ++ alias)) (Seq (Chr Str.LF) (Star line_re))).

(** The text [ensureSSHConfigEntry] writes, from the text it read. *)
Definition updatedConfig (info : SSHConnectionInfo)
    (existingConfig : string) : string :=
  let alias := generateSSHConfigAlias info in
  let existingConfig :=
    if RegExp.test true (entryRegex alias) existingConfig
    then RegExp.replaceAll false (removeRegex alias) "" existingConfig
    else existingConfig in
  if Str.includes existingConfig marker
  then replace_string marker (marker ++ Str.nl ++ newEntry info)
         existingConfig
  else Str.trimEnd existingConfig
         ++ Str.nl ++ Str.nl ++ marker ++ Str.nl ++ newEntry info.

Definition ensureSSHConfigEntry (info : SSHConnectionInfo) : Eff.t string :=
  let sshConfigPath := Path.join [homedir; ".ssh"; "config"] in
  let alias := generateSSHConfigAlias info in
  existingConfig <-
    Eff.try_catch (Eff.readFileSync sshConfigPath) (Eff.ret EmptyString) ;;
  Eff.writeFileSync sshConfigPath (updatedConfig info existingConfig) ;;;
  Eff.ret alias.

End Host.

(* ------------------------------------------------------------------ *)
(** * Vocabulary of the properties *)
(* ------------------------------------------------------------------ *)

Module Spec.

(** A character outside [[A-Za-z0-9]] becomes [_]. *)
Definition clean (c : ascii) : ascii :=
  if Str.is_alnum c then c else "_"%char.

(** The first value of a chain that is present and not empty. *)
Fixpoint first_present {A : Type} (truthy : A -> bool)
    (chain : list (option A)) : option A :=
  match chain with
  | [] => None
  | Some x :: chain' =>
      if truthy x then Some x else first_present truthy chain'
  | None :: chain' => first_present truthy chain'
  end.

(** The identity file of a connection when one is set. *)
Definition identity_set (info : SSHConnectionInfo) : option string :=
  match identityFile info with
  | Some f => if Str.truthy f then Some f else None
  | None => None
  end.

(** [ssh [-i I] [-p P] U@H] *)
Definition command_tokens (identity : option string) (portText : string)
    (info : SSHConnectionInfo) : list string :=
  (["ssh"]
   ++ match identity with Some i => ["-i"; i] | None => [] end
   ++ (if Num.strict_eqb (port info) (Num.of_Z 22) then []
       else ["-p"; portText])
   ++ [(user info ++ "@" ++ host info)%string])%list.

(** The same connection with no identity file. *)
Definition without_identity (info : SSHConnectionInfo)
  : SSHConnectionInfo :=
  {| name := name info; host := host info; user := user info;
     port := port info; identityFile := None; shell := shell info;
     fleetName := fleetName info; favorite := favorite info;
     tags := tags info |}.

(** The input denotes an integer of the range 1..65535: a number that
    is an integer of the range, or a string that is the decimal numeral of
    one. *)
Definition denotes_port (input : number_or_string) : bool :=
  match input with
  | IsNumber (Finite q) =>
      Num.is_integer q && (1 <=? Num.floor q)%Z && (Num.floor q <=? 65535)%Z
  | IsNumber _ => false
  | IsString s =>
      Str.truthy s && Str.forallb Str.is_digit s
      && (1 <=? N.of_uint (fst (Num.digit_prefix s)))%N
      && (N.of_uint (fst (Num.digit_prefix s)) <=? 65535)%N
  end.

(** The lines of a text, cut at line feeds and carriage returns, with
    the line read so far in [cur]. *)
Fixpoint lines_from (cur : string) (text : string) : list string :=
  match text with
  | EmptyString => [cur]
  | String c text' =>
      if Str.is_line_terminator c then cur :: lines_from EmptyString text'
      else lines_from (cur ++ String c EmptyString) text'
  end.

(** How many lines of a text read [Host <alias>]. *)
Definition host_lines (alias text : string) : nat :=
  List.length
    (List.filter (String.eqb ("Host " ++ alias)) (lines_from "" text)).

(** A connection of the fleet [F]: the vessel [V], on the standard
    port and without identity file. *)
Definition vessel_V : SSHConnectionInfo :=
  {| name := "V"; host := "h.example"; user := "u";
     port := Num.of_Z 22; identityFile := None; shell := "/bin/bash";
     fleetName := "F"; favorite := false; tags := [] |}.

(** A connection with a key and a port of its own. *)
Definition vessel_keyed : SSHConnectionInfo :=
  {| name := "Server"; host := "example.com"; user := "admin";
     port := Num.of_Z 2222; identityFile := Some "~/.ssh/id_rsa";
     shell := "/bin/bash"; fleetName := "Production"; favorite := false;
     tags := [] |}.

(** A store that holds the key [/home/testuser/.ssh/id_rsa] in its
    directory and nothing else, and one that holds nothing. *)
Definition world_with_key : world :=
  World (fun p => if String.eqb p "/home/testuser/.ssh/id_rsa"
                  then Some (File "key")
                  else if String.eqb p "/home/testuser/.ssh"
                  then Some Directory else None) [].

Definition world_empty : world := World (fun _ => None) [].

(** A store whose only file is the SSH configuration of the user
    [testuser], with the given text, in its directory. *)
Definition world_with_config (text : string) : world :=
  World (fun p => if String.eqb p "/home/testuser/.ssh/config"
                  then Some (File text)
                  else if String.eqb p "/home/testuser/.ssh"
                  then Some Directory else None) [].

(** The lines of the entry below its [Host] line, without their
    indentation. *)
Definition body_lines (fractionToString : Q -> string)
    (info : SSHConnectionInfo) : list string :=
  List.app ["HostName " ++ host info; "User " ++ user info]
    (List.app
       (if nonstandard_port info
        then ["Port " ++ String_ fractionToString (port info)] else [])
       match identityFile info with
       | Some f => if Str.truthy f then ["IdentityFile " ++ f] else []
       | None => []
       end).

(** Lines indented by two spaces, each closed by a line feed. *)
Fixpoint indented (bodies : list string) : string :=
  match bodies with
  | [] => ""
  | b :: bodies' => "  " ++ b ++ Str.nl ++ indented bodies'
  end.

(** A text without line feed. *)
Definition no_LF (s : string) : bool :=
  Str.forallb (fun x => negb (Ascii.eqb Str.LF x)) s.

(** A text without line feed, carriage return or [$]. *)
Definition plain (s : string) : bool :=
  Str.forallb
    (fun c => negb (Str.is_line_terminator c) && negb (Ascii.eqb c "$")) s.

(** The fields of a connection that go into its entry are plain. *)
Definition plain_fields (fractionToString : Q -> string)
    (info : SSHConnectionInfo) : bool :=
  plain (host info) && plain (user info)
  && plain (String_ fractionToString (port info))
  && match identityFile info with
     | Some f => plain f
     | None => true
     end.

(** A vessel without overrides in a fleet whose defaults name the user
    [deploy], no global defaults, and the settings [getSettings]
    returns when the user has set none. *)
Definition vessel_bare : Vessel :=
  {| v_name := "web"; v_host := "web.example.com"; v_user := None;
     v_port := None; v_identityFile := None; v_shell := None;
     v_tags := None; v_favorite := None; v_notes := None |}.

Definition fleet_deploy : Fleet :=
  {| f_name := "Production";
     f_defaults := Some {| fd_user := Some "deploy"; fd_port := None;
                           fd_identityFile := None; fd_shell := None |};
     f_vessels := [vessel_bare] |}.

(** The same fleet without defaults. *)
Definition fleet_bare : Fleet :=
  {| f_name := "Production"; f_defaults := None;
     f_vessels := [vessel_bare] |}.

Definition harbor_none : HarborDefaults :=
  {| hd_shell := None; hd_user := None; hd_port := None;
     hd_identityFile := None |}.

Definition settings_shipped : SSHarborSettings :=
  {| defaultShell := "/bin/zsh"; defaultUser := "root";
     defaultPort := Num.of_Z 22; showRecentConnections := true;
     maxRecentConnections := Num.of_Z 5 |}.

(** Settings in which the user has emptied the three fallbacks. *)
Definition settings_empty : SSHarborSettings :=
  {| defaultShell := ""; defaultUser := "";
     defaultPort := Num.of_Z 0; showRecentConnections := true;
     maxRecentConnections := Num.of_Z 5 |}.

(** A connection with the port 3/2. *)
Definition vessel_fraction : SSHConnectionInfo :=
  {| name := "V"; host := "h.example"; user := "u";
     port := Finite (3 # 2); identityFile := None; shell := "/bin/bash";
     fleetName := "F"; favorite := false; tags := [] |}.

End Spec.

(* ------------------------------------------------------------------ *)
(** * core/security.ts: names and tags *)
(* ------------------------------------------------------------------ *)

(** [/^[a-zA-Z0-9][a-zA-Z0-9 _-]*$/] *)
Definition re_fleet_name : regex :=
  Seq Bol (Seq (Cls Str.is_alnum) (Seq (Star (Cls (alnum_or " _-"))) Eol)).

Definition isValidFleetName (name : string) : bool :=
  if negb (Str.truthy name) then false
  else RegExp.test false re_fleet_name name
       && (String.length name <=? 50)%nat.

(** [/^[a-zA-Z0-9][a-zA-Z0-9 _.-]*$/] *)
Definition re_vessel_name : regex :=
  Seq Bol (Seq (Cls Str.is_alnum) (Seq (Star (Cls (alnum_or " _.-"))) Eol)).

Definition isValidVesselName (name : string) : bool :=
  if negb (Str.truthy name) then false
  else RegExp.test false re_vessel_name name
       && (String.length name <=? 50)%nat.

(** [/^[a-zA-Z0-9-]+$/] *)
Definition re_tag : regex :=
  Seq Bol (Seq (Plus (Cls (alnum_or "-"))) Eol).

Definition isValidTag (tag : string) : bool :=
  if negb (Str.truthy tag) then false
  else RegExp.test false re_tag tag && (String.length tag <=? 30)%nat.

(* ------------------------------------------------------------------ *)
(** * views/add-vessel-webview.ts *)
(* ------------------------------------------------------------------ *)

(** The double quote. *)
Definition double_quote : ascii := ascii_of_nat 34.

(** [escapeHtml], the same in views/create-fleet-webview.ts. *)
Definition escapeHtml (text : string) : string :=
  let text := RegExp.replaceAll false (Chr "&") "&amp;" text in
  let text := RegExp.replaceAll false (Chr "<") "&lt;" text in
  let text := RegExp.replaceAll false (Chr ">") "&gt;" text in
  let text := RegExp.replaceAll false (Chr double_quote) "&quot;" text in
  RegExp.replaceAll false (Chr "'") "&#039;" text.

(** [s.split(sep)] for a separator of one character, with the piece
    read so far in [cur]. *)
Fixpoint split_on_from (sep : ascii) (cur : string) (s : string)
  : list string :=
  match s with
  | EmptyString => [cur]
  | String c s' =>
      if Ascii.eqb c sep then cur :: split_on_from sep EmptyString s'
      else split_on_from sep (cur ++ String c EmptyString) s'
  end.

Definition split_on (sep : ascii) (s : string) : list string :=
  split_on_from sep EmptyString s.

(** What the form of the panel posts with its [save] message: the
    values of its fields, and the state of the check box. *)
Record VesselForm : Type := {
  vf_fleet : string;
  vf_name : string;
  vf_host : string;
  vf_user : string;
  vf_port : string;
  vf_identityFile : string;
  vf_tags : string;
  vf_favorite : bool;
  vf_notes : string
}.

(** What [saveVessel] does with a form: it sends an error back to the
    panel, or it calls [configManager.addVessel(fleet, vessel)]. *)
Inductive save_vessel : Type :=
| SendError (message : string)
| AddVessel (fleet : string) (vessel : Vessel).

(** [s || undefined] *)
Definition or_undefined (s : string) : option string :=
  if Str.truthy s then Some s else None.

Definition saveVessel (data : VesselForm) : save_vessel :=
  let fleet := vf_fleet data in
  let host := vf_host data in
  let user := vf_user data in
  let port := vf_port data in
  let tags := vf_tags data in
  if negb (Str.truthy fleet) then SendError "Please select a fleet"
  else if negb (Str.truthy host) || negb (isValidHost host)
  then SendError "Invalid hostname or IP address"
  else if Str.truthy user && negb (isValidUser user)
  then SendError "Invalid username"
  else if Str.truthy port && negb (isValidPort (IsString port))
  then SendError "Invalid port (1-65535)"
  else
    AddVessel fleet
      {| v_name := if Str.truthy (vf_name data) then vf_name data else host;
         v_host := host;
         v_user := or_undefined user;
         v_port := if Str.truthy port then Some (Num.parseInt10 port)
                   else None;
         v_identityFile := or_undefined (vf_identityFile data);
         v_shell := None;
         v_tags := if Str.truthy tags
                   then Some (List.filter Str.truthy
                                (List.map Str.trim (split_on "," tags)))
                   else None;
         v_favorite := Some (vf_favorite data);
         v_notes := or_undefined (vf_notes data) |}.

(* ------------------------------------------------------------------ *)
(** * commands/import-ssh-config.ts *)
(* ------------------------------------------------------------------ *)

Record ParsedSshHost : Type := {
  ph_name : string;
  ph_host : string;
  ph_user : option string;
  ph_port : option number;
  ph_identityFile : option string
}.

(** [c.toLowerCase()] on a character below code 256: the letters
    [A-Z] and the capital letters of Latin-1 move up by 32. *)
Definition toLowerCase_char (c : ascii) : ascii :=
  let n := Str.code c in
  if ((65 <=? n)%nat && (n <=? 90)%nat)
     || ((192 <=? n)%nat && (n <=? 222)%nat && negb (n =? 215)%nat)
  then ascii_of_nat (n + 32) else c.

Definition toLowerCase (s : string) : string := Str.map toLowerCase_char s.

(** [/^(\w+)\s*[=\s]\s*(.+)$/i]; none of its classes holds a letter,
    so the flag [i] changes nothing. *)
Definition re_key_value : regex :=
  Seq Bol
    (Seq (Grp 1 (Plus (Cls Str.is_word)))
       (Seq (Star (Cls Str.is_space))
          (Seq (Cls (fun c => Ascii.eqb c "=" || Str.is_space c))
             (Seq (Star (Cls Str.is_space))
                (Seq (Grp 2 (Plus (Cls (fun c =>
                                     negb (Str.is_line_terminator c)))))
                   Eol))))).

(** [if (currentHost && currentHost.host) hosts.push(currentHost)] *)
Definition push_current (hosts : list ParsedSshHost)
    (currentHost : option ParsedSshHost) : list ParsedSshHost :=
  match currentHost with
  | Some h => if Str.truthy (ph_host h) then push hosts [h] else hosts
  | None => hosts
  end.

Section ImportSshConfig.

(** [os.homedir()] *)
Variable homedir : string.

(** One round of the loop of [parseSshConfig], on the hosts found so
    far and the host being read. *)
Definition parseSshConfig_line
    (state : list ParsedSshHost * option ParsedSshHost) (line : string)
  : list ParsedSshHost * option ParsedSshHost :=
  let '(hosts, currentHost) := state in
  let trimmed := Str.trim line in
  if Str.startsWith trimmed "#" || String.eqb trimmed "" then state
  else
    match RegExp.exec false re_key_value trimmed with
    | None => state
    | Some m =>
        match RegExp.group 1 m, RegExp.group 2 m with
        | Some key, Some value =>
            let keyLower := toLowerCase key in
            if String.eqb keyLower "host" then
              let hosts := push_current hosts currentHost in
              if Str.includes value "*" || Str.includes value "?"
              then (hosts, None)
              else (hosts,
                    Some {| ph_name := value; ph_host := value;
                            ph_user := None; ph_port := None;
                            ph_identityFile := None |})
            else
              match currentHost with
              | Some h =>
                  if String.eqb keyLower "hostname" then
                    (hosts,
                     Some {| ph_name := ph_name h; ph_host := value;
                             ph_user := ph_user h; ph_port := ph_port h;
                             ph_identityFile := ph_identityFile h |})
                  else if String.eqb keyLower "user" then
                    (hosts,
                     Some {| ph_name := ph_name h; ph_host := ph_host h;
                             ph_user := Some value; ph_port := ph_port h;
                             ph_identityFile := ph_identityFile h |})
                  else if String.eqb keyLower "port" then
                    (hosts,
                     Some {| ph_name := ph_name h; ph_host := ph_host h;
                             ph_user := ph_user h;
                             ph_port := Some (Num.parseInt10 value);
                             ph_identityFile := ph_identityFile h |})
                  else if String.eqb keyLower "identityfile" then
                    (hosts,
                     Some {| ph_name := ph_name h; ph_host := ph_host h;
                             ph_user := ph_user h; ph_port := ph_port h;
                             ph_identityFile :=
                               Some (RegExp.replace false
                                       (Seq Bol (Chr "~")) homedir value) |})
                  else state
              | None => state
              end
        | _, _ => state
        end
    end.

Definition parseSshConfig (content : string) : list ParsedSshHost :=
  let '(hosts, currentHost) :=
    List.fold_left parseSshConfig_line (split_on Str.LF content) ([], None) in
  push_current hosts currentHost.

End ImportSshConfig.

(* ------------------------------------------------------------------ *)
(** * core/config.ts *)
(* ------------------------------------------------------------------ *)

(** The methods of [ConfigManager] below load a JSON document, change
    it and save it.  Each is given as the document it saves, from the
    document it loaded. *)

Record RecentConnection : Type := {
  rc_host : string;
  rc_user : string;
  rc_port : number;
  rc_identityFile : option string;
  rc_timestamp : number;
  rc_fleetName : option string;
  rc_vesselName : option string
}.

(** The integer part of a rational, as ToIntegerOrInfinity takes it. *)
Definition truncate (q : Q) : Z := Z.quot (Qnum q) (Zpos (Qden q)).

(** [array.slice(0, end)]: a negative [end] counts from the end of
    the array, [NaN] counts as 0. *)
Definition slice0 {A : Type} (array : list A) (end_ : number) : list A :=
  let len := Z.of_nat (List.length array) in
  let final :=
    match end_ with
    | NaN => 0%Z
    | Infinity true => 0%Z
    | Infinity false => len
    | Finite q =>
        let relativeEnd := truncate q in
        if (relativeEnd <? 0)%Z then Z.max (len + relativeEnd) 0
        else Z.min relativeEnd len
    end in
  List.firstn (Z.to_nat final) array.

(** The test of the filter in [addRecent]. *)
Definition same_connection (r connection : RecentConnection) : bool :=
  String.eqb (rc_host r) (rc_host connection)
  && String.eqb (rc_user r) (rc_user connection)
  && Num.strict_eqb (rc_port r) (rc_port connection).

(** [addRecent]; [now] is [Date.now()], and the time stamp of
    [connection], which the caller does not give, is not read. *)
Definition addRecent (settings : SSHarborSettings) (now : number)
    (connection : RecentConnection) (recent : list RecentConnection)
  : list RecentConnection :=
  let recent :=
    List.filter (fun r => negb (same_connection r connection)) recent in
  let recent :=
    {| rc_host := rc_host connection;
       rc_user := rc_user connection;
       rc_port := rc_port connection;
       rc_identityFile := rc_identityFile connection;
       rc_timestamp := now;
       rc_fleetName := rc_fleetName connection;
       rc_vesselName := rc_vesselName connection |} :: recent in
  slice0 recent (maxRecentConnections settings).

(** [getLastConnection], from the list [loadRecent] returns. *)
Definition getLastConnection (recent : list RecentConnection)
  : option RecentConnection :=
  match recent with
  | r :: _ => Some r
  | [] => None
  end.

(** The object of vessel-paths.json: a list of paths under some of
    the keys. *)
Definition VesselPathsStorage : Type := string -> option (list string).

(** [storage[key] = paths] *)
Definition set_paths (storage : VesselPathsStorage) (key : string)
    (paths : list string) : VesselPathsStorage :=
  fun k => if String.eqb k key then Some paths else storage k.

(** [storage[key]] where the key is known to be there. *)
Definition paths_at (storage : VesselPathsStorage) (key : string)
  : list string :=
  match storage key with
  | Some paths => paths
  | None => []
  end.

Section VesselPaths.

Variable fractionToString : Q -> string.

Definition getVesselKey (host user : string) (port : number) : string :=
  user ++ "@" ++ host ++ ":" ++ String_ fractionToString port.

(** [storage[key] || []]; an array is never falsy. *)
Definition getVesselSavedPaths (storage : VesselPathsStorage)
    (host user : string) (port : number) : list string :=
  let key := getVesselKey host user port in
  match storage key with
  | Some paths => paths
  | None => []
  end.

Definition addVesselPath (storage : VesselPathsStorage)
    (host user : string) (port : number) (folderPath : string)
  : VesselPathsStorage :=
  let key := getVesselKey host user port in
  let storage :=
    match storage key with
    | Some _ => storage
    | None => set_paths storage key []
    end in
  let storage :=
    set_paths storage key
      (List.filter (fun p => negb (String.eqb p folderPath))
         (paths_at storage key)) in
  let storage := set_paths storage key (folderPath :: paths_at storage key) in
  set_paths storage key (slice0 (paths_at storage key) (Num.of_Z 10)).

(** [removeVesselPath]: nothing is saved when the key is not there,
    which leaves the document as it was. *)
Definition removeVesselPath (storage : VesselPathsStorage)
    (host user : string) (port : number) (folderPath : string)
  : VesselPathsStorage :=
  let key := getVesselKey host user port in
  match storage key with
  | Some paths =>
      set_paths storage key
        (List.filter (fun p => negb (String.eqb p folderPath)) paths)
  | None => storage
  end.

End VesselPaths.

(** harbor.json, without its [$schema]. *)
Record HarborConfig : Type := {
  hc_defaults : option HarborDefaults;
  hc_fleets : list Fleet
}.

(* ------------------------------------------------------------------ *)
(** * commands/connect.ts: [saveCurrentFolder] *)
(* ------------------------------------------------------------------ *)

(** [config.defaults || {}] *)
Definition defaults_or_empty (config : HarborConfig) : HarborDefaults :=
  match hc_defaults config with
  | Some d => d
  | None => {| hd_shell := None; hd_user := None; hd_port := None;
               hd_identityFile := None |}
  end.

(** The alias [saveCurrentFolder] expects for a vessel of a fleet. *)
Definition expectedAlias (fleet : Fleet) (vessel : Vessel) : string :=
  let fleetClean := RegExp.replaceAll false re_not_alnum "_" (f_name fleet) in
  let vesselClean :=
    RegExp.replaceAll false re_not_alnum "_"
      (if Str.truthy (v_name vessel) then v_name vessel
       else v_host vessel) in
  "SSHarbor_" ++ fleetClean ++ "_" ++ vesselClean.

(** The inner loop: the first vessel of the fleet with the alias. *)
Fixpoint find_in_fleet (config : HarborConfig) (settings : SSHarborSettings)
    (sshHost : string) (fleet : Fleet) (vessels : list Vessel)
  : option ConnectionId :=
  match vessels with
  | [] => None
  | vessel :: vessels' =>
      if String.eqb sshHost (expectedAlias fleet vessel) then
        let defaults := defaults_or_empty config in
        Some {| ci_host := v_host vessel;
                ci_user :=
                  js_or_last Str.truthy
                    (js_or Str.truthy
                       (js_or Str.truthy (v_user vessel)
                          (fleet_default fd_user fleet))
                       (hd_user defaults))
                    (defaultUser settings);
                ci_port :=
                  js_or_last Num.truthy
                    (js_or Num.truthy
                       (js_or Num.truthy (v_port vessel)
                          (fleet_default fd_port fleet))
                       (hd_port defaults))
                    (defaultPort settings) |}
      else find_in_fleet config settings sshHost fleet vessels'
  end.

(** The outer loop, which stops at the first fleet with a match. *)
Fixpoint find_in_fleets (config : HarborConfig) (settings : SSHarborSettings)
    (sshHost : string) (fleets : list Fleet) : option ConnectionId :=
  match fleets with
  | [] => None
  | fleet :: fleets' =>
      match find_in_fleet config settings sshHost fleet (f_vessels fleet) with
      | Some found => Some found
      | None => find_in_fleets config settings sshHost fleets'
      end
  end.

(** [/^([^@]+)@([^:]+)(?::(\d+))?$/] *)
Definition re_user_host : regex :=
  Seq Bol
    (Seq (Grp 1 (Plus (Not "@")))
       (Seq (Chr "@")
          (Seq (Grp 2 (Plus (Not ":")))
             (Seq (Opt (Seq (Chr ":") (Grp 3 (Plus (Cls Str.is_digit)))))
                Eol)))).

(** The first workspace folder of the window: the scheme, the
    authority and the path of its URI. *)
Record Uri : Type := {
  uri_scheme : string;
  uri_authority : string;
  uri_path : string
}.

(** What [saveCurrentFolder] ends with: a warning, an error, or the
    call [configManager.addVesselPath(host, user, port, folderPath)]
    followed by the message that the folder was saved. *)
Inductive save_folder : Type :=
| ShowWarning (message : string)
| ShowError (message : string)
| SavePath (host user : string) (port : number) (folderPath : string).

Definition saveCurrentFolder (config : HarborConfig)
    (settings : SSHarborSettings) (remoteUri : option Uri) : save_folder :=
  match remoteUri with
  | None =>
      ShowWarning "SSHarbor: This command only works in Remote SSH sessions"
  | Some uri =>
      if negb (String.eqb (uri_scheme uri) "vscode-remote") then
        ShowWarning "SSHarbor: This command only works in Remote SSH sessions"
      else if negb (Str.startsWith (uri_authority uri) "ssh-remote+") then
        ShowWarning "SSHarbor: Not a SSH remote session"
      else
        let sshHost := replace_string "ssh-remote+" "" (uri_authority uri) in
        let folderPath := uri_path uri in
        let foundVessel :=
          if Str.startsWith sshHost "SSHarbor_"
          then find_in_fleets config settings sshHost (hc_fleets config)
          else None in
        let foundVessel :=
          match foundVessel with
          | Some found => Some found
          | None =>
              match RegExp.exec false re_user_host sshHost with
              | Some m =>
                  match RegExp.group 1 m, RegExp.group 2 m with
                  | Some u, Some h =>
                      Some {| ci_host := h;
                              ci_user := u;
                              ci_port :=
                                match RegExp.group 3 m with
                                | Some p =>
                                    if Str.truthy p then Num.parseInt10 p
                                    else Num.of_Z 22
                                | None => Num.of_Z 22
                                end |}
                  | _, _ => None
                  end
              | None => None
              end
          end in
        match foundVessel with
        | Some found =>
            SavePath (ci_host found) (ci_user found) (ci_port found)
              folderPath
        | None =>
            ShowError
              "SSHarbor: Could not identify vessel from remote session"
        end
  end.

(* ------------------------------------------------------------------ *)
(** * core/config.ts: the fleets and vessels of harbor.json *)
(* ------------------------------------------------------------------ *)

(** The methods below load the document, change it and save it; each is
    given as the document it saves, from the document it loaded, or as
    the error it throws before saving. *)
Inductive saved (A : Type) : Type :=
| Saved (result : A) (config : HarborConfig)
| Throws (message : string).
Arguments Saved {A} result config.
Arguments Throws {A} message.

(** [array.find(p)] returns the object itself, and an assignment to one
    of its fields changes the first element with [p] of the array. *)
Fixpoint update_first {A : Type} (p : A -> bool) (f : A -> A) (l : list A)
  : list A :=
  match l with
  | [] => []
  | x :: l' => if p x then f x :: l' else x :: update_first p f l'
  end.

Definition set_fleets (config : HarborConfig) (fleets : list Fleet)
  : HarborConfig :=
  {| hc_defaults := hc_defaults config; hc_fleets := fleets |}.

Definition set_vessels (fleet : Fleet) (vessels : list Vessel) : Fleet :=
  {| f_name := f_name fleet; f_defaults := f_defaults fleet;
     f_vessels := vessels |}.

Definition set_favorite (vessel : Vessel) (favorite : bool) : Vessel :=
  {| v_name := v_name vessel; v_host := v_host vessel;
     v_user := v_user vessel; v_port := v_port vessel;
     v_identityFile := v_identityFile vessel; v_shell := v_shell vessel;
     v_tags := v_tags vessel; v_favorite := Some favorite;
     v_notes := v_notes vessel |}.

(** [(f) => f.name === fleetName] *)
Definition fleet_named (fleetName : string) (f : Fleet) : bool :=
  String.eqb (f_name f) fleetName.

(** [(v) => v.host === vesselHost] *)
Definition vessel_at (vesselHost : string) (v : Vessel) : bool :=
  String.eqb (v_host v) vesselHost.

(** The truth value of [vessel.favorite]. *)
Definition is_favorite (vessel : Vessel) : bool :=
  match v_favorite vessel with
  | Some b => b
  | None => false
  end.

Definition addFleet (fleet : Fleet) (config : HarborConfig) : HarborConfig :=
  set_fleets config (hc_fleets config ++ [fleet])%list.

Definition removeFleet (fleetName : string) (config : HarborConfig)
  : HarborConfig :=
  set_fleets config
    (List.filter (fun f => negb (fleet_named fleetName f)) (hc_fleets config)).

Definition addVessel (fleetName : string) (vessel : Vessel)
    (config : HarborConfig) : saved unit :=
  match List.find (fleet_named fleetName) (hc_fleets config) with
  | None => Throws ("Fleet not found: " ++ fleetName)
  | Some _ =>
      Saved tt
        (set_fleets config
           (update_first (fleet_named fleetName)
              (fun fleet =>
                 set_vessels fleet (f_vessels fleet ++ [vessel])%list)
              (hc_fleets config)))
  end.

Definition removeVessel (fleetName vesselHost : string)
    (config : HarborConfig) : saved unit :=
  match List.find (fleet_named fleetName) (hc_fleets config) with
  | None => Throws ("Fleet not found: " ++ fleetName)
  | Some _ =>
      Saved tt
        (set_fleets config
           (update_first (fleet_named fleetName)
              (fun fleet =>
                 set_vessels fleet
                   (List.filter (fun v => negb (vessel_at vesselHost v))
                      (f_vessels fleet)))
              (hc_fleets config)))
  end.

Definition toggleFavorite (fleetName vesselHost : string)
    (config : HarborConfig) : saved bool :=
  match List.find (fleet_named fleetName) (hc_fleets config) with
  | None => Throws ("Fleet not found: " ++ fleetName)
  | Some fleet =>
      match List.find (vessel_at vesselHost) (f_vessels fleet) with
      | None => Throws ("Vessel not found: " ++ vesselHost)
      | Some vessel =>
          let favorite := negb (is_favorite vessel) in
          Saved favorite
            (set_fleets config
               (update_first (fleet_named fleetName)
                  (fun fleet =>
                     set_vessels fleet
                       (update_first (vessel_at vesselHost)
                          (fun vessel => set_favorite vessel favorite)
                          (f_vessels fleet)))
                  (hc_fleets config)))
      end
  end.

(** [getFavorites]: each favorite vessel with the name of its fleet, in
    the order of the document. *)
Definition getFavorites (config : HarborConfig) : list (Vessel * string) :=
  List.flat_map
    (fun fleet =>
       List.map (fun vessel => (vessel, f_name fleet))
         (List.filter is_favorite (f_vessels fleet)))
    (hc_fleets config).

(* ------------------------------------------------------------------ *)
(** * Vocabulary of the further properties *)
(* ------------------------------------------------------------------ *)

Module Shape.

(** A text made of characters of [p] and then one character of [q]. *)
Fixpoint ends_with (p q : ascii -> bool) (t : string) : bool :=
  match t with
  | EmptyString => false
  | String a t' =>
      (p a && ends_with p q t')
      || (q a && match t' with EmptyString => true | _ => false end)
  end.

(** The characters of [s] that are in [p], in their order. *)
Fixpoint keep (p : ascii -> bool) (s : string) : string :=
  match s with
  | EmptyString => EmptyString
  | String c s' => if p c then String c (keep p s') else keep p s'
  end.

(** Every character of [s] replaced by a text of its own. *)
Fixpoint expand_chars (f : ascii -> string) (s : string) : string :=
  match s with
  | EmptyString => EmptyString
  | String c s' => f c ++ expand_chars f s'
  end.

(** A text without shell metacharacter, quote, backslash, line feed or
    carriage return. *)
Definition shell_safe (s : string) : bool :=
  Str.forallb (fun c => negb (dangerous c)) s.

(** A character that can stand in the value of a line [Key value]
    and be read back as it is: no white space, no line terminator,
    no [=]. *)
Definition value_char (c : ascii) : bool :=
  negb (Str.is_space c) && negb (Ascii.eqb c "=").

(** The text [escapeHtml] writes for one character. *)
Definition entity (c : ascii) : string :=
  if Ascii.eqb c "&" then "&amp;"
  else if Ascii.eqb c "<" then "&lt;"
  else if Ascii.eqb c ">" then "&gt;"
  else if Ascii.eqb c double_quote then "&quot;"
  else if Ascii.eqb c "'" then "&#039;"
  else String c EmptyString.

(** A character that opens or closes no tag and no attribute value. *)
Definition html_inert (c : ascii) : bool :=
  negb (Ascii.eqb c "<") && negb (Ascii.eqb c ">")
  && negb (Ascii.eqb c double_quote) && negb (Ascii.eqb c "'").

(** No two entries of the list are the same connection for
    [addRecent]. *)
Fixpoint distinct_connections (l : list RecentConnection) : bool :=
  match l with
  | [] => true
  | r :: l' =>
      List.forallb (fun r' => negb (same_connection r' r)) l'
      && distinct_connections l'
  end.

(** A host as [parseSshConfig] may return it: a name that is not
    empty and holds no wildcard, and a host that is not empty. *)
Definition importable (h : ParsedSshHost) : bool :=
  Str.truthy (ph_name h)
  && negb (Str.includes (ph_name h) "*")
  && negb (Str.includes (ph_name h) "?")
  && Str.truthy (ph_host h).

(** The state of the loop of [parseSshConfig] holds such hosts
    only: those found so far, and the one being read. *)
Definition state_ok (state : list ParsedSshHost * option ParsedSshHost)
  : bool :=
  List.forallb importable (fst state)
  && match snd state with
     | Some h => importable h
     | None => true
     end.

(** A connection string [[user@]host[:port]]. *)
Definition quick_text (user : option string) (host : string)
    (port : option Z) : string :=
  match user with Some u => u ++ "@" | None => "" end
  ++ host
  ++ match port with Some z => ":" ++ Num.Z_toString z | None => "" end.

(** A test that holds of each of the 256 characters. *)
Definition all_chars (p : ascii -> bool) : bool :=
  List.forallb (fun n => p (ascii_of_nat n)) (List.seq 0 256).

End Shape.

(* ------------------------------------------------------------------ *)
(** * Basic facts about strings *)
(* ------------------------------------------------------------------ *)

Module StrFacts.

Lemma append_nil_r (s : string) : s ++ "" = s.
Proof. induction s as [|c s IH]; simpl; [reflexivity | now rewrite IH]. Qed.

Lemma append_assoc (s t u : string) : (s ++ t) ++ u = s ++ (t ++ u).
Proof. induction s as [|c s IH]; simpl; [reflexivity | now rewrite IH]. Qed.

Lemma length_append (s t : string) :
  String.length (s ++ t) = String.length s + String.length t.
Proof. induction s as [|c s IH]; simpl; [reflexivity | now rewrite IH]. Qed.

Lemma substring_0_length (s : string) :
  String.substring 0 (String.length s) s = s.
Proof. induction s as [|c s IH]; simpl; [reflexivity | now rewrite IH]. Qed.

Lemma substring_0_append (s t : string) :
  String.substring 0 (String.length s) (s ++ t) = s.
Proof.
  induction s as [|c s IH]; simpl.
  - destruct t; reflexivity.
  - now rewrite IH.
Qed.

Lemma substring_0_0 (s : string) : String.substring 0 0 s = "".
Proof. destruct s; reflexivity. Qed.

Lemma prefix_append (p s : string) : String.prefix p (p ++ s) = true.
Proof.
  induction p as [|c p IH]; simpl.
  - destruct s; reflexivity.
  - destruct (ascii_dec c c) as [_|n]; [exact IH | now elim n].
Qed.

Lemma prefix_inv (p s : string) :
  String.prefix p s = true -> exists t, s = p ++ t.
Proof.
  revert s; induction p as [|c p IH]; intros s H.
  - now exists s.
  - destruct s as [|d s]; simpl in H; [discriminate|].
    destruct (ascii_dec c d) as [->|]; [|discriminate].
    destruct (IH _ H) as [t ->]. now exists t.
Qed.

Lemma rev_append_app (s acc : string) :
  Str.rev_append s acc = Str.rev s ++ acc.
Proof.
  unfold Str.rev. revert acc.
  induction s as [|c s IH]; intros acc; simpl; [reflexivity|].
  rewrite IH, (IH (String c "")), append_assoc. reflexivity.
Qed.

Lemma rev_append_append (u v acc : string) :
  Str.rev_append (u ++ v) acc = Str.rev_append v (Str.rev_append u acc).
Proof.
  revert acc. induction u as [|c u IH]; intros acc; [reflexivity|].
  cbn. apply IH.
Qed.

Lemma rev_cons (c : ascii) (s : string) :
  Str.rev (String c s) = Str.rev s ++ String c "".
Proof. unfold Str.rev at 1. simpl. apply rev_append_app. Qed.

Lemma forallb_append (p : ascii -> bool) (s t : string) :
  Str.forallb p (s ++ t) = Str.forallb p s && Str.forallb p t.
Proof.
  induction s as [|c s IH]; simpl; [reflexivity|].
  now rewrite IH, andb_assoc.
Qed.

Lemma includes_prefix (s p : string) :
  String.prefix p s = true -> Str.includes s p = true.
Proof. intros H. destruct s; simpl in *; rewrite H; reflexivity. Qed.

Lemma includes_cons (c : ascii) (s p : string) :
  Str.includes s p = true -> Str.includes (String c s) p = true.
Proof. intros H. cbn [Str.includes]. rewrite H. apply orb_true_r. Qed.

Lemma includes_append (u s p : string) :
  Str.includes s p = true -> Str.includes (u ++ s) p = true.
Proof.
  intros H. induction u as [|c u IH]; simpl; [exact H|].
  fold (Str.includes (u ++ s) p). rewrite IH. apply orb_true_r.
Qed.

Lemma prefix_nil (s : string) : String.prefix "" s = true.
Proof. destruct s; reflexivity. Qed.

Lemma prefix_cons (a b : ascii) (p s : string) :
  String.prefix (String a p) (String b s)
  = Ascii.eqb a b && String.prefix p s.
Proof.
  cbn. destruct (ascii_dec a b) as [->|n].
  - now rewrite Ascii.eqb_refl.
  - now rewrite (proj2 (Ascii.eqb_neq a b) n).
Qed.

Lemma prefix_weaken (p u v : string) :
  String.prefix p u = true -> String.prefix p (u ++ v) = true.
Proof.
  intros H. destruct (prefix_inv _ _ H) as [t ->].
  rewrite append_assoc. apply prefix_append.
Qed.

(** A text without line feed that begins before a line feed ends
    before it. *)
Lemma prefix_stop (p u v : string) :
  Str.forallb (fun x => negb (Ascii.eqb Str.LF x)) p = true ->
  String.prefix p (u ++ String Str.LF v) = true ->
  String.prefix p u = true.
Proof.
  revert u. induction p as [|c p IH]; intros u Hp H.
  - apply prefix_nil.
  - cbn [Str.forallb] in Hp. apply andb_prop in Hp as [Hc Hp].
    destruct u as [|w u]; cbn [append] in H; rewrite prefix_cons in *.
    + apply andb_prop in H as [H _]. apply Ascii.eqb_eq in H. subst c.
      now rewrite Ascii.eqb_refl in Hc.
    + apply andb_prop in H as [H1 H2]. rewrite H1. cbn [andb].
      now apply IH.
Qed.

Lemma includes_split (p w rest : string) :
  Str.includes (w ++ rest) p
  = negb (Str.absent_in p w rest) || Str.includes rest p.
Proof.
  induction w as [|a w IH]; [reflexivity|].
  cbn [append Str.includes Str.absent_in]. fold (Str.includes (w ++ rest) p).
  rewrite IH, negb_andb, negb_involutive, orb_assoc. reflexivity.
Qed.

Lemma includes_false_split (p w rest : string) :
  Str.includes (w ++ rest) p = false ->
  Str.absent_in p w rest = true /\ Str.includes rest p = false.
Proof.
  rewrite includes_split. intros H. apply orb_false_elim in H as [H1 H2].
  split; [now apply negb_false_iff | exact H2].
Qed.

Lemma absent_in_app (p u v rest : string) :
  Str.absent_in p (u ++ v) rest
  = Str.absent_in p u (v ++ rest) && Str.absent_in p v rest.
Proof.
  induction u as [|a u IH]; [reflexivity|].
  cbn [append Str.absent_in]. rewrite IH, append_assoc, andb_assoc.
  reflexivity.
Qed.

(** What comes after a line feed does not matter to a text without
    line feed. *)
Lemma absent_in_stop (p w rest v : string) :
  Str.forallb (fun x => negb (Ascii.eqb Str.LF x)) p = true ->
  Str.absent_in p w rest = true ->
  Str.absent_in p w (String Str.LF v) = true.
Proof.
  intros Hp. induction w as [|a w IH]; [reflexivity|].
  cbn [Str.absent_in]. intros H. apply andb_prop in H as [H1 H2].
  rewrite (IH H2), andb_true_r. apply negb_true_iff in H1.
  apply negb_true_iff.
  destruct (String.prefix p (String a w ++ String Str.LF v)) eqn:E;
    [|reflexivity].
  apply prefix_stop in E; [|exact Hp].
  now rewrite (prefix_weaken _ _ rest E) in H1.
Qed.

Lemma absent_in_nl (p w v : string) :
  Str.forallb (fun x => negb (Ascii.eqb Str.LF x)) p = true ->
  Str.truthy p = true ->
  Str.absent_in p w (String Str.LF v) = true ->
  Str.absent_in (String Str.LF p) w (String Str.LF v) = true.
Proof.
  intros Hp Ht. induction w as [|a w IH]; [reflexivity|].
  cbn [Str.absent_in]. intros H. apply andb_prop in H as [_ H2].
  rewrite (IH H2), andb_true_r. cbn [append]. rewrite prefix_cons.
  destruct (Ascii.eqb Str.LF a); [|reflexivity]. cbn [andb].
  apply negb_true_iff. destruct w as [|b w].
  - cbn [append]. destruct p as [|c p]; [discriminate|].
    rewrite prefix_cons. cbn [Str.forallb] in Hp.
    apply andb_prop in Hp as [Hc _]. rewrite Ascii.eqb_sym.
    apply negb_true_iff in Hc. now rewrite Hc.
  - cbn [Str.absent_in] in H2. apply andb_prop in H2 as [H2 _].
    now apply negb_true_iff.
Qed.

Lemma includes_weaken (p s q : string) :
  Str.includes p q = true -> Str.includes (p ++ s) q = true.
Proof.
  induction p as [|a p IH]; cbn [Str.includes].
  - rewrite orb_false_r. intros H. apply includes_prefix.
    now apply (prefix_weaken q "" s).
  - fold (Str.includes p q). intros H. apply orb_prop in H as [H|H].
    + apply includes_prefix. now apply (prefix_weaken q (String a p) s).
    + cbn [append]. apply includes_cons. now apply IH.
Qed.

Lemma includes_longer (s p q : string) :
  Str.includes s p = false -> Str.includes s (p ++ q) = false.
Proof.
  induction s as [|a s IH]; cbn [Str.includes].
  - intros H. apply orb_false_elim in H as [H _].
    rewrite orb_false_r. destruct p; [discriminate | reflexivity].
  - fold (Str.includes s p). fold (Str.includes s (p ++ q)).
    intros H. apply orb_false_elim in H as [H1 H2].
    rewrite (IH H2), orb_false_r.
    destruct (String.prefix (p ++ q) (String a s)) eqn:E; [|reflexivity].
    destruct (prefix_inv _ _ E) as [t Ht]. rewrite append_assoc in Ht.
    rewrite Ht, prefix_append in H1. discriminate.
Qed.

Lemma substring_skip (u v : string) :
  String.substring (String.length u) (String.length v) (u ++ v) = v.
Proof.
  induction u as [|a u IH]; cbn; [apply substring_0_length | exact IH].
Qed.

Lemma rev_app (s t : string) : Str.rev (s ++ t) = Str.rev t ++ Str.rev s.
Proof.
  induction s as [|c s IH]; cbn [append].
  - now rewrite append_nil_r.
  - now rewrite !rev_cons, IH, append_assoc.
Qed.

Lemma rev_involutive (s : string) : Str.rev (Str.rev s) = s.
Proof.
  induction s as [|a s IH]; [reflexivity|].
  rewrite rev_cons, rev_app, IH. reflexivity.
Qed.

(** A string without the character [c]. *)
Lemma includes_char (c : ascii) (s : string) :
  Str.includes s (String c "") = false
  <-> Str.forallb (fun x => negb (Ascii.eqb c x)) s = true.
Proof.
  induction s as [|a s IH]; cbn [Str.includes Str.forallb String.prefix].
  - split; reflexivity.
  - destruct (ascii_dec c a) as [->|n].
    + rewrite Ascii.eqb_refl. destruct s; cbn; split; discriminate.
    + rewrite (proj2 (Ascii.eqb_neq c a) n). cbn [negb orb andb].
      exact IH.
Qed.

End StrFacts.

(* ------------------------------------------------------------------ *)
(** * Facts about the matcher *)
(* ------------------------------------------------------------------ *)

Module RegexFacts.
Import StrFacts.

Lemma span_spec (p : ascii -> bool) (s : string) :
  s = fst (span p s) ++ snd (span p s)
  /\ Str.forallb p (fst (span p s)) = true
  /\ stops p (snd (span p s)) = true.
Proof.
  induction s as [|a s IH]; simpl; [auto|].
  destruct (p a) eqn:Hp.
  - destruct (span p s) as [u v]; simpl in *.
    destruct IH as (-> & Hu & Hv). rewrite Hp, Hu. auto.
  - simpl. rewrite Hp. auto.
Qed.

Lemma span_app (p : ascii -> bool) (u v : string) :
  Str.forallb p u = true -> stops p v = true -> span p (u ++ v) = (u, v).
Proof.
  intros Hu Hv. induction u as [|a u IH]; simpl in *.
  - destruct v as [|b v]; simpl in *; [reflexivity|].
    now rewrite (proj1 (negb_true_iff _) Hv).
  - apply andb_prop in Hu as [Ha Hu]. now rewrite Ha, (IH Hu).
Qed.

Lemma consumed_app (b b' u v : string) :
  consumed (Cursor b (u ++ v)) (Cursor b' v) = u.
Proof.
  unfold consumed; simpl. rewrite length_append, Nat.add_sub.
  apply substring_0_append.
Qed.

Lemma consumed_same (c : cursor) : consumed c c = "".
Proof. unfold consumed. rewrite Nat.sub_diag. apply substring_0_0. Qed.

(** The equations of [run]. *)
Lemma run_seq (ml : bool) (r1 r2 : regex) (c : cursor) (caps : captures)
    (k : cont) :
  run ml (Seq r1 r2) c caps k
  = run ml r1 c caps (fun c' caps' => run ml r2 c' caps' k).
Proof. reflexivity. Qed.

Lemma run_cls_cons (ml : bool) (p : ascii -> bool) (a : ascii)
    (bef rest : string) (caps : captures) (k : cont) :
  run ml (Cls p) (Cursor bef (String a rest)) caps k
  = if p a then k (Cursor (String a bef) rest) caps else None.
Proof. reflexivity. Qed.

Lemma run_grp (ml : bool) (i : nat) (r : regex) (c : cursor)
    (caps : captures) (k : cont) :
  run ml (Grp i r) c caps k
  = run ml r c caps (fun c' caps' => k c' ((i, consumed c c') :: caps')).
Proof. reflexivity. Qed.

Lemma run_alt (ml : bool) (r1 r2 : regex) (c : cursor) (caps : captures)
    (k : cont) :
  run ml (Alt r1 r2) c caps k
  = match run ml r1 c caps k with
    | Some res => Some res
    | None => run ml r2 c caps k
    end.
Proof. reflexivity. Qed.

Lemma run_eol (bef aft : string) (caps : captures) (k : cont) :
  run false Eol (Cursor bef aft) caps k
  = match aft with
    | EmptyString => k (Cursor bef aft) caps
    | _ => None
    end.
Proof. destruct aft; reflexivity. Qed.

Lemma star_loop_cls (ml : bool) (p : ascii -> bool) (k : cont) :
  needs_stop p k ->
  forall (s bef : string) (caps : captures) (fuel : nat),
    String.length s <= fuel ->
    star_loop fuel (run ml (Cls p)) (Cursor bef s) caps k
    = k (Cursor (Str.rev_append (fst (span p s)) bef) (snd (span p s))) caps.
Proof.
  intros Hk s. induction s as [|a s IH]; intros bef caps fuel Hfuel.
  - destruct fuel; reflexivity.
  - destruct fuel as [|fuel]; [simpl in Hfuel; lia|].
    cbn [star_loop run after before span].
    destruct (p a) eqn:Hp.
    + assert (Hlt : (String.length s <? String.length (String a s))%nat = true)
        by (apply Nat.ltb_lt; simpl; lia).
      rewrite Hlt, IH by (simpl in Hfuel; lia).
      destruct (span p s) as [u v]; cbn [fst snd Str.rev_append].
      destruct (k (Cursor (Str.rev_append u (String a bef)) v) caps)
        eqn:E; [reflexivity|].
      apply Hk. exact Hp.
    + reflexivity.
Qed.

Lemma run_star_cls (ml : bool) (p : ascii -> bool) (k : cont)
    (s bef : string) (caps : captures) :
  needs_stop p k ->
  run ml (Star (Cls p)) (Cursor bef s) caps k
  = k (Cursor (Str.rev_append (fst (span p s)) bef) (snd (span p s))) caps.
Proof.
  intros Hk.
  change (run ml (Star (Cls p)) (Cursor bef s) caps k)
    with (star_loop (String.length s) (run ml (Cls p))
            (Cursor bef s) caps k).
  now apply star_loop_cls.
Qed.

Lemma run_plus_cls (ml : bool) (p : ascii -> bool) (k : cont)
    (s bef : string) (caps : captures) :
  needs_stop p k ->
  run ml (Plus (Cls p)) (Cursor bef s) caps k
  = match fst (span p s) with
    | EmptyString => None
    | _ => k (Cursor (Str.rev_append (fst (span p s)) bef)
                (snd (span p s))) caps
    end.
Proof.
  intros Hk. unfold Plus. rewrite run_seq.
  destruct s as [|a s]; [reflexivity|].
  rewrite run_cls_cons. cbn [span].
  destruct (p a) eqn:Hp; [|reflexivity].
  rewrite run_star_cls by assumption.
  destruct (span p s) as [u v]; reflexivity.
Qed.

(** Continuations that need a stop. *)
Lemma needs_stop_chr (ml : bool) (p : ascii -> bool) (x : ascii)
    (r : regex) (k : cont) :
  p x = false ->
  needs_stop p (fun c caps => run ml (Seq (Chr x) r) c caps k).
Proof.
  intros Hx bef a rest caps Hp. cbn.
  destruct (Ascii.eqb_spec x a) as [->|]; [congruence | reflexivity].
Qed.

Lemma needs_stop_eol (p : ascii -> bool) (k : cont) :
  needs_stop p (fun c caps => run false Eol c caps k).
Proof. intros bef a rest caps _. reflexivity. Qed.

(** A literal is read when it is a prefix of what is left. *)
Lemma run_lit (ml : bool) (w rest bef : string) (caps : captures)
    (k : cont) :
  run ml (Lit w) (Cursor bef (w ++ rest)) caps k
  = k (Cursor (Str.rev_append w bef) rest) caps.
Proof.
  revert bef. induction w as [|a w IH]; intros bef; [reflexivity|].
  cbn. rewrite Ascii.eqb_refl. apply IH.
Qed.

Lemma run_lit_fail (ml : bool) (w aft bef : string) (caps : captures)
    (k : cont) :
  String.prefix w aft = false ->
  run ml (Lit w) (Cursor bef aft) caps k = None.
Proof.
  revert aft bef. induction w as [|a w IH]; intros aft bef H.
  - destruct aft; discriminate.
  - destruct aft as [|b aft]; [reflexivity|]. cbn in *.
    destruct (ascii_dec a b) as [->|n].
    + rewrite Ascii.eqb_refl. now apply IH.
    + now rewrite (proj2 (Ascii.eqb_neq a b) n).
Qed.

(** A pattern anchored by [^] (no [m] flag) matches at the start of
    the input or nowhere. *)
Lemma search_bol_later (r : regex) (a : ascii) (bef aft : string) :
  search false (Seq Bol r) (String a bef) aft = None.
Proof.
  revert a bef. induction aft as [|b aft IH]; intros a bef.
  - reflexivity.
  - cbn. apply IH.
Qed.

Lemma exec_bol (r : regex) (s : string) :
  exec false (Seq Bol r) s
  = match run false r (Cursor "" s) [] accept with
    | Some (c', caps) => Some (Result (Cursor "" s) c' caps)
    | None => None
    end.
Proof.
  unfold exec. destruct s as [|a s]; cbn.
  - destruct (run false r (Cursor "" "") [] accept) as [[c' caps]|];
      reflexivity.
  - destruct (run false r (Cursor "" (String a s)) [] accept)
      as [[c' caps]|]; [reflexivity|]. apply search_bol_later.
Qed.

Lemma run_chr_cons (ml : bool) (x a : ascii) (bef rest : string)
    (caps : captures) (k : cont) :
  run ml (Chr x) (Cursor bef (String a rest)) caps k
  = if Ascii.eqb x a then k (Cursor (String a bef) rest) caps else None.
Proof. reflexivity. Qed.

Lemma run_star (ml : bool) (r : regex) (c : cursor) (caps : captures)
    (k : cont) :
  run ml (Star r) c caps k
  = star_loop (String.length (after c)) (run ml r) c caps k.
Proof. reflexivity. Qed.

Lemma run_eps (ml : bool) (c : cursor) (caps : captures) (k : cont) :
  run ml Eps c caps k = k c caps.
Proof. reflexivity. Qed.

Lemma needs_stop_chr1 (ml : bool) (p : ascii -> bool) (x : ascii)
    (k : cont) :
  p x = false ->
  needs_stop p (fun c caps => run ml (Chr x) c caps k).
Proof.
  intros Hx bef a rest caps Hp. rewrite run_chr_cons.
  destruct (Ascii.eqb_spec x a) as [->|]; [congruence | reflexivity].
Qed.

(** A group around [p+], followed by something that cannot begin with
    a character of [p]: the group takes the longest run of [p]. *)
Lemma run_grp_plus_cls (ml : bool) (i : nat) (p : ascii -> bool) (k : cont)
    (s bef : string) (caps : captures) :
  needs_stop p k ->
  run ml (Grp i (Plus (Cls p))) (Cursor bef s) caps k
  = match fst (span p s) with
    | EmptyString => None
    | u => k (Cursor (Str.rev_append u bef) (snd (span p s)))
             ((i, u) :: caps)
    end.
Proof.
  intros Hk. rewrite run_grp, run_plus_cls.
  - destruct (span_spec p s) as (Hs & _ & _).
    destruct (span p s) as [u v]; cbn [fst snd] in *.
    destruct u as [|a u]; [reflexivity|].
    rewrite Hs at 1. now rewrite consumed_app.
  - intros b a rest caps' Hp. now apply Hk.
Qed.

(** A template without [$] is copied as it is. *)
Lemma substitution_plain (t matched pre post : string) :
  Str.includes t "$" = false ->
  RegExp.substitution t matched pre post = t.
Proof.
  intros H. apply includes_char in H.
  induction t as [|a t IH]; [reflexivity|].
  cbn [Str.forallb] in H. apply andb_prop in H as [Ha Ht].
  specialize (IH Ht).
  destruct (Ascii.eqb_spec "$" a) as [<-|Hne]; [discriminate|].
  cbn [RegExp.substitution].
  destruct a as [[] [] [] [] [] [] [] []];
    try (rewrite IH; reflexivity).
  now elim Hne.
Qed.

(** ** The replacement loop *)

(** A match found from a position starts at or after it. *)
Lemma search_start (ml : bool) (r : regex) (aft bef : string)
    (m : result) :
  search ml r bef aft = Some m ->
  String.length (after (m_start m)) <= String.length aft.
Proof.
  revert bef. induction aft as [|a aft IH]; intros bef; cbn [search].
  - destruct (run ml r (Cursor bef "") [] accept) as [[c' caps]|];
      [|discriminate].
    intros [= <-]. reflexivity.
  - destruct (run ml r (Cursor bef (String a aft)) [] accept)
      as [[c' caps]|].
    + intros [= <-]. reflexivity.
    + intros H. apply IH in H. simpl. lia.
Qed.

(** No match where the loop stands: the character there is copied. *)
Lemma replace_loop_skip (ml : bool) (r : regex) (template : string)
    (fuel : nat) (a : ascii) (bef rest : string) :
  run ml r (Cursor bef (String a rest)) [] accept = None ->
  replace_loop (S fuel) ml r template bef (String a rest)
  = String a (replace_loop (S fuel) ml r template (String a bef) rest).
Proof.
  intros Hrun. cbn [replace_loop search]. rewrite Hrun.
  destruct (search ml r (String a bef) rest) as [m|] eqn:Hs;
    [|reflexivity].
  pose proof (search_start _ _ _ _ _ Hs) as Hlen.
  assert (Hsk : consumed (Cursor bef (String a rest)) (m_start m)
                = String a (consumed (Cursor (String a bef) rest)
                              (m_start m))).
  { unfold consumed. cbn [after String.length].
    rewrite Nat.sub_succ_l by exact Hlen. reflexivity. }
  rewrite Hsk.
  destruct (consumed (m_start m) (m_end m));
    destruct (after (m_end m)); reflexivity.
Qed.

(** A match of at least one character where the loop stands. *)
Lemma replace_loop_hit (ml : bool) (r : regex) (template : string)
    (fuel : nat) (bef aft : string) (c' : cursor) (caps : captures)
    (a : ascii) (w : string) :
  run ml r (Cursor bef aft) [] accept = Some (c', caps) ->
  consumed (Cursor bef aft) c' = String a w ->
  replace_loop (S fuel) ml r template bef aft
  = expand template (Result (Cursor bef aft) c' caps)
    ++ replace_loop fuel ml r template (before c') (after c').
Proof.
  intros Hrun Hc. cbn [replace_loop].
  assert (Hs : search ml r bef aft
               = Some (Result (Cursor bef aft) c' caps)).
  { destruct aft; cbn [search]; now rewrite Hrun. }
  rewrite Hs. cbn [m_start m_end]. rewrite Hc, consumed_same.
  reflexivity.
Qed.

Lemma replace_loop_nil (ml : bool) (r : regex) (template : string)
    (fuel : nat) (bef : string) :
  run ml r (Cursor bef "") [] accept = None ->
  replace_loop fuel ml r template bef "" = "".
Proof.
  intros Hrun. destruct fuel; [reflexivity|].
  cbn [replace_loop search]. now rewrite Hrun.
Qed.

(** Replacing every character of a class by one character. *)
Lemma replace_loop_cls (ml : bool) (p : ascii -> bool) (x : ascii) :
  forall (s bef : string) (fuel : nat),
    String.length s < fuel ->
    replace_loop fuel ml (Cls p) (String x "") bef s
    = Str.map (fun c => if p c then x else c) s.
Proof.
  intros s. induction s as [|a s IH]; intros bef fuel Hfuel.
  - now apply replace_loop_nil.
  - destruct fuel as [|fuel]; [lia|]. simpl in Hfuel.
    cbn [Str.map]. destruct (p a) eqn:Hp.
    + rewrite (replace_loop_hit ml (Cls p) _ fuel bef (String a s)
                 (Cursor (String a bef) s) [] a "").
      * cbn [before after]. rewrite IH by lia.
        unfold expand. cbn [m_start m_end substitution].
        destruct x as [[] [] [] [] [] [] [] []]; reflexivity.
      * rewrite run_cls_cons, Hp. reflexivity.
      * change (String a s) with (String a "" ++ s).
        apply consumed_app.
    + rewrite replace_loop_skip by (rewrite run_cls_cons, Hp; reflexivity).
      rewrite IH by lia. reflexivity.
Qed.

Lemma replaceAll_cls (ml : bool) (p : ascii -> bool) (x : ascii)
    (s : string) :
  replaceAll ml (Cls p) (String x "") s
  = Str.map (fun c => if p c then x else c) s.
Proof. unfold replaceAll. apply replace_loop_cls. lia. Qed.

End RegexFacts.

(* ------------------------------------------------------------------ *)
(** * Facts about ports *)
(* ------------------------------------------------------------------ *)

Module PortFacts.
Import StrFacts.

Lemma digit_prefix_stop (c : ascii) (r : string) :
  Str.is_digit c = false ->
  Num.digit_prefix (String c r) = (Decimal.Nil, String c r).
Proof.
  intros H. cbn [Num.digit_prefix]. destruct (Num.digit_prefix r) as [d t].
  destruct c as [[] [] [] [] [] [] [] []]; try discriminate H; reflexivity.
Qed.

Lemma digit_prefix_numeral (d : Decimal.uint) (rest : string) :
  RegExp.stops Str.is_digit rest = true ->
  Num.digit_prefix (NilEmpty.string_of_uint d ++ rest) = (d, rest).
Proof.
  intros Hrest.
  induction d as [|d IH|d IH|d IH|d IH|d IH|d IH|d IH|d IH|d IH|d IH];
    cbn [NilEmpty.string_of_uint append];
    try (cbn [Num.digit_prefix]; rewrite IH; reflexivity).
  destruct rest as [|c r]; [reflexivity|].
  apply digit_prefix_stop. now apply negb_true_iff.
Qed.

(** The numeral of a natural number is not empty and begins with a
    digit. *)
Lemma digits_head (n : N) :
  exists c t, Num.digits n = String c t /\ Str.is_digit c = true.
Proof.
  unfold Num.digits, NilZero.string_of_uint.
  destruct (N.to_uint n) eqn:E; cbn; eauto.
Qed.

Lemma digits_numeral (n : N) :
  Num.digits n = NilEmpty.string_of_uint (N.to_uint n)
  /\ N.to_uint n <> Decimal.Nil.
Proof.
  unfold Num.digits, NilZero.string_of_uint.
  destruct n as [|p]; [split; [reflexivity | discriminate]|].
  pose proof (DecimalPos.Unsigned.to_uint_nonnil p) as Hp.
  cbn [N.to_uint]. destruct (Pos.to_uint p); [now elim Hp | ..];
    (split; [reflexivity | discriminate]).
Qed.

Lemma parseInt10_unsigned (neg : bool) (n : N) (rest : string) :
  RegExp.stops Str.is_digit rest = true ->
  match fst (Num.digit_prefix (Num.digits n ++ rest)) with
  | Decimal.Nil => NaN
  | d => Num.of_Z (if neg then - Z.of_N (N.of_uint d)
                   else Z.of_N (N.of_uint d))
  end
  = Num.of_Z (if neg then - Z.of_N n else Z.of_N n).
Proof.
  intros Hrest. destruct (digits_numeral n) as [-> Hnil].
  rewrite digit_prefix_numeral by assumption. cbn [fst].
  pose proof (DecimalN.Unsigned.of_to n) as Hof.
  destruct (N.to_uint n); [now elim Hnil | ..]; now rewrite Hof.
Qed.

Lemma parseInt10_digits (n : N) (rest : string) :
  RegExp.stops Str.is_digit rest = true ->
  Num.parseInt10 (Num.digits n ++ rest) = Num.of_Z (Z.of_N n).
Proof.
  intros Hrest. unfold Num.parseInt10, Str.trimStart.
  pose proof (parseInt10_unsigned false n rest Hrest) as H.
  destruct (digits_head n) as (c & t & E & Hc).
  rewrite E in *. cbn [append Str.drop_while].
  assert (Hs : Str.is_space c = false)
    by (destruct c as [[] [] [] [] [] [] [] []];
        try discriminate Hc; reflexivity).
  rewrite Hs.
  assert (Hm : c <> "-"%char /\ c <> "+"%char)
    by (split; intros ->; discriminate Hc).
  destruct Hm as [Hm Hp].
  replace (match String c (t ++ rest) with
           | String "-"%char u => (true, u)
           | String "+"%char u => (false, u)
           | _ => (false, String c (t ++ rest))
           end) with (false, String c (t ++ rest)).
  - exact H.
  - destruct c as [[] [] [] [] [] [] [] []]; try reflexivity;
      [now elim Hp | now elim Hm].
Qed.

(** [parseInt] reads back the decimal notation of an integer, whatever
    follows it. *)
Lemma parseInt10_Z_toString (z : Z) (rest : string) :
  RegExp.stops Str.is_digit rest = true ->
  Num.parseInt10 (Num.Z_toString z ++ rest) = Num.of_Z z.
Proof.
  intros Hrest. destruct z as [|p|p].
  - apply (parseInt10_digits 0 rest Hrest).
  - apply (parseInt10_digits (Npos p) rest Hrest).
  - pose proof (parseInt10_unsigned true (Npos p) rest Hrest) as H.
    unfold Num.parseInt10, Num.Z_toString, Str.trimStart.
    cbn [append Str.drop_while]. exact H.
Qed.

Lemma isValidPort_of_Z (z : Z) :
  isValidPort (IsNumber (Num.of_Z z)) = ((0 <? z)%Z && (z <=? 65535)%Z).
Proof.
  unfold isValidPort, Num.of_Z, Num.gtb, Num.ltb, Num.leb, Num.Qltb,
    Qle_bool, inject_Z. cbn [Num.isNaN negb andb Qnum Qden].
  rewrite !Z.mul_1_r. f_equal.
  rewrite Z.ltb_antisym. reflexivity.
Qed.

End PortFacts.

(* ------------------------------------------------------------------ *)
(** * Facts about connection identifiers *)
(* ------------------------------------------------------------------ *)

Module ConnectionIdFacts.
Import StrFacts RegexFacts.

Lemma not_self (x : ascii) : negb (Ascii.eqb x x) = false.
Proof. now rewrite Ascii.eqb_refl. Qed.

(** What the pattern of [parseConnectionId] accepts, and the groups it
    returns: the text up to the first [@], the text from there up to
    the next [:], and digits up to the end. *)
Lemma exec_connection_id (s : string) :
  exec false re_connection_id s
  = let at_ := fun x => negb (Ascii.eqb "@" x) in
    let colon := fun x => negb (Ascii.eqb ":" x) in
    match fst (span at_ s), snd (span at_ s) with
    | String _ _ as u, String a v1 =>
        if Ascii.eqb "@" a then
          match fst (span colon v1), snd (span colon v1) with
          | String _ _ as h, String b v3 =>
              if Ascii.eqb ":" b then
                match fst (span Str.is_digit v3),
                      snd (span Str.is_digit v3) with
                | String _ _ as d, EmptyString =>
                    Some (Result (Cursor "" s)
                            (Cursor
                               (Str.rev_append d
                                  (String b
                                     (Str.rev_append h
                                        (String a (Str.rev_append u "")))))
                               "")
                            [(3, d); (2, h); (1, u)])
                | _, _ => None
                end
              else None
          | _, _ => None
          end
        else None
    | _, _ => None
    end.
Proof.
  unfold re_connection_id, Not. rewrite exec_bol.
  rewrite run_seq, run_grp_plus_cls
    by (apply needs_stop_chr, not_self).
  cbv zeta.
  destruct (span (fun x => negb (Ascii.eqb "@" x)) s) as [u v].
  cbn [fst snd]. destruct u as [|u0 u]; [reflexivity|].
  rewrite run_seq.
  destruct v as [|a v1]; [reflexivity|]. rewrite run_chr_cons.
  destruct (Ascii.eqb "@" a); [|reflexivity].
  rewrite run_seq, run_grp_plus_cls
    by (apply needs_stop_chr, not_self).
  destruct (span (fun x => negb (Ascii.eqb ":" x)) v1) as [h v2].
  cbn [fst snd]. destruct h as [|h0 h]; [reflexivity|].
  rewrite run_seq.
  destruct v2 as [|b v3]; [reflexivity|]. rewrite run_chr_cons.
  destruct (Ascii.eqb ":" b); [|reflexivity].
  rewrite run_seq, run_grp_plus_cls by apply needs_stop_eol.
  destruct (span Str.is_digit v3) as [d v4].
  cbn [fst snd]. destruct d as [|d0 d]; [reflexivity|].
  rewrite run_eol. destruct v4; reflexivity.
Qed.

Lemma forallb_digits (n : N) : Str.forallb Str.is_digit (Num.digits n) = true.
Proof.
  destruct (PortFacts.digits_numeral n) as [-> _].
  induction (N.to_uint n); cbn; auto.
Qed.

End ConnectionIdFacts.

(* ------------------------------------------------------------------ *)
(** * Facts about paths and identity files *)
(* ------------------------------------------------------------------ *)

Module PathFacts.
Import StrFacts.

(** A slash closes the segment being read. *)
Lemma segments_from_slash (a b cur : string) :
  Path.segments_from cur (a ++ String "/" b)
  = (Path.segments_from cur a ++ Path.segments b)%list.
Proof.
  revert cur. induction a as [|c a IH]; intros cur; cbn.
  - reflexivity.
  - destruct (Ascii.eqb c "/"); [cbn; f_equal|]; apply IH.
Qed.

Lemma segments_slash (a b : string) :
  Path.segments (a ++ String "/" b)
  = (Path.segments a ++ Path.segments b)%list.
Proof. apply segments_from_slash. Qed.

(** Every segment is a piece of the path. *)
Lemma segments_from_sub (s cur seg : string) :
  List.In seg (Path.segments_from cur s) ->
  exists pre post, cur ++ s = pre ++ seg ++ post.
Proof.
  revert cur. induction s as [|c s IH]; intros cur; cbn.
  - intros [<-|[]]. exists "", "". now rewrite !append_nil_r.
  - destruct (Ascii.eqb c "/").
    + intros [<-|H].
      * exists "", (String c s). reflexivity.
      * destruct (IH _ H) as (pre & post & E). cbn in E.
        exists (cur ++ String c pre), post.
        rewrite append_assoc. cbn. now rewrite E.
    + intros H. destruct (IH _ H) as (pre & post & E).
      exists pre, post. rewrite <- E, append_assoc. reflexivity.
Qed.

Lemma segments_no_dotdot (s seg : string) :
  Str.includes s ".." = false ->
  List.In seg (Path.segments s) -> seg <> "..".
Proof.
  intros Hs Hin ->. destruct (segments_from_sub _ _ _ Hin) as (pre & post & E).
  cbn [append] in E. rewrite E in Hs.
  rewrite includes_append in Hs; [discriminate|].
  apply includes_prefix. apply (prefix_append ".." post).
Qed.

Lemma fold_step_plain (allow : bool) (segs stack : list string) :
  (forall seg, List.In seg segs -> seg <> "..") ->
  List.fold_left (Path.step allow) segs stack
  = (List.rev (List.filter Path.kept segs) ++ stack)%list.
Proof.
  revert stack. induction segs as [|seg segs IH]; intros stack H.
  - reflexivity.
  - cbn [List.fold_left List.filter]. rewrite IH
      by (intros x Hx; apply H; now right).
    assert (Hseg : seg <> "..") by (apply H; now left).
    unfold Path.step, Path.kept.
    destruct (String.eqb seg ""); [reflexivity|].
    destruct (String.eqb seg "."); [reflexivity|].
    rewrite (proj2 (String.eqb_neq seg "..") Hseg).
    cbn [negb andb List.rev]. now rewrite <- List.app_assoc.
Qed.

Lemma join_snoc (l : list string) (x : string) :
  Str.join "/" (l ++ [x]) = Path.dirs l ++ x.
Proof.
  unfold Str.join. induction l as [|y l IH]; [reflexivity|].
  cbn [List.app String.concat Path.dirs].
  destruct (l ++ [x])%list eqn:E; [now destruct l|].
  rewrite IH, !append_assoc. reflexivity.
Qed.

Lemma join_cons (l : list string) (x y : string) (t : list string) :
  Str.join "/" (l ++ x :: y :: t)
  = Path.dirs l ++ x ++ "/" ++ Str.join "/" (y :: t).
Proof.
  unfold Str.join. induction l as [|z l IH]; [reflexivity|].
  cbn [List.app String.concat Path.dirs].
  destruct (l ++ x :: y :: t)%list eqn:E; [now destruct l|].
  rewrite IH, !append_assoc. reflexivity.
Qed.

End PathFacts.

Module IdentityFacts.
Import StrFacts RegexFacts PathFacts.

(** The character check of [isValidIdentityFile]. *)
Lemma test_identity (s : string) :
  RegExp.test false re_identity s
  = match s with
    | String c t => chars "~/" c && Str.forallb (alnum_or "._/-") t
    | EmptyString => false
    end.
Proof.
  unfold RegExp.test, re_identity. rewrite exec_bol, run_seq.
  destruct s as [|c t]; [reflexivity|].
  rewrite run_cls_cons. destruct (chars "~/" c); [|reflexivity].
  rewrite run_seq, run_star_cls by apply needs_stop_eol.
  destruct (span_spec (alnum_or "._/-") t) as (Ht & Hu & Hv).
  destruct (span (alnum_or "._/-") t) as [u v]. cbn [fst snd andb] in *.
  rewrite run_eol. destruct v as [|b v].
  - rewrite append_nil_r in Ht. subst t. now rewrite Hu.
  - subst t. rewrite forallb_append. cbn [Str.forallb RegExp.stops] in *.
    apply negb_true_iff in Hv. now rewrite Hv, andb_false_r.
Qed.

(** [~] at the start is replaced by the home directory. *)
Lemma expand_home (homedir rest : string) :
  Str.includes homedir "$" = false ->
  RegExp.replace false (Seq Bol (Chr "~")) homedir (String "~" rest)
  = homedir ++ rest.
Proof.
  intros H. unfold RegExp.replace. rewrite exec_bol.
  rewrite run_chr_cons. cbn [Ascii.eqb Bool.eqb accept].
  unfold RegExp.expand. cbn [m_start m_end before after].
  rewrite substitution_plain by exact H. reflexivity.
Qed.

End IdentityFacts.

Module IdentityProof.
Import StrFacts RegexFacts PathFacts IdentityFacts.

Lemma step_empty (allow : bool) (stack : list string) :
  Path.step allow stack "" = stack.
Proof. reflexivity. Qed.

Lemma normalize_ssh_dir (homedir : string) :
  Path.normalizeString (homedir ++ "/.ssh") false
  = Path.dirs (List.rev (Path.home_stack homedir)) ++ ".ssh".
Proof.
  unfold Path.normalizeString.
  change (homedir ++ "/.ssh") with (homedir ++ String "/" ".ssh").
  rewrite segments_slash, List.fold_left_app.
  fold (Path.home_stack homedir).
  change (Path.segments ".ssh") with [".ssh"].
  cbn [List.fold_left].
  change (Path.step false (Path.home_stack homedir) ".ssh")
    with (".ssh" :: Path.home_stack homedir).
  cbn [List.rev]. apply join_snoc.
Qed.

Lemma normalize_in_ssh_dir (homedir name : string) :
  Str.includes name ".." = false ->
  exists tail,
    Path.normalizeString (homedir ++ "/.ssh/" ++ name ++ "/") false
    = Path.dirs (List.rev (Path.home_stack homedir)) ++ ".ssh" ++ tail
    /\ (tail = "" \/ exists t, tail = "/" ++ t).
Proof.
  intros Hname. unfold Path.normalizeString.
  change (homedir ++ "/.ssh/" ++ name ++ "/")
    with (homedir ++ String "/" (".ssh" ++ String "/" (name ++ String "/" ""))).
  rewrite !segments_slash, !List.fold_left_app.
  fold (Path.home_stack homedir).
  change (Path.segments ".ssh") with [".ssh"].
  change (Path.segments "") with [""].
  cbn [List.fold_left].
  change (Path.step false (Path.home_stack homedir) ".ssh")
    with (".ssh" :: Path.home_stack homedir).
  rewrite fold_step_plain by (intros seg; now apply segments_no_dotdot).
  rewrite step_empty.
  rewrite List.rev_app_distr, List.rev_involutive. cbn [List.rev].
  rewrite <- List.app_assoc. cbn [List.app].
  destruct (List.filter Path.kept (Path.segments name)) as [|y t].
  - exists "". rewrite join_snoc, append_nil_r. auto.
  - exists ("/" ++ Str.join "/" (y :: t)). rewrite join_cons. eauto.
Qed.

Lemma absolute_cons (p : string) :
  Path.isAbsolute p = true -> exists t, p = String "/" t.
Proof.
  unfold Path.isAbsolute, Str.startsWith. intros H.
  destruct (prefix_inv _ _ H) as [t ->]. now exists t.
Qed.

Lemma resolve_absolute (cwd p : string) :
  Path.isAbsolute p = true ->
  Path.resolve cwd p = "/" ++ Path.normalizeString (p ++ "/") false.
Proof.
  intros H. destruct (absolute_cons p H) as [t ->].
  unfold Path.resolve. rewrite H. reflexivity.
Qed.

Lemma join_ssh_dir (homedir : string) :
  Path.isAbsolute homedir = true ->
  Path.join [homedir; ".ssh"]
  = "/" ++ Path.dirs (List.rev (Path.home_stack homedir)) ++ ".ssh".
Proof.
  intros H. destruct (absolute_cons homedir H) as [t Ht].
  unfold Path.join.
  assert (Hf : List.filter Str.truthy [homedir; ".ssh"] = [homedir; ".ssh"])
    by (rewrite Ht; reflexivity).
  rewrite Hf.
  change (Str.join "/" [homedir; ".ssh"]) with (homedir ++ "/.ssh").
  unfold Path.normalize.
  assert (Habs : Path.isAbsolute (homedir ++ "/.ssh") = true)
    by (rewrite Ht; apply (prefix_append "/")).
  assert (Htr : Path.endsWithSlash (homedir ++ "/.ssh") = false).
  { unfold Path.endsWithSlash. rewrite rev_app. reflexivity. }
  rewrite Habs, Htr, normalize_ssh_dir.
  rewrite Ht at 1. cbn [append negb].
  destruct (Path.dirs (List.rev (Path.home_stack homedir))); reflexivity.
Qed.

Lemma includes_ssh_name (name : string) :
  Str.includes ("~/.ssh/" ++ name) ".." = Str.includes name "..".
Proof. reflexivity. Qed.

End IdentityProof.

(* ------------------------------------------------------------------ *)
(** * Facts about the entry in the SSH configuration *)
(* ------------------------------------------------------------------ *)

Module ConfigFacts.
Import StrFacts RegexFacts.

Lemma alias_map (info : SSHConnectionInfo) :
  generateSSHConfigAlias info
  = "SSHarbor_" ++ Str.map Spec.clean (fleetName info)
    ++ "_" ++ Str.map Spec.clean (name info).
Proof.
  assert (H : forall s, RegExp.replaceAll false re_not_alnum "_" s
                        = Str.map Spec.clean s).
  { intros s. unfold re_not_alnum. rewrite replaceAll_cls.
    unfold Spec.clean. induction s as [|c s IH]; simpl; [reflexivity|].
    rewrite IH. destruct (Str.is_alnum c); reflexivity. }
  unfold generateSSHConfigAlias. now rewrite !H.
Qed.

Lemma newEntry_lines (fts : Q -> string) (info : SSHConnectionInfo) :
  newEntry fts info
  = "Host " ++ generateSSHConfigAlias info ++ Str.nl
    ++ Spec.indented (Spec.body_lines fts info).
Proof.
  unfold newEntry, Spec.body_lines, push.
  destruct (nonstandard_port info);
    (destruct (identityFile info) as [f|]; [destruct (Str.truthy f)|]);
    reflexivity.
Qed.

Lemma run_line (ml : bool) (b rest bef : string) (caps : captures)
    (k : cont) :
  Str.truthy b = true -> Spec.no_LF b = true ->
  run ml line_re (Cursor bef ("  " ++ b ++ Str.nl ++ rest)) caps k
  = k (Cursor (Str.rev_append ("  " ++ b ++ Str.nl) bef) rest) caps.
Proof.
  intros Hb Hlf. unfold line_re, Not.
  rewrite run_seq, (run_lit ml "  "), run_seq.
  rewrite run_plus_cls
    by (apply needs_stop_chr1; now rewrite Ascii.eqb_refl).
  rewrite (span_app _ b (Str.nl ++ rest)) by (exact Hlf || reflexivity).
  cbn [fst snd]. destruct b as [|b0 b]; [discriminate|].
  unfold Str.nl at 1. cbn [append]. rewrite run_chr_cons.
  rewrite Ascii.eqb_refl. cbn [Str.rev_append].
  rewrite rev_append_append. reflexivity.
Qed.

Lemma run_line_fail (ml : bool) (aft bef : string) (caps : captures)
    (k : cont) :
  Str.startsWith aft "  " = false ->
  run ml line_re (Cursor bef aft) caps k = None.
Proof.
  intros H. unfold line_re. rewrite run_seq. now apply run_lit_fail.
Qed.

(** The star of the removal pattern reads the indented lines of an
    entry and stops where the text goes on otherwise. *)
Lemma star_lines (ml : bool) (rest : string) (k : cont) :
  Str.startsWith rest "  " = false ->
  forall (bodies : list string) (bef : string) (caps : captures)
         (fuel : nat),
    List.forallb (fun b => Str.truthy b && Spec.no_LF b) bodies = true ->
    String.length (Spec.indented bodies ++ rest) <= fuel ->
    (forall res, k (Cursor (Str.rev_append (Spec.indented bodies) bef) rest)
                   caps = Some res ->
     star_loop fuel (run ml line_re)
       (Cursor bef (Spec.indented bodies ++ rest)) caps k = Some res).
Proof.
  intros Hrest bodies.
  induction bodies as [|b bodies IH]; intros bef caps fuel Hb Hfuel res Hk.
  - cbn [Spec.indented append Str.rev_append] in *.
    destruct fuel as [|fuel]; [exact Hk|].
    cbn [star_loop]. rewrite run_line_fail by exact Hrest. exact Hk.
  - cbn [List.forallb] in Hb. apply andb_prop in Hb as [Hb Hbs].
    apply andb_prop in Hb as [Hb1 Hb2].
    cbn [Spec.indented] in *.
    assert (Hshape : ("  " ++ b ++ Str.nl ++ Spec.indented bodies) ++ rest
                     = "  " ++ b ++ Str.nl ++ Spec.indented bodies ++ rest).
    { cbn [append]. now rewrite !append_assoc. }
    rewrite Hshape in *.
    destruct fuel as [|fuel]; [cbn in Hfuel; lia|].
    cbn [star_loop]. rewrite run_line by assumption.
    cbn [after].
    assert (Hlt : (String.length (Spec.indented bodies ++ rest)
                   <? String.length
                      ("  " ++ b ++ Str.nl ++ Spec.indented bodies ++ rest))%nat
                  = true).
    { apply Nat.ltb_lt. cbn [append String.length].
      rewrite !length_append. cbn. lia. }
    rewrite Hlt.
    erewrite IH; [reflexivity | exact Hbs | |].
    + cbn [append String.length] in Hfuel.
      rewrite !length_append in Hfuel. rewrite length_append.
      cbn in Hfuel. lia.
    + rewrite <- Hk. f_equal. f_equal.
      rewrite <- rev_append_append. f_equal.
      cbn [append]. now rewrite !append_assoc.
Qed.

(** The removal pattern on an entry: the line feed before it, its
    [Host] line and its indented lines. *)
Lemma run_remove_hit (alias rest bef : string) (bodies : list string) :
  Str.startsWith rest "  " = false ->
  List.forallb (fun b => Str.truthy b && Spec.no_LF b) bodies = true ->
  run false (removeRegex alias)
    (Cursor bef (Str.nl ++ ("Host " ++ alias) ++ Str.nl
                 ++ Spec.indented bodies ++ rest)) [] accept
  = Some (Cursor
            (Str.rev_append
               (Str.nl ++ ("Host " ++ alias) ++ Str.nl
                ++ Spec.indented bodies) bef) rest, []).
Proof.
  intros Hrest Hb. unfold removeRegex, Opt.
  rewrite run_seq, run_alt. unfold Str.nl at 1. cbn [append].
  rewrite run_chr_cons, Ascii.eqb_refl.
  rewrite run_seq.
  change (String "H" (String "o" (String "s" (String "t" (String " "
            (alias ++ Str.nl ++ Spec.indented bodies ++ rest))))))
    with (("Host " ++ alias) ++ Str.nl ++ Spec.indented bodies ++ rest)
    at 1.
  rewrite run_lit, run_seq.
  unfold Str.nl at 1. cbn [append].
  rewrite run_chr_cons, Ascii.eqb_refl.
  rewrite run_star. cbn [after].
  erewrite star_lines; [reflexivity | exact Hrest | exact Hb | lia |].
  unfold accept. f_equal. f_equal. f_equal.
  unfold Str.nl. cbn [append Str.rev_append].
  rewrite !rev_append_append. reflexivity.
Qed.

(** The removal pattern fails where the [Host] line of the alias does
    not begin, with or without a line feed before it. *)
Lemma run_remove_fail (alias aft bef : string) :
  Str.startsWith aft ("Host " ++ alias) = false ->
  Str.startsWith aft (Str.nl ++ "Host " ++ alias) = false ->
  run false (removeRegex alias) (Cursor bef aft) [] accept = None.
Proof.
  intros H1 H2. unfold removeRegex, Opt.
  rewrite run_seq, run_alt.
  assert (Hsecond :
    run false Eps (Cursor bef aft) []
      (fun c' caps' =>
         run false
           (Seq (Lit ("Host " ++ alias)) (Seq (Chr Str.LF) (Star line_re)))
           c' caps' accept) = None).
  { rewrite run_eps, run_seq. now apply run_lit_fail. }
  rewrite Hsecond.
  destruct aft as [|a aft]; [reflexivity|].
  rewrite run_chr_cons.
  destruct (Ascii.eqb_spec Str.LF a) as [<-|]; [|reflexivity].
  rewrite run_seq, run_lit_fail; [reflexivity|].
  unfold Str.startsWith, Str.nl in H2. cbn [append String.prefix] in H2.
  destruct (ascii_dec Str.LF Str.LF) as [_|n]; [exact H2 | now elim n].
Qed.

(** Where the pattern fails at every position of [w], the loop copies
    [w]. *)
Lemma replace_loop_copy (ml : bool) (r : regex) (template : string)
    (fuel : nat) (rest : string) :
  forall (w bef : string),
    (forall (w1 w2 : string) (a : ascii),
       w = w1 ++ String a w2 ->
       run ml r (Cursor (Str.rev_append w1 bef) (String a w2 ++ rest))
         [] accept = None) ->
    replace_loop (S fuel) ml r template bef (w ++ rest)
    = w ++ replace_loop (S fuel) ml r template (Str.rev_append w bef) rest.
Proof.
  induction w as [|a w IH]; intros bef H; [reflexivity|].
  cbn [append]. rewrite replace_loop_skip by (apply (H "" w a); reflexivity).
  f_equal. apply IH. intros w1 w2 b ->.
  apply (H (String a w1) w2 b). reflexivity.
Qed.

(** The removal pattern finds nothing in a text where the [Host] line
    of the alias does not occur before a line feed. *)
Lemma remove_copy (alias : string) (fuel : nat) (v : string) :
  Spec.no_LF ("Host " ++ alias) = true ->
  forall (w bef : string),
    Str.absent_in ("Host " ++ alias) w (String Str.LF v) = true ->
    replace_loop (S fuel) false (removeRegex alias) "" bef
      (w ++ String Str.LF v)
    = w ++ replace_loop (S fuel) false (removeRegex alias) ""
             (Str.rev_append w bef) (String Str.LF v).
Proof.
  intros Hlf w bef Habs. apply replace_loop_copy.
  intros w1 w2 a ->. rewrite absent_in_app in Habs.
  apply andb_prop in Habs as [_ Habs].
  pose proof (absent_in_nl _ _ _ Hlf eq_refl Habs) as Habs'.
  cbn [Str.absent_in] in Habs, Habs'.
  apply andb_prop in Habs as [H1 _]. apply andb_prop in Habs' as [H2 _].
  apply run_remove_fail; unfold Str.startsWith.
  - now apply negb_true_iff.
  - now apply negb_true_iff.
Qed.

Lemma remove_none (alias : string) (fuel : nat) :
  forall (w bef : string),
    Str.includes w ("Host " ++ alias) = false ->
    replace_loop fuel false (removeRegex alias) "" bef w = w.
Proof.
  intros w bef H. destruct fuel as [|fuel]; [reflexivity|].
  rewrite <- (append_nil_r w) at 1.
  rewrite replace_loop_copy.
  - rewrite replace_loop_nil, append_nil_r; [reflexivity|].
    apply run_remove_fail; reflexivity.
  - intros w1 w2 a ->. rewrite append_nil_r.
    apply includes_false_split in H as [_ H].
    cbn [Str.includes] in H. apply orb_false_elim in H as [H1 H2].
    apply run_remove_fail; unfold Str.startsWith; [exact H1|].
    unfold Str.nl. cbn [append]. rewrite prefix_cons.
    destruct (Ascii.eqb Str.LF a); [|reflexivity]. cbn [andb].
    destruct w2 as [|b w2].
    + reflexivity.
    + cbn [Str.includes] in H2. now apply orb_false_elim in H2 as [H2 _].
Qed.

(** A match somewhere is a match for the search. *)
Lemma search_some (ml : bool) (r : regex) (rest : string) :
  forall (w bef : string),
    run ml r (Cursor (Str.rev_append w bef) rest) [] accept <> None ->
    search ml r bef (w ++ rest) <> None.
Proof.
  induction w as [|a w IH]; intros bef H.
  - cbn [append Str.rev_append] in *. destruct rest; cbn [search];
      destruct (run ml r _ [] accept) as [[c' caps]|];
      (discriminate || now elim H).
  - cbn [append search].
    destruct (run ml r (Cursor bef (String a (w ++ rest))) [] accept)
      as [[c' caps]|]; [discriminate|].
    now apply IH.
Qed.

Lemma search_none (ml : bool) (r : regex) :
  forall (w bef : string),
    (forall w1 w2, w = w1 ++ w2 ->
       run ml r (Cursor (Str.rev_append w1 bef) w2) [] accept = None) ->
    search ml r bef w = None.
Proof.
  induction w as [|a w IH]; intros bef H; cbn [search].
  - pose proof (H "" "" eq_refl) as H0. cbn [Str.rev_append] in H0.
    now rewrite H0.
  - pose proof (H "" (String a w) eq_refl) as H0.
    cbn [Str.rev_append] in H0. rewrite H0. apply IH.
    intros w1 w2 ->. apply (H (String a w1) w2). reflexivity.
Qed.

(** The test for an existing entry. *)
Lemma test_entry_absent (alias x : string) :
  Str.includes x ("Host " ++ alias) = false ->
  RegExp.test true (entryRegex alias) x = false.
Proof.
  intros H. unfold RegExp.test, exec. rewrite search_none; [reflexivity|].
  intros w1 w2 ->. apply includes_false_split in H as [_ H].
  unfold entryRegex. rewrite run_seq. cbn [run].
  destruct (at_bol true _); [|reflexivity].
  rewrite run_lit_fail; [reflexivity|].
  destruct w2; cbn [Str.includes] in H;
    now apply orb_false_elim in H as [H _].
Qed.

Lemma test_entry_present (alias u v : string) :
  RegExp.test true (entryRegex alias)
    (u ++ Str.nl ++ ("Host " ++ alias) ++ Str.nl ++ v) = true.
Proof.
  unfold RegExp.test, exec.
  destruct (search true (entryRegex alias) ""
              (u ++ Str.nl ++ ("Host " ++ alias) ++ Str.nl ++ v))
    eqn:E; [reflexivity|].
  exfalso. revert E.
  replace (u ++ Str.nl ++ ("Host " ++ alias) ++ Str.nl ++ v)
    with ((u ++ Str.nl) ++ ("Host " ++ alias) ++ Str.nl ++ v)
    by now rewrite append_assoc.
  apply search_some. unfold entryRegex.
  rewrite run_seq, rev_append_append. cbn [run at_bol before Str.rev_append
    Str.nl Str.is_line_terminator].
  change (true && Str.is_line_terminator Str.LF) with true. cbv beta match.
  rewrite run_lit. discriminate.
Qed.

(** [replace] with a string pattern rewrites its first occurrence. *)
Lemma replace_string_first (m t rest : string) :
  Str.includes t "$" = false ->
  forall (w bef : string),
    Str.absent_in m w (m ++ rest) = true ->
    replace_string_from m t bef (w ++ m ++ rest) = w ++ t ++ rest.
Proof.
  intros Ht. induction w as [|a w IH]; intros bef H.
  - cbn [append]. destruct (m ++ rest) eqn:E.
    + destruct m; [|discriminate]. cbn in E. subst rest.
      cbn. rewrite substitution_plain by exact Ht.
      reflexivity.
    + rewrite <- E. unfold replace_string_from.
      destruct (m ++ rest) eqn:E'; [discriminate|]. rewrite <- E'.
      rewrite prefix_append, length_append, Nat.add_comm, Nat.add_sub.
      rewrite substring_skip.
      now rewrite substitution_plain by exact Ht.
  - cbn [Str.absent_in] in H. apply andb_prop in H as [H1 H2].
    apply negb_true_iff in H1. cbn [append] in *.
    cbn [replace_string_from]. rewrite H1. f_equal. now apply IH.
Qed.

Lemma first_occurrence (m : string) :
  forall x : string,
    Str.includes x m = true ->
    exists w rest, x = w ++ m ++ rest
                   /\ Str.absent_in m w (m ++ rest) = true.
Proof.
  induction x as [|a x IH]; cbn [Str.includes]; intros H.
  - rewrite orb_false_r in H. destruct (prefix_inv _ _ H) as [t Ht].
    exists "", t. split; [exact Ht | reflexivity].
  - fold (Str.includes x m) in H.
    destruct (String.prefix m (String a x)) eqn:E.
    + destruct (prefix_inv _ _ E) as [t Ht].
      exists "", t. split; [exact Ht | reflexivity].
    + cbn [orb] in H. destruct (IH H) as (w & rest & -> & Hw).
      exists (String a w), rest. split; [reflexivity|].
      cbn [Str.absent_in]. cbn [append]. now rewrite E, Hw.
Qed.

(** [trimEnd] keeps a prefix of the text. *)
Lemma drop_while_suffix (p : ascii -> bool) (s : string) :
  exists t, s = t ++ Str.drop_while p s.
Proof.
  induction s as [|a s [t IH]]; cbn [Str.drop_while].
  - now exists "".
  - destruct (p a).
    + exists (String a t). cbn. now rewrite <- IH.
    + now exists "".
Qed.

Lemma trimEnd_prefix (x : string) : exists w, x = Str.trimEnd x ++ w.
Proof.
  unfold Str.trimEnd.
  destruct (drop_while_suffix Str.is_space (Str.rev x)) as [t Ht].
  exists (Str.rev t).
  rewrite <- rev_app, <- Ht. symmetry. apply rev_involutive.
Qed.

Lemma forallb_imp (p q : ascii -> bool) (s : string) :
  (forall c, p c = true -> q c = true) ->
  Str.forallb p s = true -> Str.forallb q s = true.
Proof.
  intros Hpq. induction s as [|a s IH]; [reflexivity|].
  cbn [Str.forallb]. intros H. apply andb_prop in H as [H1 H2].
  now rewrite (Hpq _ H1), IH.
Qed.

(** An alias is made of letters, digits and [_]. *)
Lemma alias_word (info : SSHConnectionInfo) :
  Str.forallb Str.is_word (generateSSHConfigAlias info) = true.
Proof.
  assert (H : forall s, Str.forallb Str.is_word (Str.map Spec.clean s) = true).
  { induction s as [|c s IH]; [reflexivity|]. cbn [Str.map Str.forallb].
    rewrite IH, andb_true_r. unfold Spec.clean, Str.is_word.
    destruct (Str.is_alnum c) eqn:E; [now rewrite E | reflexivity]. }
  rewrite alias_map, !forallb_append, !H. reflexivity.
Qed.

Lemma word_plain (c : ascii) :
  Str.is_word c = true ->
  negb (Str.is_line_terminator c) && negb (Ascii.eqb c "$") = true.
Proof.
  destruct c as [[] [] [] [] [] [] [] []]; intros H;
    try discriminate H; reflexivity.
Qed.

Lemma plain_no_LF (c : ascii) :
  negb (Str.is_line_terminator c) && negb (Ascii.eqb c "$") = true ->
  negb (Ascii.eqb Str.LF c) = true.
Proof.
  destruct c as [[] [] [] [] [] [] [] []]; intros H;
    try discriminate H; reflexivity.
Qed.

Lemma plain_no_dollar (c : ascii) :
  negb (Str.is_line_terminator c) && negb (Ascii.eqb c "$") = true ->
  negb (Ascii.eqb "$" c) = true.
Proof.
  destruct c as [[] [] [] [] [] [] [] []]; intros H;
    try discriminate H; reflexivity.
Qed.

Lemma plain_no_terminator (c : ascii) :
  negb (Str.is_line_terminator c) && negb (Ascii.eqb c "$") = true ->
  negb (Str.is_line_terminator c) = true.
Proof. intros H. now apply andb_prop in H as [H _]. Qed.

Lemma plain_append (s t : string) :
  Spec.plain (s ++ t) = Spec.plain s && Spec.plain t.
Proof. apply forallb_append. Qed.

Lemma host_line_plain (info : SSHConnectionInfo) :
  Spec.plain ("Host " ++ generateSSHConfigAlias info) = true.
Proof.
  rewrite plain_append. cbn [andb].
  change (Spec.plain "Host ") with true. cbn [andb].
  apply (forallb_imp Str.is_word); [apply word_plain | apply alias_word].
Qed.

Lemma labelled_plain (label field : string) :
  Str.truthy label = true -> Spec.plain label = true ->
  Spec.plain field = true ->
  Str.truthy (label ++ field) && Spec.plain (label ++ field) = true.
Proof.
  intros Ht Hl Hf. rewrite plain_append, Hl, Hf.
  destruct label; [discriminate | reflexivity].
Qed.

(** The lines of an entry with plain fields are plain and not empty. *)
Lemma body_lines_plain (fts : Q -> string) (info : SSHConnectionInfo) :
  Spec.plain_fields fts info = true ->
  List.forallb (fun b => Str.truthy b && Spec.plain b)
    (Spec.body_lines fts info) = true.
Proof.
  unfold Spec.plain_fields, Spec.body_lines. intros H.
  apply andb_prop in H as [H Hi]. apply andb_prop in H as [H Hp].
  apply andb_prop in H as [Hh Hu].
  destruct (nonstandard_port info);
    (destruct (identityFile info) as [f|]; [destruct (Str.truthy f)|]);
    cbn [List.app List.forallb];
    rewrite ?labelled_plain by (assumption || reflexivity);
    reflexivity.
Qed.

Lemma indented_plain (bodies : list string) :
  List.forallb (fun b => Str.truthy b && Spec.plain b) bodies = true ->
  List.forallb (fun b => Str.truthy b && Spec.no_LF b) bodies = true
  /\ Str.includes (Spec.indented bodies) "$" = false.
Proof.
  induction bodies as [|b bodies IH]; [split; reflexivity|].
  cbn [List.forallb Spec.indented]. intros H.
  apply andb_prop in H as [H Hbs]. apply andb_prop in H as [Hb1 Hb2].
  destruct (IH Hbs) as [IH1 IH2]. split.
  - rewrite Hb1, IH1, andb_true_r. cbn [andb].
    apply (forallb_imp _ _ _ plain_no_LF Hb2).
  - apply includes_char.
    apply includes_char in IH2.
    cbn [append Str.forallb]. rewrite !forallb_append, IH2.
    rewrite (forallb_imp _ _ _ plain_no_dollar Hb2). reflexivity.
Qed.

(** The text put in place of the marker has no [$]. *)
Lemma template_plain (fts : Q -> string) (info : SSHConnectionInfo) :
  Spec.plain_fields fts info = true ->
  Str.includes (marker ++ Str.nl ++ newEntry fts info) "$" = false.
Proof.
  intros H. apply includes_char.
  rewrite newEntry_lines.
  pose proof (host_line_plain info) as Hh.
  destruct (indented_plain _ (body_lines_plain fts info H)) as [_ Hi].
  apply includes_char in Hi.
  apply (forallb_imp _ _ _ plain_no_dollar) in Hh.
  rewrite forallb_append in Hh. apply andb_prop in Hh as [_ Hh].
  rewrite !forallb_append, Hi, Hh. reflexivity.
Qed.

Lemma includes_mid (u m v : string) : Str.includes (u ++ m ++ v) m = true.
Proof.
  apply includes_append, includes_prefix, prefix_append.
Qed.

(** The removal takes the entry out and nothing else. *)
Lemma remove_entry (alias p s : string) (bodies : list string) :
  Spec.no_LF ("Host " ++ alias) = true ->
  Str.includes (p ++ s) ("Host " ++ alias) = false ->
  Str.startsWith s "  " = false ->
  List.forallb (fun b => Str.truthy b && Spec.no_LF b) bodies = true ->
  RegExp.replaceAll false (removeRegex alias) ""
    (p ++ Str.nl ++ ("Host " ++ alias) ++ Str.nl
     ++ Spec.indented bodies ++ s)
  = p ++ s.
Proof.
  intros Hlf Hinc Hs Hb. unfold RegExp.replaceAll.
  apply includes_false_split in Hinc as [Hp Hs'].
  pose proof (run_remove_hit alias s (Str.rev_append p "") bodies Hs Hb)
    as Hrun.
  assert (Hshape :
    Str.nl ++ ("Host " ++ alias) ++ Str.nl ++ Spec.indented bodies ++ s
    = (Str.nl ++ ("Host " ++ alias) ++ Str.nl ++ Spec.indented bodies)
      ++ s).
  { unfold Str.nl. cbn [append]. now rewrite !append_assoc. }
  remember (("Host " ++ alias) ++ Str.nl ++ Spec.indented bodies ++ s)
    as v eqn:Ev.
  change (Str.nl ++ v) with (String Str.LF v) in *.
  rewrite remove_copy
    by (exact Hlf || now apply (absent_in_stop _ _ s)).
  f_equal.
  erewrite replace_loop_hit; [| exact Hrun |].
  - cbn [before after]. rewrite remove_none by exact Hs'. reflexivity.
  - rewrite Hshape. rewrite consumed_app. reflexivity.
Qed.

(** A text that holds the entry right after the marker, and the [Host]
    line of the alias nowhere else, is left as it is. *)
Lemma updatedConfig_stable (fts : Q -> string) (info : SSHConnectionInfo)
    (p s : string) :
  Spec.plain_fields fts info = true ->
  Str.includes (p ++ marker ++ s)
    ("Host " ++ generateSSHConfigAlias info) = false ->
  Str.absent_in marker p (marker ++ s) = true ->
  Str.startsWith s "  " = false ->
  updatedConfig fts info (p ++ marker ++ Str.nl ++ newEntry fts info ++ s)
  = p ++ marker ++ Str.nl ++ newEntry fts info ++ s.
Proof.
  intros Hplain Hinc Habs Hs. unfold updatedConfig.
  pose proof (template_plain fts info Hplain) as Htemplate.
  rewrite newEntry_lines in *.
  set (alias := generateSSHConfigAlias info) in *.
  set (bodies := Spec.body_lines fts info) in *.
  assert (Hlf : Spec.no_LF ("Host " ++ alias) = true)
    by apply (forallb_imp _ _ _ plain_no_LF (host_line_plain info)).
  destruct (indented_plain _ (body_lines_plain fts info Hplain))
    as [Hbodies _]. fold bodies in Hbodies.
  assert (Hshape :
    p ++ marker ++ Str.nl
      ++ ("Host " ++ alias ++ Str.nl ++ Spec.indented bodies) ++ s
    = (p ++ marker) ++ Str.nl ++ ("Host " ++ alias) ++ Str.nl
      ++ Spec.indented bodies ++ s).
  { now rewrite !append_assoc. }
  rewrite Hshape.
  rewrite test_entry_present.
  rewrite remove_entry;
    [| exact Hlf | now rewrite append_assoc | exact Hs | exact Hbodies].
  rewrite (append_assoc p marker s), includes_mid.
  unfold replace_string. rewrite replace_string_first by assumption.
  now rewrite !append_assoc.
Qed.

(** ** Counting the [Host] lines *)

Lemma lines_from_LF (u v cur : string) :
  Spec.lines_from cur (u ++ String Str.LF v)
  = (Spec.lines_from cur u ++ Spec.lines_from "" v)%list.
Proof.
  revert cur. induction u as [|a u IH]; intros cur; [reflexivity|].
  cbn [append Spec.lines_from].
  destruct (Str.is_line_terminator a); [cbn; f_equal|]; apply IH.
Qed.

Lemma lines_from_plain (s cur : string) :
  Spec.plain s = true -> Spec.lines_from cur s = [cur ++ s].
Proof.
  revert cur. induction s as [|a s IH]; intros cur H.
  - cbn. now rewrite append_nil_r.
  - cbn [Spec.plain Str.forallb] in H. apply andb_prop in H as [Ha Hs].
    apply plain_no_terminator, negb_true_iff in Ha.
    cbn [Spec.lines_from]. rewrite Ha, (IH _ Hs), append_assoc. reflexivity.
Qed.

(** Every line is a piece of the text. *)
Lemma lines_from_sub (s cur l : string) :
  List.In l (Spec.lines_from cur s) ->
  exists pre post, cur ++ s = pre ++ l ++ post.
Proof.
  revert cur. induction s as [|c s IH]; intros cur; cbn [Spec.lines_from].
  - intros [<-|[]]. exists "", "". now rewrite !append_nil_r.
  - destruct (Str.is_line_terminator c).
    + intros [<-|H].
      * exists "", (String c s). reflexivity.
      * destruct (IH _ H) as (pre & post & E). cbn [append] in E.
        exists (cur ++ String c pre), post.
        rewrite append_assoc. cbn [append]. now rewrite E.
    + intros H. destruct (IH _ H) as (pre & post & E).
      exists pre, post. rewrite <- E, append_assoc. reflexivity.
Qed.

Lemma no_host_line (alias s : string) :
  Str.includes s ("Host " ++ alias) = false ->
  List.filter (String.eqb ("Host " ++ alias)) (Spec.lines_from "" s) = [].
Proof.
  intros H.
  assert (Hall : forall l, List.In l (Spec.lines_from "" s) ->
                           String.eqb ("Host " ++ alias) l = false).
  { intros l Hl. apply String.eqb_neq. intros <-.
    destruct (lines_from_sub _ _ _ Hl) as (pre & post & E).
    cbn [append] in E. rewrite E in H.
    rewrite includes_append in H; [discriminate|].
    apply includes_prefix, (prefix_append ("Host " ++ alias) post). }
  induction (Spec.lines_from "" s) as [|l ls IH]; [reflexivity|].
  cbn [List.filter]. rewrite (Hall l) by now left.
  apply IH. intros l' Hl'. apply Hall. now right.
Qed.

Lemma indented_lines (alias s : string) (bodies : list string) :
  List.forallb (fun b => Str.truthy b && Spec.plain b) bodies = true ->
  Str.includes s ("Host " ++ alias) = false ->
  List.filter (String.eqb ("Host " ++ alias))
    (Spec.lines_from "" (Spec.indented bodies ++ s)) = [].
Proof.
  intros Hb Hs. induction bodies as [|b bodies IH].
  - now apply no_host_line.
  - cbn [List.forallb] in Hb. apply andb_prop in Hb as [Hb Hbs].
    apply andb_prop in Hb as [_ Hb].
    cbn [Spec.indented].
    replace (("  " ++ b ++ Str.nl ++ Spec.indented bodies) ++ s)
      with (("  " ++ b) ++ String Str.LF (Spec.indented bodies ++ s))
      by (unfold Str.nl; cbn [append]; now rewrite !append_assoc).
    rewrite lines_from_LF, List.filter_app, (IH Hbs), List.app_nil_r.
    rewrite lines_from_plain
      by (rewrite plain_append, Hb; reflexivity).
    reflexivity.
Qed.

(** One [Host] line of the alias: the one of the entry. *)
Lemma host_lines_entry (alias p s : string) (bodies : list string) :
  Spec.plain ("Host " ++ alias) = true ->
  List.forallb (fun b => Str.truthy b && Spec.plain b) bodies = true ->
  Str.includes (p ++ s) ("Host " ++ alias) = false ->
  Spec.host_lines alias
    (p ++ Str.nl ++ ("Host " ++ alias) ++ Str.nl
     ++ Spec.indented bodies ++ s) = 1.
Proof.
  intros Hh Hb Hinc. unfold Spec.host_lines.
  assert (Hp : Str.includes p ("Host " ++ alias) = false).
  { destruct (Str.includes p ("Host " ++ alias)) eqn:E; [|reflexivity].
    now rewrite (includes_weaken _ s _ E) in Hinc. }
  apply includes_false_split in Hinc as [_ Hs].
  remember ("Host " ++ alias) as ha eqn:Eha.
  change (p ++ Str.nl ++ ha ++ Str.nl ++ Spec.indented bodies ++ s)
    with (p ++ String Str.LF (ha ++ String Str.LF
                                (Spec.indented bodies ++ s))).
  rewrite !lines_from_LF, !List.filter_app. subst ha.
  rewrite (no_host_line alias p Hp), (indented_lines alias s bodies Hb Hs).
  rewrite lines_from_plain by exact Hh.
  cbn [List.app List.filter]. 
  change ("" ++ "Host " ++ alias) with ("Host " ++ alias).
  rewrite String.eqb_refl. reflexivity.
Qed.

(** ** The first run *)

(** The text written from a text that does not mention the alias: the
    entry stands right after the first marker. *)
Lemma first_run (fts : Q -> string) (info : SSHConnectionInfo)
    (x : string) :
  Spec.plain_fields fts info = true ->
  Str.includes x ("Host " ++ generateSSHConfigAlias info) = false ->
  exists p s,
    updatedConfig fts info x
    = p ++ marker ++ Str.nl ++ newEntry fts info ++ s
    /\ Str.includes (p ++ marker ++ s)
         ("Host " ++ generateSSHConfigAlias info) = false
    /\ Str.absent_in marker p (marker ++ s) = true
    /\ (s = "" \/ x = p ++ marker ++ s).
Proof.
  intros Hplain Hinc. unfold updatedConfig.
  rewrite test_entry_absent by exact Hinc.
  destruct (Str.includes x marker) eqn:Hm.
  - destruct (first_occurrence marker x Hm) as (p & s & -> & Habs).
    exists p, s. unfold replace_string.
    rewrite replace_string_first
      by (assumption || now apply template_plain).
    rewrite !append_assoc. auto.
  - destruct (trimEnd_prefix x) as [w Hw].
    set (u := Str.trimEnd x) in *.
    exists (u ++ Str.nl ++ Str.nl), "".
    rewrite Hw in Hinc, Hm.
    apply includes_false_split in Hinc as [Hinc _].
    apply includes_false_split in Hm as [Hm _].
    split; [now rewrite !append_assoc, append_nil_r|].
    split; [|split; [|now left]].
    + rewrite append_assoc, includes_split.
      unfold Str.nl at 1. cbn [append].
      rewrite (absent_in_stop _ _ w)
        by (exact Hinc
            || apply (forallb_imp _ _ _ plain_no_LF (host_line_plain info))).
      cbn [negb orb].
      apply (includes_longer _ "Host "). reflexivity.
    + rewrite absent_in_app. unfold Str.nl at 1. cbn [append].
      rewrite (absent_in_stop _ _ w) by (exact Hm || reflexivity).
      reflexivity.
Qed.

(** In a directory that exists, [ensureSSHConfigEntry] returns the
    alias and leaves the file with the text made from what it held
    (nothing when there was no file). *)
Lemma ensureSSHConfigEntry_writes (homedir : string) (fts : Q -> string)
    (info : SSHConnectionInfo) (w : world) :
  let path := Path.join [homedir; ".ssh"; "config"] in
  let existing := match files w path with
                  | Some (File text) => text
                  | _ => ""
                  end in
  files w (Path.dirname path) = Some Directory ->
  files w path <> Some Directory ->
  fst (ensureSSHConfigEntry homedir fts info w)
  = Normal (generateSSHConfigAlias info)
  /\ files (snd (ensureSSHConfigEntry homedir fts info w)) path
     = Some (File (updatedConfig fts info existing)).
Proof.
  cbv zeta. intros Hdir Hfile.
  unfold ensureSSHConfigEntry, Eff.bind, Eff.try_catch,
    Eff.readFileSync, Eff.writeFileSync, Eff.ret.
  destruct (files w (Path.join [homedir; ".ssh"; "config"])) as [[text|]|]
    eqn:E; [| now elim Hfile |];
    cbn [fst snd files]; rewrite Hdir, E; cbn [fst snd files];
    rewrite String.eqb_refl; split; reflexivity.
Qed.

(** Without the directory nothing is written: the error of
    [fs.writeFileSync] leaves [ensureSSHConfigEntry]. *)
Lemma ensureSSHConfigEntry_no_directory (homedir : string)
    (fts : Q -> string) (info : SSHConnectionInfo) (w : world) :
  let path := Path.join [homedir; ".ssh"; "config"] in
  files w (Path.dirname path) = None ->
  ensureSSHConfigEntry homedir fts info w
  = (Throw ("ENOENT: no such file or directory, open '" ++ path ++ "'"), w).
Proof.
  cbv zeta. intros Hdir.
  unfold ensureSSHConfigEntry, Eff.bind, Eff.try_catch,
    Eff.readFileSync, Eff.writeFileSync, Eff.ret.
  destruct (files w (Path.join [homedir; ".ssh"; "config"])) as [[text|]|];
    cbn [fst snd files]; rewrite Hdir; reflexivity.
Qed.

End ConfigFacts.

(* ------------------------------------------------------------------ *)
(** * Facts about the validators *)
(* ------------------------------------------------------------------ *)

Module ValidatorFacts.
Import StrFacts RegexFacts.

(** A fact about every character is checked on the 256 of them. *)
Lemma all_chars_spec (p : ascii -> bool) :
  Shape.all_chars p = true -> forall c, p c = true.
Proof.
  intros H c. unfold Shape.all_chars in H.
  rewrite List.forallb_forall in H.
  rewrite <- (ascii_nat_embedding c). apply H.
  apply List.in_seq. pose proof (nat_ascii_bounded c). lia.
Qed.

(** [forall c, p c = true -> q c = true], by evaluation. *)
Ltac check_chars :=
  let c := fresh "c" in
  let H := fresh "H" in
  intros c H;
  match goal with
  | |- ?q = true =>
      match type of H with
      | ?p = true =>
          let f := eval pattern c in (implb p q) in
          match f with
          | ?g c =>
              let Hall := fresh "Hall" in
              assert (Hall : Shape.all_chars g = true)
                by (vm_compute; reflexivity);
              let Hc := fresh "Hc" in
              pose proof (all_chars_spec g Hall c) as Hc;
              cbv beta in Hc; rewrite H in Hc; exact Hc
          end
      end
  end.

(** [^[p0][p]*$] *)
Lemma test_head_star (p0 p : ascii -> bool) (s : string) :
  RegExp.test false (Seq Bol (Seq (Cls p0) (Seq (Star (Cls p)) Eol))) s
  = match s with
    | String c t => p0 c && Str.forallb p t
    | EmptyString => false
    end.
Proof.
  unfold RegExp.test. rewrite exec_bol, run_seq.
  destruct s as [|c t]; [reflexivity|].
  rewrite run_cls_cons. destruct (p0 c); [|reflexivity].
  rewrite run_seq, run_star_cls by apply needs_stop_eol.
  destruct (span_spec p t) as (Ht & Hu & Hv).
  destruct (span p t) as [u v]. cbn [fst snd andb] in *.
  rewrite run_eol. destruct v as [|b v].
  - rewrite append_nil_r in Ht. subst t. now rewrite Hu.
  - subst t. rewrite forallb_append. cbn [Str.forallb RegExp.stops] in *.
    apply negb_true_iff in Hv. now rewrite Hv, andb_false_r.
Qed.

(** [^[p]+$] *)
Lemma test_plus (p : ascii -> bool) (s : string) :
  RegExp.test false (Seq Bol (Seq (Plus (Cls p)) Eol)) s
  = Str.truthy s && Str.forallb p s.
Proof.
  unfold RegExp.test. rewrite exec_bol, run_seq.
  rewrite run_plus_cls by apply needs_stop_eol.
  destruct (span_spec p s) as (Hs & Hu & Hv).
  destruct (span p s) as [u v]. cbn [fst snd] in *.
  destruct u as [|a u].
  - cbn [append] in Hs. subst v. destruct s as [|b s]; [reflexivity|].
    cbn [RegExp.stops Str.forallb Str.truthy andb] in *.
    apply negb_true_iff in Hv. now rewrite Hv.
  - rewrite run_eol. subst s. cbn [append Str.truthy andb].
    change (String a (u ++ v)) with (String a u ++ v).
    rewrite forallb_append, Hu. destruct v as [|b v]; [reflexivity|].
    cbn [RegExp.stops Str.forallb] in *.
    apply negb_true_iff in Hv. now rewrite Hv.
Qed.

(** [[p]*[q]$]: the star gives characters back until one character of
    [q] is left. *)
Lemma star_then_last (p q : ascii -> bool) (t : string) :
  forall (bef : string) (caps : captures) (fuel : nat),
    String.length t <= fuel ->
    star_loop fuel (run false (Cls p)) (Cursor bef t) caps
      (fun c caps' => run false (Seq (Cls q) Eol) c caps' accept)
    = if Shape.ends_with p q t
      then Some (Cursor (Str.rev_append t bef) "", caps)
      else None.
Proof.
  induction t as [|a t IH]; intros bef caps fuel Hfuel.
  - destruct fuel; reflexivity.
  - destruct fuel as [|fuel]; [simpl in Hfuel; lia|].
    simpl in Hfuel.
    assert (Hk : run false (Seq (Cls q) Eol) (Cursor bef (String a t))
                   caps accept
                 = if q a && match t with "" => true | _ => false end
                   then Some (Cursor (Str.rev_append (String a t) bef) "",
                              caps)
                   else None).
    { rewrite run_seq, run_cls_cons. destruct (q a); [|reflexivity].
      rewrite run_eol. destruct t; reflexivity. }
    cbn [star_loop]. rewrite run_cls_cons. cbn [Shape.ends_with].
    destruct (p a) eqn:Hp; cbn [andb orb].
    + cbn [after].
      assert (Hlt : (String.length t <? String.length (String a t))%nat
                    = true) by (apply Nat.ltb_lt; simpl; lia).
      rewrite Hlt, IH by lia.
      destruct (Shape.ends_with p q t); [reflexivity|].
      cbn [orb]. exact Hk.
    + exact Hk.
Qed.

Lemma ends_with_intro (p q : ascii -> bool) (m : string) (z : ascii) :
  Str.forallb p m = true -> q z = true ->
  Shape.ends_with p q (m ++ String z "") = true.
Proof.
  intros Hm Hz. induction m as [|a m IH]; cbn.
  - now rewrite Hz, orb_true_r.
  - cbn in Hm. apply andb_prop in Hm as [Ha Hm].
    now rewrite Ha, (IH Hm).
Qed.

Lemma ends_with_elim (p q : ascii -> bool) (t : string) :
  Shape.ends_with p q t = true ->
  exists m z, t = m ++ String z "" /\ Str.forallb p m = true /\ q z = true.
Proof.
  induction t as [|a t IH]; cbn; [discriminate|].
  intros H. apply orb_prop in H as [H|H].
  - apply andb_prop in H as [Ha Ht].
    destruct (IH Ht) as (m & z & -> & Hm & Hz).
    exists (String a m), z. cbn. now rewrite Ha, Hm.
  - apply andb_prop in H as [Ha Ht]. destruct t; [|discriminate].
    exists "", a. auto.
Qed.

(** The character classes, one character at a time. *)
Lemma chars_cons (x : ascii) (more : string) (c : ascii) :
  chars (String x more) c = Ascii.eqb x c || chars more c.
Proof.
  unfold chars. cbn [Str.includes String.prefix].
  destruct (ascii_dec x c) as [->|n].
  - rewrite Ascii.eqb_refl.
    destruct (ascii_dec c c) as [_|n]; [|now elim n].
    now rewrite prefix_nil.
  - rewrite (proj2 (Ascii.eqb_neq x c) n).
    destruct (ascii_dec c x) as [->|_]; [now elim n|]. reflexivity.
Qed.

Lemma chars_nil (c : ascii) : chars "" c = false.
Proof. reflexivity. Qed.

(** Two alternatives anchored by [^] match at the start of the input
    or nowhere. *)
Lemma search_alt_bol_later (r1 r2 : regex) (a : ascii) (bef aft : string) :
  search false (Alt (Seq Bol r1) (Seq Bol r2)) (String a bef) aft = None.
Proof.
  revert a bef. induction aft as [|b aft IH]; intros a bef.
  - reflexivity.
  - cbn. apply IH.
Qed.

(** The shape of a valid host, as a test. *)
Lemma isValidHost_test (h : string) :
  isValidHost h
  = match h with
    | EmptyString => false
    | String a t =>
        Str.is_alnum a
        && (Shape.ends_with (alnum_or ".-") Str.is_alnum t
            || match t with EmptyString => true | _ => false end)
    end.
Proof.
  unfold isValidHost. destruct h as [|a t]; [reflexivity|].
  cbn [Str.truthy negb]. unfold RegExp.test, RegExp.exec, re_host.
  cbn [search]. rewrite search_alt_bol_later, run_alt, !run_seq.
  change (run false Bol (Cursor "" (String a t)) [])
    with (fun k : cont => k (Cursor "" (String a t)) []).
  cbv beta. rewrite !run_seq, !run_cls_cons.
  destruct (Str.is_alnum a); [|reflexivity].
  cbn [andb]. rewrite run_seq, run_star. cbn [after].
  rewrite (star_then_last (alnum_or ".-") Str.is_alnum t) by lia.
  destruct (Shape.ends_with (alnum_or ".-") Str.is_alnum t);
    [reflexivity|].
  rewrite run_eol.
  cbn [orb]. destruct t; reflexivity.
Qed.

(** The three validators of names, as tests of characters. *)
Lemma isValidUser_test (u : string) :
  isValidUser u
  = match u with
    | EmptyString => false
    | String c t =>
        (Str.is_lower c || Str.is_upper c || Ascii.eqb c "_")
        && Str.forallb (alnum_or "_-") t
    end.
Proof.
  unfold isValidUser, re_user. rewrite test_head_star.
  destruct u as [|c t]; [reflexivity|]. cbn [Str.truthy negb].
  rewrite chars_cons, chars_nil, orb_false_r.
  now rewrite (Ascii.eqb_sym "_" c).
Qed.

Lemma isValidFleetName_test (n : string) :
  isValidFleetName n
  = match n with
    | EmptyString => false
    | String c t =>
        Str.is_alnum c && Str.forallb (alnum_or " _-") t
        && (String.length n <=? 50)%nat
    end.
Proof.
  unfold isValidFleetName, re_fleet_name.
  rewrite test_head_star. destruct n; reflexivity.
Qed.

Lemma isValidVesselName_test (n : string) :
  isValidVesselName n
  = match n with
    | EmptyString => false
    | String c t =>
        Str.is_alnum c && Str.forallb (alnum_or " _.-") t
        && (String.length n <=? 50)%nat
    end.
Proof.
  unfold isValidVesselName, re_vessel_name.
  rewrite test_head_star. destruct n; reflexivity.
Qed.

(** The characters of a valid host, user or identity file are not
    among those [sanitize] removes. *)
Lemma host_char_safe (c : ascii) :
  alnum_or ".-" c = true -> negb (dangerous c) = true.
Proof.
  revert c. check_chars.
Qed.

Lemma user_char_safe (c : ascii) :
  alnum_or "_-" c = true -> negb (dangerous c) = true.
Proof.
  revert c. check_chars.
Qed.

Lemma identity_char_safe (c : ascii) :
  alnum_or "._/-" c || chars "~/" c = true -> negb (dangerous c) = true.
Proof.
  revert c. check_chars.
Qed.

Lemma digit_safe (c : ascii) :
  Str.is_digit c = true -> negb (dangerous c) = true.
Proof.
  revert c. check_chars.
Qed.

Lemma alnum_host_char (c : ascii) :
  Str.is_alnum c = true -> alnum_or ".-" c = true.
Proof. intros H. unfold alnum_or. now rewrite H. Qed.

Lemma isValidHost_chars (h : string) :
  isValidHost h = true ->
  Str.truthy h = true /\ Str.forallb (alnum_or ".-") h = true.
Proof.
  rewrite isValidHost_test. destruct h as [|a t]; [discriminate|].
  intros H. split; [reflexivity|]. apply andb_prop in H as [Ha H].
  cbn [Str.forallb]. rewrite (alnum_host_char a Ha). cbn [andb].
  apply orb_prop in H as [H|H].
  - destruct (ends_with_elim _ _ _ H) as (m & z & -> & Hm & Hz).
    rewrite forallb_append, Hm. cbn [Str.forallb andb].
    now rewrite (alnum_host_char z Hz).
  - destruct t; [reflexivity | discriminate].
Qed.

Lemma isValidHost_safe (h : string) :
  isValidHost h = true -> Shape.shell_safe h = true.
Proof.
  rewrite isValidHost_test. destruct h as [|a t]; [discriminate|].
  intros H. apply andb_prop in H as [Ha H].
  unfold Shape.shell_safe. cbn [Str.forallb].
  rewrite (host_char_safe a (alnum_host_char a Ha)). cbn [andb].
  apply orb_prop in H as [H|H].
  - destruct (ends_with_elim _ _ _ H) as (m & z & -> & Hm & Hz).
    rewrite forallb_append.
    rewrite (ConfigFacts.forallb_imp _ _ m host_char_safe Hm).
    cbn [Str.forallb andb].
    now rewrite (host_char_safe z (alnum_host_char z Hz)).
  - destruct t; [reflexivity | discriminate].
Qed.

Lemma isValidUser_safe (u : string) :
  isValidUser u = true -> Shape.shell_safe u = true.
Proof.
  rewrite isValidUser_test. destruct u as [|c t]; [discriminate|].
  intros H. apply andb_prop in H as [Hc Ht].
  unfold Shape.shell_safe. cbn [Str.forallb].
  rewrite (ConfigFacts.forallb_imp _ _ t user_char_safe Ht), andb_true_r.
  revert c Hc. check_chars.
Qed.

End ValidatorFacts.

(* ------------------------------------------------------------------ *)
(** * Facts about [sanitize] and the commands *)
(* ------------------------------------------------------------------ *)

Module SanitizeFacts.
Import StrFacts RegexFacts ValidatorFacts.

(** Replacing every character of a class by a text without [$]. *)
Lemma replace_loop_cls_text (ml : bool) (p : ascii -> bool) (t : string) :
  Str.includes t "$" = false ->
  forall (s bef : string) (fuel : nat),
    String.length s < fuel ->
    replace_loop fuel ml (Cls p) t bef s
    = Shape.expand_chars (fun c => if p c then t else String c "") s.
Proof.
  intros Ht s. induction s as [|a s IH]; intros bef fuel Hfuel.
  - now apply replace_loop_nil.
  - destruct fuel as [|fuel]; [lia|]. simpl in Hfuel.
    cbn [Shape.expand_chars]. destruct (p a) eqn:Hp.
    + rewrite (replace_loop_hit ml (Cls p) _ fuel bef (String a s)
                 (Cursor (String a bef) s) [] a "").
      * cbn [before after]. rewrite IH by lia.
        unfold expand. now rewrite substitution_plain.
      * rewrite run_cls_cons, Hp. reflexivity.
      * change (String a s) with (String a "" ++ s).
        apply consumed_app.
    + rewrite replace_loop_skip by (rewrite run_cls_cons, Hp; reflexivity).
      rewrite IH by lia. reflexivity.
Qed.

Lemma replaceAll_cls_text (ml : bool) (p : ascii -> bool) (t s : string) :
  Str.includes t "$" = false ->
  replaceAll ml (Cls p) t s
  = Shape.expand_chars (fun c => if p c then t else String c "") s.
Proof.
  intros Ht. unfold replaceAll. apply replace_loop_cls_text; [exact Ht | lia].
Qed.

Lemma sanitize_keep (s : string) :
  sanitize s = Shape.keep (fun c => negb (dangerous c)) s.
Proof.
  unfold sanitize. rewrite replaceAll_cls_text by reflexivity.
  induction s as [|c s IH]; [reflexivity|].
  cbn [Shape.expand_chars Shape.keep]. rewrite IH.
  destruct (dangerous c); reflexivity.
Qed.

Lemma keep_forallb (p : ascii -> bool) (s : string) :
  Str.forallb p (Shape.keep p s) = true.
Proof.
  induction s as [|c s IH]; [reflexivity|]. cbn [Shape.keep].
  destruct (p c) eqn:Hp; [|exact IH]. cbn [Str.forallb]. now rewrite Hp.
Qed.

Lemma keep_all (p : ascii -> bool) (s : string) :
  Str.forallb p s = true -> Shape.keep p s = s.
Proof.
  induction s as [|c s IH]; [reflexivity|]. cbn [Shape.keep Str.forallb].
  intros H. apply andb_prop in H as [Hc Hs]. now rewrite Hc, IH.
Qed.

Lemma shell_safe_append (s t : string) :
  Shape.shell_safe (s ++ t) = Shape.shell_safe s && Shape.shell_safe t.
Proof. apply forallb_append. Qed.

(** A safe text has no [$]. *)
Lemma safe_no_dollar (s : string) :
  Shape.shell_safe s = true -> Str.includes s "$" = false.
Proof.
  intros H. apply includes_char.
  apply (ConfigFacts.forallb_imp (fun c => negb (dangerous c))); [|exact H].
  intros c. revert c. check_chars.
Qed.

(** The characters of a path that passes [isValidIdentityFile]. *)
Lemma isValidIdentityFile_chars (homedir cwd f : string) :
  isValidIdentityFile homedir cwd f = true ->
  exists c t, f = String c t /\ chars "~/" c = true
              /\ Str.forallb (alnum_or "._/-") t = true.
Proof.
  unfold isValidIdentityFile. destruct (Str.truthy f); [|discriminate].
  cbn [negb]. rewrite IdentityFacts.test_identity.
  destruct f as [|c t]; [discriminate|].
  destruct (chars "~/" c && Str.forallb (alnum_or "._/-") t) eqn:E;
    [|discriminate].
  apply andb_prop in E as [Hc Ht]. intros _. exists c, t. auto.
Qed.

(** The expanded path of a valid identity file is safe when the home
    directory is. *)
Lemma expandPath_safe (homedir cwd f : string) :
  Shape.shell_safe homedir = true ->
  isValidIdentityFile homedir cwd f = true ->
  Shape.shell_safe (expandPath homedir f) = true.
Proof.
  intros Hh Hf.
  destruct (isValidIdentityFile_chars _ _ _ Hf) as (c & t & -> & Hc & Ht).
  assert (Hsafe : Shape.shell_safe t = true).
  { apply (ConfigFacts.forallb_imp (alnum_or "._/-")); [|exact Ht].
    intros x Hx. apply ValidatorFacts.identity_char_safe.
    now rewrite Hx. }
  unfold expandPath.
  destruct (Ascii.eqb_spec c "~") as [->|Hne].
  - assert (Hs : Str.startsWith (String "~" t) "~" = true)
      by apply (prefix_append "~" t).
    rewrite Hs.
    rewrite IdentityFacts.expand_home by now apply safe_no_dollar.
    now rewrite shell_safe_append, Hh, Hsafe.
  - assert (Hs : Str.startsWith (String c t) "~" = false).
    { unfold Str.startsWith. cbn [String.prefix].
      destruct (ascii_dec "~" c) as [<-|_]; [now elim Hne | reflexivity]. }
    rewrite Hs. unfold Shape.shell_safe. cbn [Str.forallb].
    fold (Shape.shell_safe t). rewrite Hsafe, andb_true_r.
    apply ValidatorFacts.identity_char_safe. now rewrite Hc, orb_true_r.
Qed.

(** The decimal notation of a positive integer is safe. *)
Lemma port_text_safe (fts : Q -> string) (z : Z) :
  (0 < z)%Z -> Shape.shell_safe (String_ fts (Num.of_Z z)) = true.
Proof.
  intros Hz.
  assert (Hport : String_ fts (Num.of_Z z) = Num.digits (Z.to_N z)).
  { unfold String_, Num.toString, Num.of_Z, Num.is_integer, Num.floor,
      inject_Z. cbn [Qnum Qden]. rewrite Z.mod_1_r, Z.div_1_r.
    cbn [Z.eqb]. unfold Num.Z_toString. destruct z; try reflexivity. lia. }
  rewrite Hport.
  apply (ConfigFacts.forallb_imp Str.is_digit);
    [exact ValidatorFacts.digit_safe | apply ConnectionIdFacts.forallb_digits].
Qed.

(** The fields that [validateConnectionInfo] lets through. *)
Lemma validate_fields (homedir cwd : string) (fts : Q -> string)
    (info : SSHConnectionInfo) :
  valid (validateConnectionInfo homedir cwd fts info) = true ->
  isValidHost (host info) = true
  /\ isValidUser (user info) = true
  /\ isValidPort (IsNumber (port info)) = true
  /\ forall f, Spec.identity_set info = Some f ->
               isValidIdentityFile homedir cwd f = true.
Proof.
  unfold validateConnectionInfo, Spec.identity_set.
  destruct (isValidHost (host info)); cbn [negb]; [|discriminate].
  destruct (isValidUser (user info)); cbn [negb]; [|discriminate].
  destruct (isValidPort (IsNumber (port info))); cbn [negb]; [|discriminate].
  destruct (identityFile info) as [f|];
    [|intros _; repeat split; discriminate].
  destruct (Str.truthy f); cbn [andb];
    [|intros _; repeat split; discriminate].
  destruct (isValidIdentityFile homedir cwd f) eqn:E; cbn [negb];
    [|discriminate].
  intros _. repeat split. now intros f' [= <-].
Qed.

(** Tokens that are safe, joined by spaces. *)
Lemma join_safe (parts : list string) :
  List.forallb Shape.shell_safe parts = true ->
  Shape.shell_safe (Str.join " " parts) = true.
Proof.
  unfold Str.join. induction parts as [|x parts IH]; [reflexivity|].
  cbn [List.forallb]. intros H. apply andb_prop in H as [Hx Hp].
  destruct parts as [|y parts]; [exact Hx|].
  cbn [String.concat] in *.
  rewrite shell_safe_append, Hx. cbn [andb].
  rewrite shell_safe_append. now rewrite IH.
Qed.

Lemma command_tokens_safe (fts : Q -> string) (info : SSHConnectionInfo)
    (identity : option string) (z : Z) :
  isValidHost (host info) = true ->
  isValidUser (user info) = true ->
  port info = Num.of_Z z -> (0 < z)%Z ->
  match identity with
  | Some i => Shape.shell_safe i = true
  | None => True
  end ->
  Shape.shell_safe
    (Str.join " "
       (Spec.command_tokens identity (String_ fts (port info)) info))
  = true.
Proof.
  intros Hh Hu Hp Hz Hi. apply join_safe. unfold Spec.command_tokens.
  rewrite !List.forallb_app. cbn [List.forallb].
  rewrite shell_safe_append, (ValidatorFacts.isValidUser_safe _ Hu).
  rewrite shell_safe_append, (ValidatorFacts.isValidHost_safe _ Hh).
  rewrite Hp.
  destruct identity as [i|]; [cbn [List.forallb]; rewrite Hi|];
    destruct (Num.strict_eqb (Num.of_Z z) (Num.of_Z 22));
    cbn [List.forallb]; rewrite ?(port_text_safe fts z Hz); reflexivity.
Qed.

End SanitizeFacts.

(* ------------------------------------------------------------------ *)
(** * Facts about the reader of SSH configurations *)
(* ------------------------------------------------------------------ *)

Module ImportFacts.
Import StrFacts RegexFacts ValidatorFacts.

(** ** Cutting a text into lines *)

Lemma split_on_line (sep : ascii) (u v cur : string) :
  Str.forallb (fun x => negb (Ascii.eqb x sep)) u = true ->
  split_on_from sep cur (u ++ String sep v)
  = (cur ++ u) :: split_on_from sep "" v.
Proof.
  revert cur. induction u as [|a u IH]; intros cur H.
  - cbn. now rewrite Ascii.eqb_refl, append_nil_r.
  - cbn [Str.forallb] in H. apply andb_prop in H as [Ha Hu].
    apply negb_true_iff in Ha. cbn [append split_on_from].
    rewrite Ha, (IH _ Hu), append_assoc. reflexivity.
Qed.

Lemma split_on_last (sep : ascii) (u cur : string) :
  Str.forallb (fun x => negb (Ascii.eqb x sep)) u = true ->
  split_on_from sep cur u = [cur ++ u].
Proof.
  revert cur. induction u as [|a u IH]; intros cur H.
  - cbn. now rewrite append_nil_r.
  - cbn [Str.forallb] in H. apply andb_prop in H as [Ha Hu].
    apply negb_true_iff in Ha. cbn [split_on_from].
    rewrite Ha, (IH _ Hu), append_assoc. reflexivity.
Qed.

(** ** Trimming *)

Lemma trimStart_spaces (ws s : string) :
  Str.forallb Str.is_space ws = true -> stops Str.is_space s = true ->
  Str.trimStart (ws ++ s) = s.
Proof.
  intros Hws Hs. unfold Str.trimStart.
  induction ws as [|a ws IH].
  - destruct s as [|b s]; [reflexivity|]. cbn in *.
    apply negb_true_iff in Hs. now rewrite Hs.
  - cbn in *. apply andb_prop in Hws as [Ha Hws]. rewrite Ha. now apply IH.
Qed.

Lemma trimEnd_last (u : string) (z : ascii) :
  Str.is_space z = false ->
  Str.trimEnd (u ++ String z "") = u ++ String z "".
Proof.
  intros Hz. unfold Str.trimEnd. rewrite rev_app.
  change (Str.rev (String z "")) with (String z "").
  cbn [append Str.drop_while]. rewrite Hz.
  change (String z (Str.rev u)) with (String z "" ++ Str.rev u).
  change (String z "") with (Str.rev (String z "")) at 1.
  now rewrite <- rev_app, rev_involutive.
Qed.

(** A text that is not empty ends with a character. *)
Lemma snoc_cases (s : string) :
  Str.truthy s = true -> exists u z, s = u ++ String z "".
Proof.
  induction s as [|a s IH]; [discriminate|]. intros _.
  destruct s as [|b s].
  - exists "", a. reflexivity.
  - destruct (IH eq_refl) as (u & z & E). exists (String a u), z.
    cbn [append]. now rewrite <- E.
Qed.

Lemma forallb_snoc (p : ascii -> bool) (u : string) (z : ascii) :
  Str.forallb p (u ++ String z "") = Str.forallb p u && p z.
Proof. rewrite forallb_append. cbn. now rewrite andb_true_r. Qed.

Lemma trim_key_value (ws : string) (k0 : ascii) (k v : string) :
  Str.forallb Str.is_space ws = true ->
  Str.is_space k0 = false ->
  Str.truthy v = true ->
  Str.forallb Shape.value_char v = true ->
  Str.trim (ws ++ String k0 k ++ " " ++ v) = String k0 k ++ " " ++ v.
Proof.
  intros Hws Hk Hv Hc. unfold Str.trim.
  rewrite trimStart_spaces
    by (exact Hws || (cbn; now rewrite Hk)).
  destruct (snoc_cases v Hv) as (u & z & ->).
  rewrite forallb_snoc in Hc. apply andb_prop in Hc as [_ Hz].
  apply andb_prop in Hz as [Hz _]. apply negb_true_iff in Hz.
  replace (String k0 k ++ " " ++ u ++ String z "")
    with ((String k0 k ++ " " ++ u) ++ String z "")
    by now rewrite !append_assoc.
  now apply trimEnd_last.
Qed.

(** ** The pattern of a line *)

Lemma word_not_space (a : ascii) :
  Str.is_word a = true ->
  Str.is_space a = false /\ Ascii.eqb a "=" = false.
Proof.
  intros H.
  assert (X : negb (Str.is_space a) && negb (Ascii.eqb a "=") = true)
    by (revert a H; check_chars).
  apply andb_prop in X as [X1 X2]. apply negb_true_iff in X1, X2. auto.
Qed.

Lemma value_char_not_terminator (a : ascii) :
  Shape.value_char a = true -> negb (Str.is_line_terminator a) = true.
Proof.
  revert a. check_chars.
Qed.

(** What follows the key in the pattern cannot begin with a character
    of a word. *)
Lemma needs_stop_after_key (r : regex) (k : cont) :
  needs_stop Str.is_word
    (fun c caps =>
       run false
         (Seq (Star (Cls Str.is_space))
            (Seq (Cls (fun c => Ascii.eqb c "=" || Str.is_space c)) r))
         c caps k).
Proof.
  intros bef a rest caps Ha.
  destruct (word_not_space a Ha) as [Hs He].
  rewrite run_seq, run_star. cbn [after String.length star_loop].
  rewrite run_cls_cons, Hs, run_seq, run_cls_cons, He, Hs. reflexivity.
Qed.

(** [\s*] before something that cannot begin with white space, on a
    text that begins with a character of a value. *)
Lemma run_spaces_none (v0 : ascii) (v bef : string) (caps : captures)
    (k : cont) :
  Str.is_space v0 = false ->
  run false (Star (Cls Str.is_space)) (Cursor bef (String v0 v)) caps k
  = k (Cursor bef (String v0 v)) caps.
Proof.
  intros Hs. rewrite run_star. cbn [after String.length star_loop].
  now rewrite run_cls_cons, Hs.
Qed.

Lemma star_loop_step (fuel : nat)
    (body : cursor -> captures -> cont -> outcome)
    (c : cursor) (caps : captures) (k : cont) :
  star_loop (S fuel) body c caps k
  = match body c caps (fun c' caps' =>
            if (String.length (after c') <? String.length (after c))%nat
            then star_loop fuel body c' caps' k
            else None) with
    | Some res => Some res
    | None => k c caps
    end.
Proof. reflexivity. Qed.

(** The separator between the key and the value: one space, before a
    value that begins with a character of a value. *)
Lemma run_separator (r : regex) (v0 : ascii) (v bef : string)
    (caps : captures) (k : cont) :
  Shape.value_char v0 = true ->
  run false
    (Seq (Star (Cls Str.is_space))
       (Seq (Cls (fun c => Ascii.eqb c "=" || Str.is_space c))
          (Seq (Star (Cls Str.is_space)) r)))
    (Cursor bef (String " " (String v0 v))) caps k
  = run false r (Cursor (String " " bef) (String v0 v)) caps k.
Proof.
  intros Hv0. apply andb_prop in Hv0 as [Hs He].
  apply negb_true_iff in Hs, He.
  rewrite run_seq, run_star.
  change (String.length (after (Cursor bef (String " " (String v0 v)))))
    with (S (String.length (String v0 v))).
  rewrite star_loop_step, run_cls_cons.
  change (Str.is_space " ") with true. cbv iota.
  change (after (Cursor (String " " bef) (String v0 v)))
    with (String v0 v).
  change (after (Cursor bef (String " " (String v0 v))))
    with (String " " (String v0 v)).
  assert (Hlt : (String.length (String v0 v)
                 <? String.length (String " " (String v0 v)))%nat = true)
    by (apply Nat.ltb_lt; simpl; lia).
  rewrite Hlt.
  change (String.length (String v0 v)) with (S (String.length v)).
  rewrite star_loop_step, run_cls_cons, Hs.
  rewrite run_seq, run_cls_cons, He, Hs. cbn [orb].
  rewrite run_seq, run_cls_cons.
  change (Ascii.eqb " " "=" || Str.is_space " ") with true. cbv iota.
  rewrite run_seq. now apply run_spaces_none.
Qed.

Lemma exec_key_value (k v : string) :
  Str.truthy k = true -> Str.forallb Str.is_word k = true ->
  Str.truthy v = true -> Str.forallb Shape.value_char v = true ->
  exists m,
    RegExp.exec false re_key_value (k ++ " " ++ v) = Some m
    /\ RegExp.group 1 m = Some k /\ RegExp.group 2 m = Some v.
Proof.
  intros Hk Hkw Hv Hvc. unfold re_key_value. rewrite exec_bol, run_seq.
  rewrite run_grp_plus_cls by apply needs_stop_after_key.
  rewrite (span_app Str.is_word k (" " ++ v)) by (exact Hkw || reflexivity).
  cbn [fst snd]. destruct k as [|k0 k]; [discriminate|].
  destruct v as [|v0 v]; [discriminate|].
  pose proof Hvc as Hvc'. cbn [Str.forallb] in Hvc'.
  apply andb_prop in Hvc' as [Hv0 _].
  change (" " ++ String v0 v) with (String " " (String v0 v)).
  rewrite run_separator by exact Hv0.
  rewrite run_seq, run_grp_plus_cls by apply needs_stop_eol.
  assert (Hsp : span (fun c => negb (Str.is_line_terminator c))
                  (String v0 v) = (String v0 v, "")).
  { rewrite <- (append_nil_r (String v0 v)) at 1.
    apply span_app; [|reflexivity].
    exact (ConfigFacts.forallb_imp _ _ _ value_char_not_terminator Hvc). }
  rewrite Hsp. cbn [fst snd]. cbv zeta. rewrite run_eol. cbn [accept].
  eexists. split; [reflexivity|]. split; reflexivity.
Qed.

(** ** One line of the loop *)

Lemma word_value_char (c : ascii) :
  Str.is_word c = true -> Shape.value_char c = true.
Proof.
  revert c. check_chars.
Qed.

Lemma word_no_wildcard (c : ascii) :
  Str.is_word c = true ->
  negb (Ascii.eqb "*" c) = true /\ negb (Ascii.eqb "?" c) = true.
Proof.
  intros H.
  assert (X : negb (Ascii.eqb "*" c) && negb (Ascii.eqb "?" c) = true)
    by (revert c H; check_chars).
  now apply andb_prop in X.
Qed.

Lemma field_value_char (c : ascii) :
  alnum_or "._/-" c || chars "~/" c || alnum_or "_-" c = true ->
  Shape.value_char c = true.
Proof.
  revert c. check_chars.
Qed.

(** The steps shared by the lines [Key value]: the line is trimmed,
    it is no comment, and the pattern gives the key and the value. *)
Ltac read_line k0 k v Hv Hc :=
  unfold parseSshConfig_line;
  rewrite (trim_key_value _ k0 k v) by (reflexivity || exact Hv || exact Hc);
  let m := fresh "m" in
  let Hm := fresh "Hm" in
  let H1 := fresh "H1" in
  let H2 := fresh "H2" in
  destruct (exec_key_value (String k0 k) v eq_refl eq_refl Hv Hc)
    as (m & Hm & H1 & H2);
  rewrite Hm, H1, H2.

Section Lines.

Variable homedir : string.

Lemma line_host (hosts : list ParsedSshHost)
    (currentHost : option ParsedSshHost) (alias : string) :
  Str.truthy alias = true -> Str.forallb Str.is_word alias = true ->
  parseSshConfig_line homedir (hosts, currentHost) ("Host " ++ alias)
  = (push_current hosts currentHost,
     Some {| ph_name := alias; ph_host := alias; ph_user := None;
             ph_port := None; ph_identityFile := None |}).
Proof.
  intros Hv Hw.
  pose proof (ConfigFacts.forallb_imp _ _ _ word_value_char Hw) as Hc.
  change ("Host " ++ alias) with ("" ++ String "H" "ost" ++ " " ++ alias).
  read_line "H"%char "ost" alias Hv Hc.
  assert (Hstar : Str.includes alias "*" = false).
  { apply includes_char.
    apply (ConfigFacts.forallb_imp Str.is_word); [|exact Hw].
    intros c Hc'. now apply word_no_wildcard. }
  assert (Hq : Str.includes alias "?" = false).
  { apply includes_char.
    apply (ConfigFacts.forallb_imp Str.is_word); [|exact Hw].
    intros c Hc'. now apply word_no_wildcard. }
  rewrite Hstar, Hq. reflexivity.
Qed.

Lemma line_hostname (hosts : list ParsedSshHost) (h : ParsedSshHost)
    (v : string) :
  Str.truthy v = true -> Str.forallb Shape.value_char v = true ->
  parseSshConfig_line homedir (hosts, Some h) ("  HostName " ++ v)
  = (hosts,
     Some {| ph_name := ph_name h; ph_host := v; ph_user := ph_user h;
             ph_port := ph_port h;
             ph_identityFile := ph_identityFile h |}).
Proof.
  intros Hv Hc.
  change ("  HostName " ++ v)
    with ("  " ++ String "H" "ostName" ++ " " ++ v).
  read_line "H"%char "ostName" v Hv Hc. reflexivity.
Qed.

Lemma line_user (hosts : list ParsedSshHost) (h : ParsedSshHost)
    (v : string) :
  Str.truthy v = true -> Str.forallb Shape.value_char v = true ->
  parseSshConfig_line homedir (hosts, Some h) ("  User " ++ v)
  = (hosts,
     Some {| ph_name := ph_name h; ph_host := ph_host h;
             ph_user := Some v; ph_port := ph_port h;
             ph_identityFile := ph_identityFile h |}).
Proof.
  intros Hv Hc.
  change ("  User " ++ v) with ("  " ++ String "U" "ser" ++ " " ++ v).
  read_line "U"%char "ser" v Hv Hc. reflexivity.
Qed.

Lemma line_port (hosts : list ParsedSshHost) (h : ParsedSshHost)
    (v : string) :
  Str.truthy v = true -> Str.forallb Shape.value_char v = true ->
  parseSshConfig_line homedir (hosts, Some h) ("  Port " ++ v)
  = (hosts,
     Some {| ph_name := ph_name h; ph_host := ph_host h;
             ph_user := ph_user h; ph_port := Some (Num.parseInt10 v);
             ph_identityFile := ph_identityFile h |}).
Proof.
  intros Hv Hc.
  change ("  Port " ++ v) with ("  " ++ String "P" "ort" ++ " " ++ v).
  read_line "P"%char "ort" v Hv Hc. reflexivity.
Qed.

Lemma line_identity (hosts : list ParsedSshHost) (h : ParsedSshHost)
    (v : string) :
  Str.truthy v = true -> Str.forallb Shape.value_char v = true ->
  parseSshConfig_line homedir (hosts, Some h) ("  IdentityFile " ++ v)
  = (hosts,
     Some {| ph_name := ph_name h; ph_host := ph_host h;
             ph_user := ph_user h; ph_port := ph_port h;
             ph_identityFile :=
               Some (RegExp.replace false (Seq Bol (Chr "~")) homedir v) |}).
Proof.
  intros Hv Hc.
  change ("  IdentityFile " ++ v)
    with ("  " ++ String "I" "dentityFile" ++ " " ++ v).
  read_line "I"%char "dentityFile" v Hv Hc. reflexivity.
Qed.

(** The empty line and the marker change nothing. *)
Lemma line_empty (state : list ParsedSshHost * option ParsedSshHost) :
  parseSshConfig_line homedir state "" = state.
Proof. destruct state. reflexivity. Qed.

Lemma line_marker (state : list ParsedSshHost * option ParsedSshHost) :
  parseSshConfig_line homedir state marker = state.
Proof. destruct state. reflexivity. Qed.

End Lines.

(** ** The text of a first run *)

Lemma updatedConfig_empty (fts : Q -> string) (info : SSHConnectionInfo) :
  updatedConfig fts info ""
  = Str.nl ++ Str.nl ++ marker ++ Str.nl ++ newEntry fts info.
Proof.
  unfold updatedConfig.
  rewrite ConfigFacts.test_entry_absent by reflexivity. reflexivity.
Qed.

Lemma String_of_Z (fts : Q -> string) (z : Z) :
  String_ fts (Num.of_Z z) = Num.Z_toString z.
Proof.
  unfold String_, Num.toString, Num.of_Z, Num.is_integer, Num.floor,
    inject_Z. cbn [Qnum Qden]. now rewrite Z.mod_1_r, Z.div_1_r.
Qed.

Lemma replace_home (homedir f : string) :
  RegExp.replace false (Seq Bol (Chr "~")) homedir f = expandPath homedir f.
Proof.
  unfold expandPath. destruct f as [|c t]; [reflexivity|].
  destruct (Ascii.eqb_spec "~" c) as [<-|Hne].
  - now rewrite (prefix_append "~" t : Str.startsWith (String "~" t) "~" = true).
  - assert (Hs : Str.startsWith (String c t) "~" = false).
    { unfold Str.startsWith. cbn [String.prefix].
      destruct (ascii_dec "~" c) as [E|_]; [now elim Hne | reflexivity]. }
    rewrite Hs. unfold RegExp.replace. rewrite exec_bol, run_chr_cons.
    now rewrite (proj2 (Ascii.eqb_neq "~" c) Hne).
Qed.

(** The fields of a connection that passes the validation can be read
    back from their lines. *)
Lemma isValidHost_value (h : string) :
  isValidHost h = true ->
  Str.truthy h = true /\ Str.forallb Shape.value_char h = true.
Proof.
  rewrite ValidatorFacts.isValidHost_test.
  destruct h as [|a t]; [discriminate|]. intros H. split; [reflexivity|].
  apply andb_prop in H as [Ha H]. cbn [Str.forallb].
  assert (Hcls : forall c, alnum_or ".-" c = true ->
                           Shape.value_char c = true).
  { intros c. revert c. check_chars. }
  rewrite (Hcls a (ValidatorFacts.alnum_host_char a Ha)). cbn [andb].
  apply orb_prop in H as [H|H].
  - destruct (ValidatorFacts.ends_with_elim _ _ _ H)
      as (m & z & -> & Hm & Hz).
    rewrite forallb_snoc, (ConfigFacts.forallb_imp _ _ m Hcls Hm).
    now rewrite (Hcls z (ValidatorFacts.alnum_host_char z Hz)).
  - destruct t; [reflexivity | discriminate].
Qed.

Lemma isValidUser_value (u : string) :
  isValidUser u = true ->
  Str.truthy u = true /\ Str.forallb Shape.value_char u = true.
Proof.
  rewrite ValidatorFacts.isValidUser_test.
  destruct u as [|c t]; [discriminate|]. intros H. split; [reflexivity|].
  apply andb_prop in H as [Hc Ht]. cbn [Str.forallb].
  rewrite (ConfigFacts.forallb_imp (alnum_or "_-") Shape.value_char t)
    by (exact Ht || (intros x Hx; apply field_value_char;
                     now rewrite Hx, orb_true_r)).
  rewrite andb_true_r.
  revert c Hc. check_chars.
Qed.

Lemma identity_value (homedir cwd f : string) :
  isValidIdentityFile homedir cwd f = true ->
  Str.truthy f = true /\ Str.forallb Shape.value_char f = true.
Proof.
  intros H.
  destruct (SanitizeFacts.isValidIdentityFile_chars _ _ _ H)
    as (c & t & -> & Hc & Ht).
  split; [reflexivity|]. cbn [Str.forallb].
  rewrite (field_value_char c) by now rewrite Hc, !orb_true_r.
  cbn [andb].
  apply (ConfigFacts.forallb_imp (alnum_or "._/-")); [|exact Ht].
  intros x Hx. apply field_value_char. now rewrite Hx.
Qed.

Lemma port_value (z : Z) :
  (0 < z)%Z ->
  Str.truthy (Num.Z_toString z) = true
  /\ Str.forallb Shape.value_char (Num.Z_toString z) = true.
Proof.
  intros Hz. unfold Num.Z_toString. destruct z as [|p|p]; try lia.
  split.
  - destruct (PortFacts.digits_head (Z.to_N (Zpos p))) as (c & t & -> & _).
    reflexivity.
  - apply (ConfigFacts.forallb_imp Str.is_digit);
      [|apply ConnectionIdFacts.forallb_digits].
    intros c. revert c. check_chars.
Qed.

Lemma value_no_LF (v : string) :
  Str.forallb Shape.value_char v = true ->
  Str.forallb (fun x => negb (Ascii.eqb x Str.LF)) v = true.
Proof.
  apply ConfigFacts.forallb_imp. intros c.
  revert c. check_chars.
Qed.

(** The lines of an entry: a line [Key value] ends where its line
    feed stands. *)
Lemma split_on_body (key v rest cur : string) :
  Str.forallb (fun x => negb (Ascii.eqb x Str.LF)) key = true ->
  Str.forallb Shape.value_char v = true ->
  split_on_from Str.LF cur (key ++ v ++ Str.nl ++ rest)
  = (cur ++ key ++ v) :: split_on_from Str.LF "" rest.
Proof.
  intros Hk Hv.
  replace (key ++ v ++ Str.nl ++ rest)
    with ((key ++ v) ++ String Str.LF rest)
    by (unfold Str.nl; cbn [append]; now rewrite !append_assoc).
  rewrite split_on_line; [reflexivity|].
  now rewrite forallb_append, Hk, value_no_LF.
Qed.

(** ** Reading the entry back *)

Lemma no_LF_value (s : string) :
  Spec.no_LF s = true ->
  Str.forallb (fun x => negb (Ascii.eqb x Str.LF)) s = true.
Proof.
  apply ConfigFacts.forallb_imp. intros c H.
  now rewrite Ascii.eqb_sym.
Qed.

(** The lines of the indented part of an entry. *)
Lemma split_indented (bodies : list string) :
  List.forallb Spec.no_LF bodies = true ->
  split_on_from Str.LF "" (Spec.indented bodies)
  = (List.map (fun b => ("  " ++ b)%string) bodies ++ [""])%list.
Proof.
  induction bodies as [|b bodies IH]; [reflexivity|].
  cbn [List.forallb]. intros H. apply andb_prop in H as [Hb Hbs].
  cbn [Spec.indented List.map List.app].
  replace ("  " ++ b ++ Str.nl ++ Spec.indented bodies)
    with (("  " ++ b) ++ String Str.LF (Spec.indented bodies))
    by (unfold Str.nl; cbn [append]; rewrite ?append_assoc; reflexivity).
  rewrite split_on_line, (IH Hbs); [reflexivity|].
  cbn [append Str.forallb]. cbn [Ascii.eqb Bool.eqb negb andb].
  change (Ascii.eqb " " Str.LF) with false. cbn [negb andb].
  now apply no_LF_value.
Qed.

Lemma split_entry (alias : string) (bodies : list string) :
  Spec.no_LF alias = true ->
  List.forallb Spec.no_LF bodies = true ->
  split_on_from Str.LF ""
    (Str.nl ++ Str.nl ++ marker ++ Str.nl
     ++ "Host " ++ alias ++ Str.nl ++ Spec.indented bodies)
  = ("" :: "" :: marker :: ("Host " ++ alias)%string
     :: List.map (fun b => ("  " ++ b)%string) bodies ++ [""])%list.
Proof.
  intros Ha Hb.
  change (Str.nl ++ Str.nl ++ marker ++ Str.nl
          ++ "Host " ++ alias ++ Str.nl ++ Spec.indented bodies)
    with (String Str.LF (String Str.LF
            (marker ++ String Str.LF
               ("Host " ++ alias ++ Str.nl ++ Spec.indented bodies)))).
  cbn [split_on_from]. change (Ascii.eqb Str.LF Str.LF) with true.
  cbv iota. rewrite split_on_line by reflexivity.
  replace ("Host " ++ alias ++ Str.nl ++ Spec.indented bodies)
    with (("Host " ++ alias) ++ String Str.LF (Spec.indented bodies))
    by (unfold Str.nl; cbn [append]; rewrite ?append_assoc; reflexivity).
  rewrite split_on_line, split_indented by
    (exact Hb || (cbn [append Str.forallb]; now apply no_LF_value)).
  reflexivity.
Qed.

(** Reading the text of a first run. *)
Lemma parse_new_entry (homedir cwd : string) (fts : Q -> string)
    (info : SSHConnectionInfo) (z : Z) :
  valid (validateConnectionInfo homedir cwd fts info) = true ->
  port info = Num.of_Z z ->
  parseSshConfig homedir
    (Str.nl ++ Str.nl ++ marker ++ Str.nl ++ newEntry fts info)
  = [{| ph_name := generateSSHConfigAlias info;
        ph_host := host info;
        ph_user := Some (user info);
        ph_port := if nonstandard_port info then Some (port info) else None;
        ph_identityFile :=
          option_map (expandPath homedir) (Spec.identity_set info) |}].
Proof.
  intros Hvalid Hport.
  destruct (SanitizeFacts.validate_fields _ _ _ _ Hvalid)
    as (Hh & Hu & Hp & Hi).
  rewrite Hport, PortFacts.isValidPort_of_Z in Hp.
  apply andb_prop in Hp as [Hz _]. apply Z.ltb_lt in Hz.
  destruct (isValidHost_value _ Hh) as [Hh1 Hh2].
  destruct (isValidUser_value _ Hu) as [Hu1 Hu2].
  destruct (port_value z Hz) as [Hp1 Hp2].
  pose proof (ConfigFacts.alias_word info) as Hw.
  assert (Ha : Str.truthy (generateSSHConfigAlias info) = true)
    by reflexivity.
  assert (Hvl : forall v, Str.forallb Shape.value_char v = true ->
                          Spec.no_LF v = true).
  { intros v Hv. apply (ConfigFacts.forallb_imp Shape.value_char);
      [|exact Hv].
    check_chars. }
  assert (Hkey : forall key v, Spec.no_LF key = true ->
                   Str.forallb Shape.value_char v = true ->
                   Spec.no_LF (key ++ v) = true).
  { intros key v Hk Hv. unfold Spec.no_LF in *.
    now rewrite forallb_append, Hk, (Hvl v Hv). }
  unfold parseSshConfig, split_on.
  rewrite ConfigFacts.newEntry_lines.
  assert (Hid : forall f, Spec.identity_set info = Some f ->
                  Str.truthy f = true
                  /\ Str.forallb Shape.value_char f = true).
  { intros f Hf. exact (identity_value _ _ _ (Hi f Hf)). }
  clear Hi Hvalid. revert Hid. unfold Spec.body_lines, Spec.identity_set.
  rewrite Hport, String_of_Z.
  set (alias := generateSSHConfigAlias info) in *.
  assert (Hal : Spec.no_LF alias = true).
  { apply Hvl. exact (ConfigFacts.forallb_imp _ _ _ word_value_char Hw). }
  destruct (identityFile info) as [f|]; [destruct (Str.truthy f) eqn:Hf|];
    destruct (nonstandard_port info); intros Hid;
    try (destruct (Hid f eq_refl) as [Hf1 Hf2]);
    cbn [List.app option_map];
    (rewrite split_entry;
     [| exact Hal
      | cbn [List.forallb]; rewrite ?Hkey by (reflexivity || assumption);
        reflexivity ]);
    cbn [List.map List.app List.fold_left];
    rewrite !line_empty, line_marker, line_host by assumption.
  all: cbn [push_current];
    change ("  " ++ "HostName " ++ host info)
      with ("  HostName " ++ host info);
    change ("  " ++ "User " ++ user info) with ("  User " ++ user info);
    rewrite line_hostname, line_user by assumption;
    cbn [ph_name ph_host ph_user ph_port ph_identityFile].
  all: try (change ("  " ++ "Port " ++ Num.Z_toString z)
              with ("  Port " ++ Num.Z_toString z);
            rewrite line_port by assumption;
            cbn [ph_name ph_host ph_user ph_port ph_identityFile];
            rewrite <- (append_nil_r (Num.Z_toString z)) at 1;
            rewrite PortFacts.parseInt10_Z_toString by reflexivity).
  all: try (change ("  " ++ "IdentityFile " ++ f)
              with ("  IdentityFile " ++ f);
            rewrite line_identity by assumption;
            cbn [ph_name ph_host ph_user ph_port ph_identityFile];
            rewrite replace_home).
  all: cbn [push_current ph_host]; rewrite Hh1; reflexivity.
Qed.

End ImportFacts.

(* ------------------------------------------------------------------ *)
(** * Facts about the stored lists *)
(* ------------------------------------------------------------------ *)

Module StoreFacts.

Lemma slice0_firstn {A : Type} (l : list A) (end_ : number) :
  exists n, slice0 l end_ = List.firstn n l.
Proof. unfold slice0. eauto. Qed.

(** A limit that is a natural number keeps that many entries. *)
Lemma slice0_nat {A : Type} (l : list A) (n : nat) :
  slice0 l (Num.of_Z (Z.of_nat n)) = List.firstn n l.
Proof.
  unfold slice0, Num.of_Z, truncate, inject_Z. cbn [Qnum Qden].
  rewrite Z.quot_1_r.
  destruct (Z.ltb_spec (Z.of_nat n) 0) as [H|_]; [lia|].
  destruct (Nat.le_gt_cases n (List.length l)) as [Hle|Hgt].
  - now rewrite Z.min_l, Nat2Z.id by lia.
  - rewrite Z.min_r, Nat2Z.id by lia.
    now rewrite !List.firstn_all2 by lia.
Qed.

Lemma same_connection_stamp (r c : RecentConnection) (now : number) :
  same_connection r
    {| rc_host := rc_host c; rc_user := rc_user c; rc_port := rc_port c;
       rc_identityFile := rc_identityFile c; rc_timestamp := now;
       rc_fleetName := rc_fleetName c; rc_vesselName := rc_vesselName c |}
  = same_connection r c.
Proof. reflexivity. Qed.

Lemma In_firstn {A : Type} (n : nat) (l : list A) (x : A) :
  List.In x (List.firstn n l) -> List.In x l.
Proof.
  revert l. induction n as [|n IH]; intros [|a l]; cbn; try tauto.
  intros [->|H]; [now left | right; now apply IH].
Qed.

Lemma distinct_firstn (n : nat) (l : list RecentConnection) :
  Shape.distinct_connections l = true ->
  Shape.distinct_connections (List.firstn n l) = true.
Proof.
  revert l. induction n as [|n IH]; intros [|a l]; cbn; try reflexivity.
  intros H. apply andb_prop in H as [Ha Hl]. rewrite (IH _ Hl), andb_true_r.
  apply List.forallb_forall. intros x Hx.
  apply In_firstn in Hx.
  exact (proj1 (List.forallb_forall _ _) Ha x Hx).
Qed.

Lemma distinct_filter (p : RecentConnection -> bool)
    (l : list RecentConnection) :
  Shape.distinct_connections l = true ->
  Shape.distinct_connections (List.filter p l) = true.
Proof.
  induction l as [|a l IH]; [reflexivity|]. cbn.
  intros H. apply andb_prop in H as [Ha Hl].
  destruct (p a); [|now apply IH]. cbn. rewrite (IH Hl), andb_true_r.
  apply List.forallb_forall. intros x Hx.
  apply List.filter_In in Hx as [Hx _].
  exact (proj1 (List.forallb_forall _ _) Ha x Hx).
Qed.

End StoreFacts.

(* ------------------------------------------------------------------ *)
(** * Facts about the remote session and the forms *)
(* ------------------------------------------------------------------ *)

Module SessionFacts.
Import StrFacts RegexFacts ValidatorFacts.

(** The alias [saveCurrentFolder] expects is the alias of the tree
    item of the vessel. *)
Lemma expectedAlias_item (fleet : Fleet) (vessel : Vessel)
    (harborDefaults : HarborDefaults) (settings : SSHarborSettings) :
  expectedAlias fleet vessel
  = generateSSHConfigAlias
      (VesselItem_connectionInfo vessel fleet harborDefaults settings).
Proof. reflexivity. Qed.

Lemma find_in_fleet_some (config : HarborConfig)
    (settings : SSHarborSettings) (sshHost : string) (fleet : Fleet)
    (vessels : list Vessel) (vessel : Vessel) :
  List.In vessel vessels ->
  expectedAlias fleet vessel = sshHost ->
  exists vessel',
    List.In vessel' vessels
    /\ expectedAlias fleet vessel' = sshHost
    /\ find_in_fleet config settings sshHost fleet vessels
       = let info := VesselItem_connectionInfo vessel' fleet
                       (defaults_or_empty config) settings in
         Some {| ci_host := host info; ci_user := user info;
                 ci_port := port info |}.
Proof.
  intros Hin Halias. induction vessels as [|v vessels IH]; [easy|].
  cbn [find_in_fleet].
  destruct (String.eqb_spec sshHost (expectedAlias fleet v)) as [E|Hne].
  - exists v. split; [now left|]. split; [now symmetry | reflexivity].
  - destruct Hin as [->|Hin]; [now elim Hne|].
    destruct (IH Hin) as (v' & Hv' & Ha & Hf).
    exists v'. split; [now right|]. now split.
Qed.

Lemma find_in_fleet_in (config : HarborConfig)
    (settings : SSHarborSettings) (sshHost : string) (fleet : Fleet)
    (vessels : list Vessel) (found : ConnectionId) :
  find_in_fleet config settings sshHost fleet vessels = Some found ->
  exists vessel',
    List.In vessel' vessels
    /\ expectedAlias fleet vessel' = sshHost
    /\ found
       = let info := VesselItem_connectionInfo vessel' fleet
                       (defaults_or_empty config) settings in
         {| ci_host := host info; ci_user := user info;
            ci_port := port info |}.
Proof.
  induction vessels as [|v vessels IH]; [discriminate|].
  cbn [find_in_fleet].
  destruct (String.eqb_spec sshHost (expectedAlias fleet v)) as [E|Hne].
  - intros [= <-]. exists v. split; [now left|]. now split.
  - intros H. destruct (IH H) as (v' & Hv' & Ha & Hf).
    exists v'. split; [now right|]. now split.
Qed.

Lemma find_in_fleets_some (config : HarborConfig)
    (settings : SSHarborSettings) (sshHost : string) (fleets : list Fleet)
    (fleet : Fleet) (vessel : Vessel) :
  List.In fleet fleets -> List.In vessel (f_vessels fleet) ->
  expectedAlias fleet vessel = sshHost ->
  exists fleet' vessel',
    List.In fleet' fleets /\ List.In vessel' (f_vessels fleet')
    /\ expectedAlias fleet' vessel' = sshHost
    /\ find_in_fleets config settings sshHost fleets
       = let info := VesselItem_connectionInfo vessel' fleet'
                       (defaults_or_empty config) settings in
         Some {| ci_host := host info; ci_user := user info;
                 ci_port := port info |}.
Proof.
  intros Hf Hv Halias. induction fleets as [|f fleets IH]; [easy|].
  cbn [find_in_fleets].
  destruct (find_in_fleet config settings sshHost f (f_vessels f))
    as [found|] eqn:E.
  - destruct (find_in_fleet_in _ _ _ _ _ _ E) as (v' & Hv' & Ha & ->).
    exists f, v'. split; [now left|]. now repeat split.
  - destruct Hf as [->|Hf].
    + destruct (find_in_fleet_some config settings sshHost fleet
                  (f_vessels fleet) vessel Hv Halias) as (v' & _ & _ & Hs).
      rewrite Hs in E. discriminate E.
    + destruct (IH Hf) as (f' & v' & Hf' & Hv' & Ha & Hs).
      exists f', v'. split; [now right|]. now repeat split.
Qed.

(** The authority of the window of a vessel gives its alias back. *)
Lemma authority_alias (alias : string) :
  replace_string "ssh-remote+" "" ("ssh-remote+" ++ alias) = alias.
Proof.
  unfold replace_string.
  exact (ConfigFacts.replace_string_first "ssh-remote+" "" alias eq_refl
           "" "" eq_refl).
Qed.

(** [parseInt] gives an integer or [NaN]. *)
Lemma parseInt10_integer (s : string) :
  Num.parseInt10 s = NaN \/ exists z, Num.parseInt10 s = Num.of_Z z.
Proof.
  unfold Num.parseInt10.
  destruct (match Str.trimStart s with
            | String "-"%char u => (true, u)
            | String "+"%char u => (false, u)
            | _ => (false, Str.trimStart s)
            end) as [neg u].
  destruct (fst (Num.digit_prefix u)); eauto.
Qed.

(** ** [escapeHtml] *)

Lemma expand_chars_append (f : ascii -> string) (s t : string) :
  Shape.expand_chars f (s ++ t)
  = Shape.expand_chars f s ++ Shape.expand_chars f t.
Proof.
  induction s as [|c s IH]; [reflexivity|].
  cbn [append Shape.expand_chars]. now rewrite IH, append_assoc.
Qed.

Lemma expand_chars_compose (f g : ascii -> string) (s : string) :
  Shape.expand_chars g (Shape.expand_chars f s)
  = Shape.expand_chars (fun c => Shape.expand_chars g (f c)) s.
Proof.
  induction s as [|c s IH]; [reflexivity|].
  cbn [Shape.expand_chars]. now rewrite expand_chars_append, IH.
Qed.

Lemma expand_chars_ext (f g : ascii -> string) (s : string) :
  (forall c, f c = g c) -> Shape.expand_chars f s = Shape.expand_chars g s.
Proof.
  intros H. induction s as [|c s IH]; [reflexivity|].
  cbn [Shape.expand_chars]. now rewrite H, IH.
Qed.

Lemma escapeHtml_expand (text : string) :
  escapeHtml text = Shape.expand_chars Shape.entity text.
Proof.
  unfold escapeHtml, Chr. cbv zeta.
  rewrite !SanitizeFacts.replaceAll_cls_text by reflexivity.
  rewrite !expand_chars_compose. apply expand_chars_ext.
  intros c. apply String.eqb_eq. revert c.
  apply ValidatorFacts.all_chars_spec. vm_compute. reflexivity.
Qed.

Lemma entity_inert (c : ascii) :
  Str.forallb Shape.html_inert (Shape.entity c) = true.
Proof.
  revert c. apply ValidatorFacts.all_chars_spec. vm_compute. reflexivity.
Qed.

(** ** The keys of the saved folders *)

(** The key of a host, a user and an integer port is read back by
    [parseConnectionId]. *)
Lemma parse_key (fts : Q -> string) (h u : string) (z : Z) :
  Str.truthy u = true -> Str.includes u "@" = false ->
  Str.truthy h = true -> Str.includes h ":" = false ->
  (0 <= z)%Z ->
  parseConnectionId (getVesselKey fts h u (Num.of_Z z))
  = Some {| ci_host := h; ci_user := u; ci_port := Num.of_Z z |}.
Proof.
  intros Hu Hu' Hh Hh' Hz. unfold parseConnectionId, getVesselKey.
  rewrite ConnectionIdFacts.exec_connection_id. cbv zeta.
  assert (Hport : String_ fts (Num.of_Z z) = Num.digits (Z.to_N z)).
  { rewrite ImportFacts.String_of_Z. unfold Num.Z_toString.
    destruct z; try reflexivity. lia. }
  rewrite Hport.
  apply includes_char in Hu', Hh'.
  rewrite (span_app _ u ("@" ++ h ++ ":" ++ Num.digits (Z.to_N z)))
    by (assumption || reflexivity).
  cbn [fst snd]. destruct u as [|u0 u]; [discriminate|].
  cbn [append]. rewrite Ascii.eqb_refl.
  rewrite (span_app _ h (":" ++ Num.digits (Z.to_N z)))
    by (assumption || reflexivity).
  cbn [fst snd]. destruct h as [|h0 h]; [discriminate|].
  cbn [append]. rewrite Ascii.eqb_refl.
  assert (Hsp : span Str.is_digit (Num.digits (Z.to_N z))
                = (Num.digits (Z.to_N z), "")).
  { rewrite <- (append_nil_r (Num.digits (Z.to_N z))) at 1.
    apply span_app; [apply ConnectionIdFacts.forallb_digits | reflexivity]. }
  rewrite Hsp. cbn [fst snd].
  pose proof (PortFacts.parseInt10_digits (Z.to_N z) "" eq_refl) as Hp.
  rewrite append_nil_r, Z2N.id in Hp by lia.
  destruct (PortFacts.digits_head (Z.to_N z)) as (c & t & E & _).
  rewrite E in *. unfold RegExp.group. cbn. now rewrite Hp.
Qed.

Lemma isValidUser_no_at (u : string) :
  isValidUser u = true ->
  Str.truthy u = true /\ Str.includes u "@" = false.
Proof.
  intros H. destruct (ImportFacts.isValidUser_value u H) as [Ht Hc].
  split; [exact Ht|]. apply includes_char.
  rewrite ValidatorFacts.isValidUser_test in H.
  destruct u as [|c t]; [discriminate|].
  apply andb_prop in H as [H0 H1]. cbn [Str.forallb].
  rewrite (ConfigFacts.forallb_imp (alnum_or "_-") _ t)
    by (exact H1 || check_chars).
  rewrite andb_true_r.
  generalize H0. generalize c. check_chars.
Qed.

Lemma isValidHost_no_colon (h : string) :
  isValidHost h = true ->
  Str.truthy h = true /\ Str.includes h ":" = false.
Proof.
  intros H. destruct (ValidatorFacts.isValidHost_chars h H) as [Ht Hc].
  split; [exact Ht|]. apply includes_char.
  apply (ConfigFacts.forallb_imp (alnum_or ".-")); [|exact Hc].
  check_chars.
Qed.

End SessionFacts.

(* ------------------------------------------------------------------ *)
(** * What the reader of SSH configurations never returns *)
(* ------------------------------------------------------------------ *)

Module ImportInvariant.
Import StrFacts RegexFacts ImportFacts.

(** A match that goes through a class, or through the star of a
    class, ends in the continuation, with the groups it had. *)
Lemma run_cls_result (ml : bool) (p : ascii -> bool) (c : cursor)
    (caps : captures) (k : cont) (res : cursor * captures) :
  run ml (Cls p) c caps k = Some res ->
  exists c', k c' caps = Some res.
Proof.
  cbn [run]. destruct (after c) as [|a rest]; [discriminate|].
  destruct (p a); [eauto | discriminate].
Qed.

Lemma star_cls_result (ml : bool) (p : ascii -> bool) (k : cont)
    (res : cursor * captures) :
  forall (fuel : nat) (c : cursor) (caps : captures),
    star_loop fuel (run ml (Cls p)) c caps k = Some res ->
    exists c', k c' caps = Some res.
Proof.
  induction fuel as [|fuel IH]; intros c caps; [cbn; eauto|].
  rewrite star_loop_step.
  destruct (run ml (Cls p) c caps
              (fun c' caps' =>
                 if (String.length (after c') <? String.length (after c))%nat
                 then star_loop fuel (run ml (Cls p)) c' caps' k
                 else None)) as [res'|] eqn:E.
  - intros [= ->]. apply run_cls_result in E as [c' E].
    destruct (String.length (after c') <? String.length (after c))%nat;
      [|discriminate].
    now apply IH in E.
  - eauto.
Qed.

(** The two groups of a line that matches: a key and a value, neither
    of them empty. *)
Lemma exec_key_value_groups (s : string) (m : result) :
  RegExp.exec false re_key_value s = Some m ->
  exists key value,
    RegExp.group 1 m = Some key /\ RegExp.group 2 m = Some value
    /\ Str.truthy value = true.
Proof.
  unfold re_key_value. rewrite exec_bol, run_seq.
  rewrite run_grp_plus_cls by apply needs_stop_after_key.
  destruct (fst (span Str.is_word s)) as [|a key]; [discriminate|].
  cbv zeta.
  match goal with
  | |- context [run false ?r ?c ?caps accept] =>
      destruct (run false r c caps accept) as [[c' caps']|] eqn:E;
        [|discriminate]
  end.
  intros [= <-]. cbn [m_caps].
  rewrite run_seq, run_star in E.
  apply star_cls_result in E as [c2 E].
  rewrite run_seq in E. apply run_cls_result in E as [c3 E].
  rewrite run_seq, run_star in E.
  apply star_cls_result in E as [c4 E].
  destruct c4 as [bef4 aft4].
  rewrite run_seq, run_grp_plus_cls in E by apply needs_stop_eol.
  destruct (fst (span (fun c => negb (Str.is_line_terminator c)) aft4))
    as [|b value]; [discriminate|].
  cbv zeta in E. rewrite run_eol in E.
  destruct (snd (span (fun c => negb (Str.is_line_terminator c)) aft4));
    [|discriminate].
  injection E as <- <-.
  exists (String a key), (String b value). repeat split.
Qed.

Lemma push_current_ok (hosts : list ParsedSshHost)
    (currentHost : option ParsedSshHost) :
  Shape.state_ok (hosts, currentHost) = true ->
  List.forallb Shape.importable (push_current hosts currentHost) = true.
Proof.
  unfold Shape.state_ok. cbn [fst snd]. intros H.
  apply andb_prop in H as [Hh Hc]. unfold push_current, push.
  destruct currentHost as [h|]; [|exact Hh].
  destruct (Str.truthy (ph_host h)); [|exact Hh].
  rewrite List.forallb_app, Hh. cbn. now rewrite Hc.
Qed.

Lemma line_ok (homedir : string)
    (state : list ParsedSshHost * option ParsedSshHost) (line : string) :
  Shape.state_ok state = true ->
  Shape.state_ok (parseSshConfig_line homedir state line) = true.
Proof.
  intros Hok. destruct state as [hosts cur]. unfold parseSshConfig_line.
  destruct (Str.startsWith (Str.trim line) "#"
            || String.eqb (Str.trim line) ""); [exact Hok|].
  destruct (RegExp.exec false re_key_value (Str.trim line)) as [m|] eqn:Hm;
    [|exact Hok].
  destruct (exec_key_value_groups _ _ Hm) as (key & value & -> & -> & Hv).
  cbv zeta.
  destruct (String.eqb (toLowerCase key) "host").
  - pose proof (push_current_ok _ _ Hok) as Hpush.
    destruct (Str.includes value "*" || Str.includes value "?") eqn:Hw;
      unfold Shape.state_ok; cbn [fst snd]; rewrite Hpush; [reflexivity|].
    apply orb_false_elim in Hw as [Hs Hq].
    unfold Shape.importable. cbn [ph_name ph_host].
    now rewrite Hv, Hs, Hq.
  - unfold Shape.state_ok in Hok. cbn [fst snd] in Hok.
    apply andb_prop in Hok as [Hh Hc].
    destruct cur as [h|];
      [|unfold Shape.state_ok; cbn [fst snd]; now rewrite Hh].
    unfold Shape.importable in Hc.
    apply andb_prop in Hc as [Hc Hhost].
    repeat match goal with
           | |- context [if ?b then _ else _] => destruct b
           end;
      unfold Shape.state_ok; cbn [fst snd]; rewrite Hh;
      unfold Shape.importable; cbn [ph_name ph_host];
      rewrite Hc, ?Hv, ?Hhost; reflexivity.
Qed.

Lemma fold_ok (homedir : string) (lines : list string) :
  forall state,
    Shape.state_ok state = true ->
    Shape.state_ok (List.fold_left (parseSshConfig_line homedir) lines state)
    = true.
Proof.
  induction lines as [|l lines IH]; intros state H; [exact H|].
  cbn [List.fold_left]. apply IH. now apply line_ok.
Qed.

Lemma parseSshConfig_ok (homedir content : string) :
  List.forallb Shape.importable (parseSshConfig homedir content) = true.
Proof.
  unfold parseSshConfig.
  pose proof (fold_ok homedir (split_on Str.LF content) ([], None) eq_refl)
    as H.
  destruct (List.fold_left _ _ _) as [hosts cur].
  now apply push_current_ok.
Qed.

End ImportInvariant.

(* ------------------------------------------------------------------ *)
(** * Rewriting an entry *)
(* ------------------------------------------------------------------ *)

Module RewriteFacts.
Import StrFacts RegexFacts ConfigFacts.

(** A text that holds the entry of a connection right after the
    marker gets the entry of another connection with the same alias
    in its place. *)
Lemma updatedConfig_replace (fts : Q -> string)
    (info info' : SSHConnectionInfo) (p s : string) :
  Spec.plain_fields fts info = true ->
  Spec.plain_fields fts info' = true ->
  generateSSHConfigAlias info' = generateSSHConfigAlias info ->
  Str.includes (p ++ marker ++ s)
    ("Host " ++ generateSSHConfigAlias info) = false ->
  Str.absent_in marker p (marker ++ s) = true ->
  Str.startsWith s "  " = false ->
  updatedConfig fts info' (p ++ marker ++ Str.nl ++ newEntry fts info ++ s)
  = p ++ marker ++ Str.nl ++ newEntry fts info' ++ s.
Proof.
  intros Hplain Hplain' Halias Hinc Habs Hs. unfold updatedConfig.
  pose proof (template_plain fts info' Hplain') as Htemplate.
  rewrite Halias.
  rewrite (newEntry_lines fts info).
  set (alias := generateSSHConfigAlias info) in *.
  set (bodies := Spec.body_lines fts info) in *.
  assert (Hlf : Spec.no_LF ("Host " ++ alias) = true)
    by apply (forallb_imp _ _ _ plain_no_LF (host_line_plain info)).
  destruct (indented_plain _ (body_lines_plain fts info Hplain))
    as [Hbodies _]. fold bodies in Hbodies.
  assert (Hshape :
    p ++ marker ++ Str.nl
      ++ ("Host " ++ alias ++ Str.nl ++ Spec.indented bodies) ++ s
    = (p ++ marker) ++ Str.nl ++ ("Host " ++ alias) ++ Str.nl
      ++ Spec.indented bodies ++ s).
  { now rewrite !append_assoc. }
  rewrite Hshape.
  rewrite test_entry_present.
  rewrite remove_entry;
    [| exact Hlf | now rewrite append_assoc | exact Hs | exact Hbodies].
  rewrite (append_assoc p marker s), includes_mid.
  unfold replace_string. rewrite replace_string_first by assumption.
  now rewrite !append_assoc.
Qed.

End RewriteFacts.

(* ------------------------------------------------------------------ *)
(** * Facts about connection strings *)
(* ------------------------------------------------------------------ *)

Module QuickFacts.
Import StrFacts RegexFacts ValidatorFacts.

(** A text without white space is its own trimmed text. *)
Lemma trim_no_space (s : string) :
  Str.forallb (fun c => negb (Str.is_space c)) s = true -> Str.trim s = s.
Proof.
  intros H. unfold Str.trim.
  assert (Hstart : Str.trimStart s = s).
  { unfold Str.trimStart. destruct s as [|a s]; [reflexivity|].
    cbn in *. apply andb_prop in H as [Ha _].
    apply negb_true_iff in Ha. now rewrite Ha. }
  rewrite Hstart. destruct s as [|a s]; [reflexivity|].
  destruct (ImportFacts.snoc_cases (String a s) eq_refl) as (u & z & E).
  rewrite E in *. rewrite ImportFacts.forallb_snoc in H.
  apply andb_prop in H as [_ Hz]. apply negb_true_iff in Hz.
  now apply ImportFacts.trimEnd_last.
Qed.

(** What follows the host in the pattern cannot begin with a character
    other than [:]. *)
Lemma needs_stop_port (r : regex) (k : cont) :
  needs_stop (fun x => negb (Ascii.eqb ":" x))
    (fun c caps =>
       run false (Seq (Opt (Seq (Chr ":") r)) Eol) c caps k).
Proof.
  intros bef a rest caps Ha. apply negb_true_iff in Ha.
  unfold Opt. rewrite run_seq, run_alt, run_seq, run_chr_cons, Ha.
  reflexivity.
Qed.

(** The host and the port of a connection string. *)
Lemma run_host_port (h : string) (d : option string) (bef : string)
    (caps : captures) :
  Str.truthy h = true ->
  Str.forallb (fun x => negb (Ascii.eqb ":" x)) h = true ->
  match d with
  | Some t => Str.truthy t = true /\ Str.forallb Str.is_digit t = true
  | None => True
  end ->
  exists c',
    run false
      (Seq (Grp 2 (Plus (Not ":")))
         (Seq (Opt (Seq (Chr ":") (Grp 3 (Plus (Cls Str.is_digit))))) Eol))
      (Cursor bef (h ++ match d with Some t => ":" ++ t | None => "" end))
      caps accept
    = Some (c', (match d with Some t => [(3, t)] | None => [] end
                 ++ (2, h) :: caps)%list).
Proof.
  intros Hh Hc Hd. unfold Not.
  rewrite run_seq, run_grp_plus_cls by apply needs_stop_port.
  rewrite (span_app _ h) by (exact Hc || (destruct d; reflexivity)).
  cbn [fst snd]. destruct h as [|h0 h]; [discriminate|].
  unfold Opt. rewrite run_seq, run_alt, run_seq.
  destruct d as [t|].
  - destruct Hd as [Ht Hdig].
    change (":" ++ t) with (String ":" t).
    rewrite run_chr_cons, Ascii.eqb_refl.
    rewrite run_grp_plus_cls by apply needs_stop_eol.
    assert (Hsp : span Str.is_digit t = (t, "")).
    { rewrite <- (append_nil_r t) at 1.
      apply span_app; [exact Hdig | reflexivity]. }
    rewrite Hsp. cbn [fst snd]. destruct t as [|t0 t]; [discriminate|].
    rewrite run_eol. unfold accept. cbn [List.app]. eauto.
  - unfold Chr. cbn [run after at_eol List.app]. unfold accept. eauto.
Qed.

(** The user part of the pattern finds nothing in a text without
    [@]. *)
Lemma run_user_none (s bef : string) (caps : captures) (k : cont) :
  Str.forallb (fun x => negb (Ascii.eqb "@" x)) s = true ->
  run false (Seq (Grp 1 (Plus (Not "@"))) (Chr "@")) (Cursor bef s) caps k
  = None.
Proof.
  intros H. unfold Not.
  rewrite run_seq, run_grp_plus_cls
    by (apply needs_stop_chr1, ConnectionIdFacts.not_self).
  assert (Hsp : span (fun x => negb (Ascii.eqb "@" x)) s = (s, "")).
  { rewrite <- (append_nil_r s) at 1.
    apply span_app; [exact H | reflexivity]. }
  rewrite Hsp. cbn [fst snd]. destruct s; reflexivity.
Qed.

(** The pattern of [parseQuickConnect] on a connection string. *)
Lemma exec_quick (u : option string) (h : string) (d : option string) :
  match u with
  | Some t => Str.truthy t = true
              /\ Str.forallb (fun x => negb (Ascii.eqb "@" x)) t = true
  | None => True
  end ->
  Str.truthy h = true ->
  Str.forallb (fun x => negb (Ascii.eqb ":" x)) h = true ->
  Str.forallb (fun x => negb (Ascii.eqb "@" x)) h = true ->
  match d with
  | Some t => Str.truthy t = true /\ Str.forallb Str.is_digit t = true
  | None => True
  end ->
  exists m,
    RegExp.exec false re_quick
      (match u with Some t => t ++ "@" | None => "" end
       ++ h ++ match d with Some t => ":" ++ t | None => "" end)
    = Some m
    /\ RegExp.group 1 m = u
    /\ RegExp.group 2 m = Some h
    /\ RegExp.group 3 m = d.
Proof.
  intros Hu Hh Hc Ha Hd. unfold re_quick. rewrite exec_bol.
  unfold Opt at 1. rewrite run_seq, run_alt.
  destruct u as [t|].
  - destruct Hu as [Ht Hat]. unfold Not at 1.
    rewrite run_seq, run_grp_plus_cls
      by (apply needs_stop_chr1, ConnectionIdFacts.not_self).
    rewrite append_assoc.
    rewrite (span_app _ t) by (exact Hat || reflexivity).
    cbn [fst snd]. destruct t as [|t0 t]; [discriminate|].
    change ("@" ++ h ++ match d with
                        | Some t1 => ":" ++ t1
                        | None => ""
                        end)
      with (String "@" (h ++ match d with
                             | Some t1 => ":" ++ t1
                             | None => ""
                             end)).
    rewrite run_chr_cons, Ascii.eqb_refl.
    destruct (run_host_port h d
                (String "@" (Str.rev_append (String t0 t) ""))
                [(1, String t0 t)] Hh Hc Hd) as [c' ->].
    eexists. split; [reflexivity|].
    destruct d; repeat split.
  - match goal with
    | |- context [append "" ?x] => change (append "" x) with x
    end.
    rewrite run_user_none, run_eps.
    + destruct (run_host_port h d "" [] Hh Hc Hd) as [c' ->].
      eexists. split; [reflexivity|].
      destruct d; repeat split.
    + rewrite forallb_append, Ha. destruct d as [t|]; [|reflexivity].
      destruct Hd as [_ Hdig]. cbn [append Str.forallb andb].
      cbn [Ascii.eqb Bool.eqb negb andb].
      apply (ConfigFacts.forallb_imp Str.is_digit); [|exact Hdig].
      check_chars.
Qed.

(** The decimal notation of a positive integer. *)
Lemma port_digits (z : Z) :
  (0 < z)%Z ->
  Str.truthy (Num.Z_toString z) = true
  /\ Str.forallb Str.is_digit (Num.Z_toString z) = true.
Proof.
  intros Hz. unfold Num.Z_toString. destruct z as [|p|p]; try lia.
  split; [|apply ConnectionIdFacts.forallb_digits].
  destruct (PortFacts.digits_head (Z.to_N (Zpos p))) as (c & t & -> & _).
  reflexivity.
Qed.

(** The characters of a connection string: none of them is white
    space, none is removed by [sanitize]. *)
Lemma quick_chars (user : option string) (host : string) (port : option Z) :
  isValidHost host = true ->
  match user with Some u => isValidUser u = true | None => True end ->
  match port with Some z => (1 <= z <= 65535)%Z | None => True end ->
  Str.forallb (fun c => negb (Str.is_space c) && negb (dangerous c))
    (Shape.quick_text user host port) = true.
Proof.
  intros Hh Hu Hp. unfold Shape.quick_text.
  rewrite !forallb_append.
  destruct (isValidHost_chars host Hh) as [_ Hhc].
  rewrite (ConfigFacts.forallb_imp (alnum_or ".-") _ host)
    by (exact Hhc || check_chars).
  assert (Huser : Str.forallb
                    (fun c => negb (Str.is_space c) && negb (dangerous c))
                    match user with Some u => u ++ "@" | None => "" end
                  = true).
  { destruct user as [u|]; [|reflexivity].
    rewrite forallb_append, andb_true_r.
    rewrite isValidUser_test in Hu. destruct u as [|c t]; [discriminate|].
    apply andb_prop in Hu as [Hc Ht]. cbn [Str.forallb].
    rewrite (ConfigFacts.forallb_imp (alnum_or "_-") _ t)
      by (exact Ht || check_chars).
    rewrite andb_true_r. generalize Hc. generalize c. check_chars. }
  rewrite Huser. cbn [andb].
  destruct port as [z|]; [|reflexivity].
  cbn [append Str.forallb].
  destruct (port_digits z ltac:(lia)) as [_ Hd].
  rewrite (ConfigFacts.forallb_imp Str.is_digit _ (Num.Z_toString z))
    by (exact Hd || check_chars).
  reflexivity.
Qed.

End QuickFacts.

(* ------------------------------------------------------------------ *)
(** * Facts about the fleets and vessels of the document *)
(* ------------------------------------------------------------------ *)

Module FleetFacts.

Section UpdateFirst.
Context {A : Type} (p : A -> bool).

Lemma find_update_first (f : A -> A) (l : list A) :
  (forall x, p x = true -> p (f x) = true) ->
  List.find p (update_first p f l) = option_map f (List.find p l).
Proof.
  intros Hp. induction l as [|a l IH]; [reflexivity|].
  cbn [update_first List.find]. destruct (p a) eqn:Ha.
  - cbn [List.find]. now rewrite (Hp a Ha).
  - cbn [List.find]. now rewrite Ha.
Qed.

Lemma update_first_twice (f g : A -> A) (l : list A) :
  (forall x, p x = true -> p (f x) = true) ->
  update_first p g (update_first p f l)
  = update_first p (fun x => g (f x)) l.
Proof.
  intros Hp. induction l as [|a l IH]; [reflexivity|].
  cbn [update_first]. destruct (p a) eqn:Ha.
  - cbn [update_first]. now rewrite (Hp a Ha).
  - cbn [update_first]. now rewrite Ha, IH.
Qed.

Lemma update_first_id (f : A -> A) (l : list A) (x : A) :
  List.find p l = Some x -> f x = x -> update_first p f l = l.
Proof.
  intros Hfind Hx. induction l as [|a l IH]; [reflexivity|].
  cbn [update_first List.find] in *. destruct (p a).
  - injection Hfind as ->. now rewrite Hx.
  - now rewrite IH.
Qed.

Lemma update_first_In (f : A -> A) (l : list A) (x : A) :
  List.find p l = Some x -> List.In (f x) (update_first p f l).
Proof.
  induction l as [|a l IH]; [discriminate|].
  cbn [update_first List.find]. destruct (p a).
  - intros [= ->]. now left.
  - intros H. right. now apply IH.
Qed.

Lemma filter_update_first (q : A -> bool) (g : A -> A) (l : list A) (x : A) :
  List.find p l = Some x ->
  (q x = true -> g x = x) ->
  (q x = false -> q (g x) = false) ->
  List.filter q (update_first p g l) = List.filter q l.
Proof.
  intros Hfind Ht Hf. induction l as [|a l IH]; [reflexivity|].
  cbn [update_first List.find] in *. destruct (p a).
  - injection Hfind as ->. cbn [List.filter].
    destruct (q x) eqn:Hq.
    + now rewrite (Ht eq_refl), Hq.
    + now rewrite (Hf eq_refl).
  - cbn [List.filter]. now rewrite IH.
Qed.

Lemma flat_map_update_first {B : Type} (h : A -> list B) (g : A -> A)
    (l : list A) (x : A) :
  List.find p l = Some x -> h (g x) = h x ->
  List.flat_map h (update_first p g l) = List.flat_map h l.
Proof.
  intros Hfind Hx. induction l as [|a l IH]; [reflexivity|].
  cbn [update_first List.find] in *. destruct (p a).
  - injection Hfind as ->. cbn [List.flat_map]. now rewrite Hx.
  - cbn [List.flat_map]. now rewrite IH.
Qed.

Lemma find_filter_negb (l : list A) :
  List.find p (List.filter (fun x => negb (p x)) l) = None.
Proof.
  induction l as [|a l IH]; [reflexivity|].
  cbn [List.filter]. destruct (p a) eqn:Ha; cbn [negb]; [exact IH|].
  cbn [List.find]. now rewrite Ha.
Qed.

Lemma filter_negb_none (l : list A) :
  List.find p l = None -> List.filter (fun x => negb (p x)) l = l.
Proof.
  induction l as [|a l IH]; [reflexivity|].
  cbn [List.filter List.find]. destruct (p a); [discriminate|].
  intros H. cbn [negb]. now rewrite IH.
Qed.

End UpdateFirst.

Lemma set_fleets_same (config : HarborConfig) :
  set_fleets config (hc_fleets config) = config.
Proof. now destruct config. Qed.

Lemma set_fleets_twice (config : HarborConfig) (l1 l2 : list Fleet) :
  set_fleets (set_fleets config l1) l2 = set_fleets config l2.
Proof. reflexivity. Qed.

Lemma find_named (fleetName : string) (fleets : list Fleet) (fleet : Fleet) :
  List.find (fleet_named fleetName) fleets = Some fleet ->
  f_name fleet = fleetName.
Proof.
  intros H. apply List.find_some in H as [_ H].
  now apply String.eqb_eq in H.
Qed.

Lemma find_at (vesselHost : string) (vessels : list Vessel)
    (vessel : Vessel) :
  List.find (vessel_at vesselHost) vessels = Some vessel ->
  v_host vessel = vesselHost.
Proof.
  intros H. apply List.find_some in H as [_ H].
  now apply String.eqb_eq in H.
Qed.

(** Two assignments to [favorite] that end at the truth value the vessel
    had leave a favorite as it was, and another vessel not a favorite. *)
Lemma set_favorite_back (vessel : Vessel) :
  (is_favorite vessel = true ->
   set_favorite (set_favorite vessel (negb (is_favorite vessel)))
     (is_favorite vessel) = vessel)
  /\ (is_favorite vessel = false ->
      is_favorite
        (set_favorite (set_favorite vessel (negb (is_favorite vessel)))
           (is_favorite vessel)) = false).
Proof.
  destruct vessel as [n h u p i s t [[|]|] no]; cbn; split; intros H;
    try discriminate; reflexivity.
Qed.

End FleetFacts.

(* ------------------------------------------------------------------ *)
(** * Ports *)
(* ------------------------------------------------------------------ *)

(** What [isValidPort] computes.  It is true exactly when the
    coerced value (the number itself; for a string what [parseInt]
    reads in base 10: an optional sign and the longest run of leading
    digits, the rest being ignored) is not NaN, above 0 and at most
    65535.  So it is true for the integers 1..65535 and false for 0,
    negative integers and integers above 65535; false for NaN and the
    infinities; for a string made of the decimal notation of an integer
    followed by anything that does not begin with a digit, it is true
    exactly when that integer is in 1..65535; it is false for a string
    in which [parseInt] finds no number; and a string is judged as the
    number [parseInt] reads in it. *)
Theorem isValidPort_coerced :
  (forall z : Z,
     isValidPort (IsNumber (Num.of_Z z)) = true <-> (1 <= z <= 65535)%Z)
  /\ (forall q : Q,
        isValidPort (IsNumber (Finite q)) = true
        <-> (0 < q /\ q <= 65535)%Q)
  /\ isValidPort (IsNumber NaN) = false
  /\ (forall negative : bool,
        isValidPort (IsNumber (Infinity negative)) = false)
  /\ (forall (z : Z) (rest : string),
        RegExp.stops Str.is_digit rest = true ->
        (isValidPort (IsString (Num.Z_toString z ++ rest)) = true
         <-> (1 <= z <= 65535)%Z))
  /\ (forall s : string,
        Num.parseInt10 s = NaN -> isValidPort (IsString s) = false)
  /\ (forall s : string,
        isValidPort (IsString s) = isValidPort (IsNumber (Num.parseInt10 s))).
Proof.
  assert (HZ : forall z : Z,
             isValidPort (IsNumber (Num.of_Z z)) = true
             <-> (1 <= z <= 65535)%Z).
  { intros z. rewrite PortFacts.isValidPort_of_Z, andb_true_iff,
      Z.ltb_lt, Z.leb_le. lia. }
  split; [exact HZ|]. split; [|split; [|split; [|split; [|split]]]].
  - intros q. unfold isValidPort, Num.gtb, Num.ltb, Num.leb, Num.Qltb,
      Num.of_Z. cbn [Num.isNaN negb andb].
    change (inject_Z 0) with 0%Q.
    rewrite andb_true_iff, negb_true_iff, Qle_bool_iff.
    split.
    + intros [H1 H2]. split; [|exact H2].
      apply Qnot_le_lt. intros Hle. apply Qle_bool_iff in Hle.
      rewrite Hle in H1. discriminate.
    + intros [H1 H2]. split; [|exact H2].
      destruct (Qle_bool q 0) eqn:E; [|reflexivity].
      apply Qle_bool_iff in E. exfalso. now apply (Qlt_not_le _ _ H1).
  - reflexivity.
  - intros []; reflexivity.
  - intros z rest Hrest. rewrite <- HZ. unfold isValidPort at 1.
    rewrite PortFacts.parseInt10_Z_toString by assumption. reflexivity.
  - intros s Hs. unfold isValidPort. now rewrite Hs.
  - reflexivity.
Qed.

(** The string ["8080"] is accepted, being the notation of 8080. *)
Lemma isValidPort_coerced_witness :
  isValidPort (IsString (Num.Z_toString 8080 ++ "")) = true.
Proof.
  apply (proj1 (proj2 (proj2 (proj2 (proj2 isValidPort_coerced)))) 8080%Z "");
    [reflexivity | lia].
Defined.

(** C1 fails in the code.  [isValidPort] has no test for an integer
    and none for the whole string: the string [22abc] and the number
    3/2 are accepted, and neither denotes an integer of the range
    1..65535.  The number goes on as it is: [validateConnectionInfo]
    accepts a connection with the port 3/2, and [buildSSHCommand] puts
    it after [-p] in the command.  On the integers the code answers as
    the claim says. *)
Theorem isValidPort_accepts_non_integer (homedir cwd : string)
    (fractionToString : Q -> string) (w : world) :
  isValidPort (IsString "22abc") = true
  /\ Spec.denotes_port (IsString "22abc") = false
  /\ isValidPort (IsNumber (Finite (3 # 2))) = true
  /\ Spec.denotes_port (IsNumber (Finite (3 # 2))) = false
  /\ valid (validateConnectionInfo homedir cwd fractionToString
              Spec.vessel_fraction) = true
  /\ buildSSHCommand homedir cwd fractionToString Spec.vessel_fraction w
     = (Normal ("ssh -p " ++ fractionToString (3 # 2)%Q ++ " u@h.example"),
        w)
  /\ (forall z : Z,
        isValidPort (IsNumber (Num.of_Z z))
        = Spec.denotes_port (IsNumber (Num.of_Z z))).
Proof.
  split; [reflexivity|]. split; [reflexivity|]. split; [reflexivity|].
  split; [reflexivity|]. split; [reflexivity|]. split; [reflexivity|].
  intros z. rewrite PortFacts.isValidPort_of_Z.
  unfold Spec.denotes_port, Num.of_Z, Num.is_integer, Num.floor, inject_Z.
  cbn [Qnum Qden]. rewrite Z.mod_1_r, Z.div_1_r. cbn [Z.eqb andb].
  f_equal. rewrite Z.ltb_antisym, Z.leb_antisym.
  destruct (Z.ltb_spec z 1), (Z.leb_spec z 0); try reflexivity; lia.
Qed.

(* ------------------------------------------------------------------ *)
(** * The entry in the SSH configuration *)
(* ------------------------------------------------------------------ *)

(** From an empty configuration the entry is written once, and a
    second run leaves the text as it is. *)
Lemma updatedConfig_fresh (fractionToString : Q -> string) :
  let once := updatedConfig fractionToString Spec.vessel_V "" in
  once
  = Str.nl ++ Str.nl ++ marker ++ Str.nl
    ++ "Host SSHarbor_F_V" ++ Str.nl
    ++ "  HostName h.example" ++ Str.nl
    ++ "  User u" ++ Str.nl
  /\ updatedConfig fractionToString Spec.vessel_V once = once
  /\ Spec.host_lines "SSHarbor_F_V" once = 1.
Proof. repeat split; vm_compute; reflexivity. Qed.

(** C2 fails on a configuration whose last line is the [Host] line of
    the alias, without a line feed after it.  The test for an existing
    entry finds the line, the removal pattern wants a line feed after
    the alias and removes nothing: the text written has two
    [Host SSHarbor_F_V] lines, and a second run with the same input
    does not give the same text.  This is the text
    [ensureSSHConfigEntry] leaves in the file. *)
Theorem updatedConfig_unterminated_host_line
    (fractionToString : Q -> string) :
  let existing := "Host SSHarbor_F_V" in
  let once := updatedConfig fractionToString Spec.vessel_V existing in
  let twice := updatedConfig fractionToString Spec.vessel_V once in
  generateSSHConfigAlias Spec.vessel_V = "SSHarbor_F_V"
  /\ RegExp.test true (entryRegex "SSHarbor_F_V") existing = true
  /\ RegExp.replaceAll false (removeRegex "SSHarbor_F_V") "" existing
     = existing
  /\ once
     = "Host SSHarbor_F_V" ++ Str.nl ++ Str.nl ++ marker ++ Str.nl
       ++ "Host SSHarbor_F_V" ++ Str.nl
       ++ "  HostName h.example" ++ Str.nl
       ++ "  User u" ++ Str.nl
  /\ Spec.host_lines "SSHarbor_F_V" once = 2
  /\ twice
     = Str.nl ++ marker ++ Str.nl
       ++ "Host SSHarbor_F_V" ++ Str.nl
       ++ "  HostName h.example" ++ Str.nl
       ++ "  User u" ++ Str.nl
  /\ twice <> once
  /\ (let w := ensureSSHConfigEntry "/home/testuser" fractionToString
                 Spec.vessel_V (Spec.world_with_config existing) in
      fst w = Normal "SSHarbor_F_V"
      /\ files (snd w) "/home/testuser/.ssh/config" = Some (File once)).
Proof.
  repeat split; try (vm_compute; reflexivity).
  vm_compute. discriminate.
Qed.

(** The same happens with an entry whose lines end in carriage return
    and line feed: [$] stands before the carriage return, the removal
    pattern does not, and the old entry stays beside the new one. *)
Lemma updatedConfig_crlf_entry (fractionToString : Q -> string) :
  let cr := String Str.CR "" in
  let existing :=
    "Host SSHarbor_F_V" ++ cr ++ Str.nl
    ++ "  HostName old.example" ++ cr ++ Str.nl in
  let once := updatedConfig fractionToString Spec.vessel_V existing in
  RegExp.test true (entryRegex "SSHarbor_F_V") existing = true
  /\ once
     = "Host SSHarbor_F_V" ++ cr ++ Str.nl
       ++ "  HostName old.example" ++ Str.nl ++ Str.nl ++ marker ++ Str.nl
       ++ "Host SSHarbor_F_V" ++ Str.nl
       ++ "  HostName h.example" ++ Str.nl
       ++ "  User u" ++ Str.nl
  /\ Spec.host_lines "SSHarbor_F_V" once = 2.
Proof. repeat split; vm_compute; reflexivity. Qed.

(** From a text that does not mention the alias yet, and in which no
    marker is followed at once by two spaces, the entry of a connection
    with plain fields is written once: a second run with the same
    connection gives the same text, byte for byte, and the text has one
    [Host] line of the alias. *)
Theorem updatedConfig_idempotent (fts : Q -> string)
    (info : SSHConnectionInfo) (x : string) :
  Spec.plain_fields fts info = true ->
  Str.includes x ("Host " ++ generateSSHConfigAlias info) = false ->
  (forall p s, x = p ++ marker ++ s -> Str.startsWith s "  " = false) ->
  updatedConfig fts info (updatedConfig fts info x)
  = updatedConfig fts info x
  /\ Spec.host_lines (generateSSHConfigAlias info)
       (updatedConfig fts info x) = 1.
Proof.
  intros Hplain Hinc Hafter.
  destruct (ConfigFacts.first_run fts info x Hplain Hinc)
    as (p & s & -> & Hinc' & Habs & Hs).
  assert (Hs' : Str.startsWith s "  " = false).
  { destruct Hs as [->|Hx]; [reflexivity | exact (Hafter p s Hx)]. }
  split.
  - now apply ConfigFacts.updatedConfig_stable.
  - rewrite ConfigFacts.newEntry_lines.
    replace (p ++ marker ++ Str.nl
             ++ ("Host " ++ generateSSHConfigAlias info ++ Str.nl
                 ++ Spec.indented (Spec.body_lines fts info)) ++ s)
      with ((p ++ marker) ++ Str.nl
            ++ ("Host " ++ generateSSHConfigAlias info) ++ Str.nl
            ++ Spec.indented (Spec.body_lines fts info) ++ s)
      by now rewrite !StrFacts.append_assoc.
    apply ConfigFacts.host_lines_entry.
    + apply ConfigFacts.host_line_plain.
    + now apply ConfigFacts.body_lines_plain.
    + now rewrite StrFacts.append_assoc.
Qed.

(** The vessel [V] of the fleet [F], written into an empty text. *)
Lemma updatedConfig_idempotent_witness :
  updatedConfig (fun _ => "") Spec.vessel_V
    (updatedConfig (fun _ => "") Spec.vessel_V "")
  = updatedConfig (fun _ => "") Spec.vessel_V ""
  /\ Spec.host_lines (generateSSHConfigAlias Spec.vessel_V)
       (updatedConfig (fun _ => "") Spec.vessel_V "") = 1.
Proof.
  apply (updatedConfig_idempotent (fun _ => "") Spec.vessel_V "").
  - reflexivity.
  - reflexivity.
  - intros p s H. destruct p; discriminate H.
Defined.

(* ------------------------------------------------------------------ *)
(** * Identity files *)
(* ------------------------------------------------------------------ *)

(** C3, as the code has it.  A path that contains [..] is rejected,
    whatever its other characters.  On a host whose home directory is
    an absolute path without [$], a path [~/.ssh/<name>] is accepted
    when [<name>] is made of the characters [[A-Za-z0-9._/-]] and does
    not contain [..]. *)
Theorem isValidIdentityFile_spec (homedir cwd : string) :
  (forall filePath : string,
     Str.includes filePath ".." = true ->
     isValidIdentityFile homedir cwd filePath = false)
  /\ (Path.isAbsolute homedir = true ->
      Str.includes homedir "$" = false ->
      forall name : string,
        Str.forallb (alnum_or "._/-") name = true ->
        Str.includes name ".." = false ->
        isValidIdentityFile homedir cwd ("~/.ssh/" ++ name) = true).
Proof.
  split.
  - intros filePath H. unfold isValidIdentityFile.
    destruct (Str.truthy filePath); cbn [negb]; [|reflexivity].
    destruct (RegExp.test false re_identity filePath); cbn [negb];
      [|reflexivity].
    now rewrite H.
  - intros Habs Hdollar name Hname Hdots. unfold isValidIdentityFile.
    rewrite IdentityProof.includes_ssh_name, Hdots.
    rewrite IdentityFacts.test_identity.
    change ("~/.ssh/" ++ name) with (String "~" ("/.ssh/" ++ name)).
    cbv beta match.
    rewrite StrFacts.forallb_append, Hname.
    cbn [Str.truthy negb].
    change (chars "~/" "~" && (Str.forallb (alnum_or "._/-") "/.ssh/" && true))
      with true.
    change (Str.startsWith (String "~" ("/.ssh/" ++ name)) "~") with true.
    cbn [negb]. rewrite IdentityFacts.expand_home by exact Hdollar.
    assert (Habs' : Path.isAbsolute (homedir ++ "/.ssh/" ++ name) = true).
    { destruct (IdentityProof.absolute_cons homedir Habs) as [t ->].
      apply (StrFacts.prefix_append "/"). }
    rewrite IdentityProof.resolve_absolute by exact Habs'.
    rewrite IdentityProof.join_ssh_dir by exact Habs.
    rewrite !StrFacts.append_assoc.
    destruct (IdentityProof.normalize_in_ssh_dir homedir name Hdots)
      as (tail & -> & [-> | [t ->]]).
    + rewrite !StrFacts.append_nil_r.
      unfold Path.sep. rewrite String.eqb_refl, orb_true_r. reflexivity.
    + unfold Path.sep, Str.startsWith.
      replace ("/" ++ Path.dirs (rev (Path.home_stack homedir))
                ++ ".ssh" ++ "/" ++ t)
        with (("/" ++ Path.dirs (rev (Path.home_stack homedir))
                ++ ".ssh" ++ "/") ++ t).
      * rewrite StrFacts.prefix_append. reflexivity.
      * cbn [append]. f_equal. now rewrite !StrFacts.append_assoc.
Qed.

(** The key [~/.ssh/id_rsa] of a user whose home is [/home/testuser]. *)
Lemma isValidIdentityFile_spec_witness :
  isValidIdentityFile "/home/testuser" "/" ("~/.ssh/" ++ "id_rsa") = true.
Proof.
  apply (proj2 (isValidIdentityFile_spec "/home/testuser" "/"));
    reflexivity.
Defined.

(** C3 as stated fails: the name [..] is made of whitelist characters
    only, and [~/.ssh/..] is rejected. *)
Lemma isValidIdentityFile_rejects_dotdot_name :
  Str.forallb (alnum_or "._/-") ".." = true
  /\ isValidIdentityFile "/home/testuser" "/" ("~/.ssh/" ++ "..") = false.
Proof. split; reflexivity. Qed.

(* ------------------------------------------------------------------ *)
(** * The command builders *)
(* ------------------------------------------------------------------ *)

Section Commands.

Variable homedir : string.
Variable cwd : string.
Variable fractionToString : Q -> string.

Local Abbreviation validate :=
  (validateConnectionInfo homedir cwd fractionToString).
Local Abbreviation build := (buildSSHCommand homedir cwd fractionToString).
Local Abbreviation display := (buildSSHCommandDisplay fractionToString).

(** A failed validation carries a message. *)
Lemma validate_error (info : SSHConnectionInfo) :
  valid (validate info) = false ->
  exists message, error (validate info) = Some message.
Proof.
  unfold validateConnectionInfo.
  destruct (isValidHost (host info)); cbn; [|eauto].
  destruct (isValidUser (user info)); cbn; [|eauto].
  destruct (isValidPort (IsNumber (port info))); cbn; [|eauto].
  destruct (identityFile info) as [f|]; cbn; [|discriminate].
  destruct (Str.truthy f && negb (isValidIdentityFile homedir cwd f));
    cbn; [eauto | discriminate].
Qed.

(** The fields other than the identity file are checked first, and
    without looking at it. *)
Lemma validate_without_identity (info : SSHConnectionInfo) :
  valid (validate info) = true ->
  valid (validate (Spec.without_identity info)) = true.
Proof.
  unfold validateConnectionInfo. cbn [Spec.without_identity host user port
    identityFile].
  destruct (isValidHost (host info)); cbn; [|discriminate].
  destruct (isValidUser (user info)); cbn; [|discriminate].
  destruct (isValidPort (IsNumber (port info))); cbn; [|discriminate].
  reflexivity.
Qed.

(** What the builder does once the validation has passed. *)
Lemma build_valid (info : SSHConnectionInfo) (w : world) :
  valid (validate info) = true ->
  build info w
  = match Spec.identity_set info with
    | Some f =>
        match files w (expandPath homedir f) with
        | Some _ =>
            (Normal (Str.join " "
               (Spec.command_tokens (Some (expandPath homedir f))
                  (String_ fractionToString (port info)) info)), w)
        | None =>
            (Normal (Str.join " "
               (Spec.command_tokens None
                  (String_ fractionToString (port info)) info)),
             World (files w)
               (console w
                ++ [("SSHarbor: Identity file not found: "
                     ++ expandPath homedir f)%string]))
        end
    | None =>
        (Normal (Str.join " "
           (Spec.command_tokens None
              (String_ fractionToString (port info)) info)), w)
    end.
Proof.
  intros Hv. unfold buildSSHCommand. rewrite Hv. cbn [negb].
  unfold Spec.identity_set, Spec.command_tokens, nonstandard_port,
    truthy_opt.
  destruct (identityFile info) as [f|]; [destruct (Str.truthy f)|].
  - unfold Eff.bind, Eff.existsSync, Eff.warn, Eff.ret, push.
    destruct (files w (expandPath homedir f));
      destruct (Num.strict_eqb (port info) (Num.of_Z 22)); reflexivity.
  - unfold Eff.bind, Eff.ret, push.
    destruct (Num.strict_eqb (port info) (Num.of_Z 22)); reflexivity.
  - unfold Eff.bind, Eff.ret, push.
    destruct (Num.strict_eqb (port info) (Num.of_Z 22)); reflexivity.
Qed.

Lemma display_tokens (info : SSHConnectionInfo) :
  display info
  = Str.join " "
      (Spec.command_tokens (Spec.identity_set info)
         (String_ fractionToString (port info)) info).
Proof.
  unfold buildSSHCommandDisplay, Spec.identity_set, Spec.command_tokens,
    nonstandard_port, push.
  destruct (identityFile info) as [f|]; [destruct (Str.truthy f)|];
    destruct (Num.strict_eqb (port info) (Num.of_Z 22)); reflexivity.
Qed.

(** C4.  For a connection that passes the validation and whose
    identity file, when one is set, exists, both builders return the
    tokens [ssh], [-i <identity>] when an identity file is set,
    [-p <port>] when the port is not strictly equal to 22, and
    [<user>@<host>], in this order and joined by single spaces.  The
    execution variant prints the identity path with [~] expanded,
    the display variant prints it as given; it touches neither the
    files nor the console. *)
Theorem build_command_tokens (info : SSHConnectionInfo) (w : world) :
  valid (validate info) = true ->
  (forall f, Spec.identity_set info = Some f ->
             files w (expandPath homedir f) <> None) ->
  build info w
  = (Normal (Str.join " "
       (Spec.command_tokens
          (option_map (expandPath homedir) (Spec.identity_set info))
          (String_ fractionToString (port info)) info)), w)
  /\ display info
     = Str.join " "
         (Spec.command_tokens (Spec.identity_set info)
            (String_ fractionToString (port info)) info).
Proof.
  intros Hv Hex. split; [|apply display_tokens].
  rewrite build_valid by assumption.
  destruct (Spec.identity_set info) as [f|]; [|reflexivity].
  specialize (Hex f eq_refl).
  destruct (files w (expandPath homedir f)); [reflexivity | now elim Hex].
Qed.

(** C5.  The execution builder validates first.  When the validation
    fails it throws, and the error carries the message of
    [validateConnectionInfo], nothing else having happened; when the
    validation passes it returns a command and does not throw. *)
Theorem build_throws_iff_invalid (info : SSHConnectionInfo) (w : world) :
  match valid (validate info), error (validate info) with
  | false, Some message => build info w = (Throw message, w)
  | false, None => False
  | true, _ => exists command w', build info w = (Normal command, w')
  end.
Proof.
  destruct (valid (validate info)) eqn:Hv.
  - rewrite build_valid by assumption.
    destruct (Spec.identity_set info) as [f|]; [|eauto].
    destruct (files w (expandPath homedir f)); eauto.
  - destruct (validate_error info Hv) as [message He]. rewrite He.
    unfold buildSSHCommand. rewrite Hv, He. reflexivity.
Qed.

(** C9.  For a connection that passes the validation and has an
    identity file set whose expanded path does not exist, the builder
    does not throw: it returns the command of the same connection
    without identity file, and the one thing it does besides is to
    write one warning to the console. *)
Theorem build_missing_identity (info : SSHConnectionInfo) (w : world)
    (f : string) :
  valid (validate info) = true ->
  identityFile info = Some f ->
  Str.truthy f = true ->
  files w (expandPath homedir f) = None ->
  exists command,
    build info w
    = (Normal command,
       World (files w)
         (console w
          ++ [("SSHarbor: Identity file not found: "
               ++ expandPath homedir f)%string]))
    /\ build (Spec.without_identity info) w = (Normal command, w).
Proof.
  intros Hv Hf Ht Hno.
  rewrite (build_valid info) by assumption.
  rewrite (build_valid (Spec.without_identity info))
    by now apply validate_without_identity.
  unfold Spec.identity_set. cbn [Spec.without_identity identityFile].
  rewrite Hf, Ht, Hno. eexists; split; reflexivity.
Qed.

End Commands.

(** The command of [admin@example.com], port 2222, with a key that
    exists. *)
Lemma build_command_tokens_witness :
  buildSSHCommand "/home/testuser" "/" (fun _ => "") Spec.vessel_keyed
    Spec.world_with_key
  = (Normal "ssh -i /home/testuser/.ssh/id_rsa -p 2222 admin@example.com",
     Spec.world_with_key)
  /\ buildSSHCommandDisplay (fun _ => "") Spec.vessel_keyed
     = "ssh -i ~/.ssh/id_rsa -p 2222 admin@example.com".
Proof.
  apply (build_command_tokens "/home/testuser" "/" (fun _ => "")
           Spec.vessel_keyed Spec.world_with_key).
  - reflexivity.
  - intros f [= <-]. discriminate.
Defined.

(** The same connection when the key is not there. *)
Lemma build_missing_identity_witness :
  exists command,
    buildSSHCommand "/home/testuser" "/" (fun _ => "") Spec.vessel_keyed
      Spec.world_empty
    = (Normal command,
       World (files Spec.world_empty)
         (console Spec.world_empty
          ++ [("SSHarbor: Identity file not found: "
               ++ expandPath "/home/testuser" "~/.ssh/id_rsa")%string]))
    /\ buildSSHCommand "/home/testuser" "/" (fun _ => "")
         (Spec.without_identity Spec.vessel_keyed) Spec.world_empty
       = (Normal command, Spec.world_empty).
Proof.
  apply (build_missing_identity "/home/testuser" "/" (fun _ => "")
           Spec.vessel_keyed Spec.world_empty "~/.ssh/id_rsa");
    reflexivity.
Defined.

(* ------------------------------------------------------------------ *)
(** * The defaults cascade *)
(* ------------------------------------------------------------------ *)

Section Cascade.

Variables (vessel : Vessel) (fleet : Fleet)
          (harborDefaults : HarborDefaults) (settings : SSHarborSettings).

Let info := VesselItem_connectionInfo vessel fleet harborDefaults settings.

Lemma js_or_first_present {A : Type} (truthy : A -> bool)
    (a b c : option A) :
  js_or truthy (js_or truthy a b) c
  = match Spec.first_present truthy [a; b; c] with
    | Some x => Some x
    | None => c
    end.
Proof.
  destruct a as [x|], b as [y|], c as [z|]; cbn;
    repeat match goal with
           | |- context [truthy ?v] => destruct (truthy v) eqn:?; cbn
           end;
    congruence.
Qed.

Lemma js_or_last_first_present {A : Type} (truthy : A -> bool)
    (a b c : option A) (d : A) :
  js_or_last truthy (js_or truthy (js_or truthy a b) c) d
  = match Spec.first_present truthy [a; b; c; Some d] with
    | Some x => x
    | None => d
    end.
Proof.
  destruct a as [x|], b as [y|], c as [z|]; cbn;
    repeat match goal with
           | |- context [truthy ?v] => destruct (truthy v) eqn:?; cbn
           end;
    congruence.
Qed.

Lemma first_present_truthy {A : Type} (truthy : A -> bool)
    (chain : list (option A)) (x : A) :
  Spec.first_present truthy chain = Some x -> truthy x = true.
Proof.
  induction chain as [|[y|] chain IH]; cbn; [discriminate| |exact IH].
  destruct (truthy y) eqn:Hy; [intros [= <-]; exact Hy | exact IH].
Qed.

(** C6, corrected.  Each of [user], [port], [identityFile] and [shell]
    of the resolved connection is the first present and non-empty value
    met in the order vessel, fleet defaults, global defaults,
    extension settings (the settings carry no identity file).  The
    empty string, zero and NaN count as absent.  [user], [port] and
    [shell] are always a string or a number: when the whole chain is
    empty they are the settings value as it stands, and they are not
    empty as soon as the settings value is not.  [identityFile] may
    come out absent. *)
Theorem connectionInfo_cascade :
  user info
    = match Spec.first_present Str.truthy
              [v_user vessel; fleet_default fd_user fleet;
               hd_user harborDefaults; Some (defaultUser settings)] with
      | Some u => u
      | None => defaultUser settings
      end
  /\ port info
    = match Spec.first_present Num.truthy
              [v_port vessel; fleet_default fd_port fleet;
               hd_port harborDefaults; Some (defaultPort settings)] with
      | Some p => p
      | None => defaultPort settings
      end
  /\ shell info
    = match Spec.first_present Str.truthy
              [v_shell vessel; fleet_default fd_shell fleet;
               hd_shell harborDefaults; Some (defaultShell settings)] with
      | Some sh => sh
      | None => defaultShell settings
      end
  /\ match Spec.first_present Str.truthy
             [v_identityFile vessel; fleet_default fd_identityFile fleet;
              hd_identityFile harborDefaults] with
     | Some f => identityFile info = Some f
     | None => truthy_opt (identityFile info) = false
     end
  /\ (Str.truthy (defaultUser settings) = true ->
      Str.truthy (user info) = true)
  /\ (Num.truthy (defaultPort settings) = true ->
      Num.truthy (port info) = true)
  /\ (Str.truthy (defaultShell settings) = true ->
      Str.truthy (shell info) = true).
Proof.
  unfold info, VesselItem_connectionInfo; cbn [user port shell identityFile].
  rewrite !js_or_last_first_present, js_or_first_present.
  split; [reflexivity|]. split; [reflexivity|]. split; [reflexivity|].
  split; [|split; [|split]].
  - destruct (Spec.first_present Str.truthy _) as [f|] eqn:E; [reflexivity|].
    cbn in E.
    destruct (v_identityFile vessel) as [x|];
      [destruct (Str.truthy x) eqn:Hx; [discriminate|]|];
      (destruct (fleet_default fd_identityFile fleet) as [y|];
       [destruct (Str.truthy y) eqn:Hy; [discriminate|]|]);
      (destruct (hd_identityFile harborDefaults) as [z|];
       [destruct (Str.truthy z) eqn:Hz; [discriminate|]|]);
      simpl; auto.
  - intros H. destruct (Spec.first_present Str.truthy _) as [u|] eqn:E;
      [exact (first_present_truthy _ _ _ E) | exact H].
  - intros H. destruct (Spec.first_present Num.truthy _) as [u|] eqn:E;
      [exact (first_present_truthy _ _ _ E) | exact H].
  - intros H. destruct (Spec.first_present Str.truthy _) as [u|] eqn:E;
      [exact (first_present_truthy _ _ _ E) | exact H].
Qed.

End Cascade.

(** C6 as stated fails: [user], [port] and [shell] do not always
    resolve to a value.  With settings whose three fallbacks are empty
    and nothing set above them, no level of the chain has a present
    and non-empty value, and the connection gets the empty user, the
    port 0 and the empty shell. *)
Lemma connectionInfo_empty_settings :
  let info :=
    VesselItem_connectionInfo Spec.vessel_bare Spec.fleet_bare
      Spec.harbor_none Spec.settings_empty in
  Spec.first_present Str.truthy
    [v_user Spec.vessel_bare; fleet_default fd_user Spec.fleet_bare;
     hd_user Spec.harbor_none; Some (defaultUser Spec.settings_empty)]
  = None
  /\ Spec.first_present Num.truthy
       [v_port Spec.vessel_bare; fleet_default fd_port Spec.fleet_bare;
        hd_port Spec.harbor_none; Some (defaultPort Spec.settings_empty)]
     = None
  /\ Spec.first_present Str.truthy
       [v_shell Spec.vessel_bare; fleet_default fd_shell Spec.fleet_bare;
        hd_shell Spec.harbor_none; Some (defaultShell Spec.settings_empty)]
     = None
  /\ user info = "" /\ Str.truthy (user info) = false
  /\ port info = Num.of_Z 0 /\ Num.truthy (port info) = false
  /\ shell info = "" /\ Str.truthy (shell info) = false.
Proof. repeat split. Qed.

(** A vessel without a user of its own, in a fleet whose default user
    is [deploy]: the user is not empty. *)
Lemma connectionInfo_cascade_witness :
  Str.truthy
    (user (VesselItem_connectionInfo Spec.vessel_bare Spec.fleet_deploy
             Spec.harbor_none Spec.settings_shipped)) = true.
Proof.
  apply (proj1 (proj2 (proj2 (proj2 (proj2
           (connectionInfo_cascade Spec.vessel_bare Spec.fleet_deploy
              Spec.harbor_none Spec.settings_shipped)))))).
  reflexivity.
Defined.

(* ------------------------------------------------------------------ *)
(** * The alias of a vessel *)
(* ------------------------------------------------------------------ *)

(** C7.  The alias is ["SSHarbor_<fleet>_<vessel>"], where each of the
    two names has every character outside [[A-Za-z0-9]] replaced by
    [_], one name independently of the other; fleet ["AWS-Prod"] and
    vessel ["DB (Master)"] give ["SSHarbor_AWS_Prod_DB__Master_"]. *)
Theorem generateSSHConfigAlias_spec :
  (forall info : SSHConnectionInfo,
     generateSSHConfigAlias info
     = "SSHarbor_" ++ Str.map Spec.clean (fleetName info)
       ++ "_" ++ Str.map Spec.clean (name info))
  /\ (forall info : SSHConnectionInfo,
        fleetName info = "AWS-Prod" -> name info = "DB (Master)" ->
        generateSSHConfigAlias info = "SSHarbor_AWS_Prod_DB__Master_").
Proof.
  split.
  - apply ConfigFacts.alias_map.
  - intros info Hf Hn. rewrite ConfigFacts.alias_map, Hf, Hn. reflexivity.
Qed.

(** The alias of the vessel ["DB (Master)"] of the fleet ["AWS-Prod"]. *)
Lemma generateSSHConfigAlias_spec_witness :
  generateSSHConfigAlias
    {| name := "DB (Master)"; host := "db.example.com"; user := "admin";
       port := Num.of_Z 22; identityFile := None; shell := "/bin/bash";
       fleetName := "AWS-Prod"; favorite := false; tags := [] |}
  = "SSHarbor_AWS_Prod_DB__Master_".
Proof.
  apply (proj2 generateSSHConfigAlias_spec); reflexivity.
Defined.

(* ------------------------------------------------------------------ *)
(** * Quick connect *)
(* ------------------------------------------------------------------ *)

(** C8.  [parseQuickConnect] returns a record only when the input,
    trimmed and sanitized, is not empty and matches the pattern
    [^(?:([^@]+)@)?([^:]+)(?::(\d+))?$], the host group passes
    [isValidHost], the user group (when there is one) passes
    [isValidUser] and the port group (when there is one), read in base
    10, passes [isValidPort]; in every other case it returns null.
    ["admin@example.com:2222"] gives user [admin], host [example.com]
    and port 2222; ["example.com"] gives the host alone. *)
Theorem parseQuickConnect_spec :
  (forall (input : string) (r : QuickConnectParsed),
     parseQuickConnect input = Some r ->
     exists m : RegExp.result,
       Str.truthy (sanitize (Str.trim input)) = true
       /\ RegExp.exec false re_quick (sanitize (Str.trim input)) = Some m
       /\ RegExp.group 2 m = Some (qc_host r)
       /\ isValidHost (qc_host r) = true
       /\ match qc_user r with
          | Some u => RegExp.group 1 m = Some u /\ isValidUser u = true
          | None => truthy_opt (RegExp.group 1 m) = false
          end
       /\ match qc_port r with
          | Some p =>
              exists portStr,
                RegExp.group 3 m = Some portStr
                /\ p = Num.parseInt10 portStr
                /\ isValidPort (IsNumber p) = true
          | None => truthy_opt (RegExp.group 3 m) = false
          end)
  /\ parseQuickConnect "admin@example.com:2222"
     = Some {| qc_user := Some "admin"; qc_host := "example.com";
               qc_port := Some (Num.of_Z 2222) |}
  /\ parseQuickConnect "example.com"
     = Some {| qc_user := None; qc_host := "example.com";
               qc_port := None |}.
Proof.
  split; [|split; reflexivity].
  intros input r. unfold parseQuickConnect.
  destruct (Str.truthy (sanitize (Str.trim input))) eqn:Ht;
    cbn [negb]; [|discriminate].
  destruct (RegExp.exec false re_quick (sanitize (Str.trim input)))
    as [m|] eqn:Hm; [|discriminate].
  destruct (RegExp.group 2 m) as [h|] eqn:Hh; [|discriminate].
  destruct (isValidHost h) eqn:Hvh; cbn [negb]; [|discriminate].
  assert (Huser :
    forall u, js_or Str.truthy (RegExp.group 1 m) None = u ->
      truthy_opt (RegExp.group 1 m)
      && negb match RegExp.group 1 m with
              | Some u' => isValidUser u'
              | None => false
              end = false ->
      match u with
      | Some u' => RegExp.group 1 m = Some u' /\ isValidUser u' = true
      | None => truthy_opt (RegExp.group 1 m) = false
      end).
  { intros u <-. destruct (RegExp.group 1 m) as [u'|]; cbn; [|reflexivity].
    destruct (Str.truthy u'); cbn; [|reflexivity].
    destruct (isValidUser u'); cbn; [split; reflexivity | discriminate]. }
  destruct (truthy_opt (RegExp.group 1 m)
            && negb match RegExp.group 1 m with
                    | Some u' => isValidUser u'
                    | None => false
                    end) eqn:Hu; [discriminate|].
  destruct (RegExp.group 3 m) as [ps|] eqn:Hp.
  - destruct (Str.truthy ps) eqn:Hps.
    + destruct (isValidPort (IsNumber (Num.parseInt10 ps))) eqn:Hvp;
        cbn [negb]; [|discriminate].
      intros [= <-]. exists m. cbn [qc_user qc_host qc_port].
      repeat split; try assumption.
      * now apply Huser.
      * exists ps. split; [exact Hp | split; [reflexivity | exact Hvp]].
    + intros [= <-]. exists m. cbn [qc_user qc_host qc_port].
      repeat split; try assumption.
      * now apply Huser.
      * rewrite Hp. exact Hps.
  - intros [= <-]. exists m. cbn [qc_user qc_host qc_port].
    repeat split; try assumption.
    + now apply Huser.
    + now rewrite Hp.
Qed.

(** The record of ["admin@example.com:2222"] has a valid host. *)
Lemma parseQuickConnect_spec_witness :
  exists m : RegExp.result,
    Str.truthy (sanitize (Str.trim "admin@example.com:2222")) = true
    /\ RegExp.exec false re_quick
         (sanitize (Str.trim "admin@example.com:2222")) = Some m
    /\ RegExp.group 2 m = Some "example.com"
    /\ isValidHost "example.com" = true
    /\ (RegExp.group 1 m = Some "admin" /\ isValidUser "admin" = true)
    /\ exists portStr,
         RegExp.group 3 m = Some portStr
         /\ Num.of_Z 2222 = Num.parseInt10 portStr
         /\ isValidPort (IsNumber (Num.of_Z 2222)) = true.
Proof.
  apply (proj1 parseQuickConnect_spec "admin@example.com:2222"
           {| qc_user := Some "admin"; qc_host := "example.com";
              qc_port := Some (Num.of_Z 2222) |}).
  reflexivity.
Defined.

(* ------------------------------------------------------------------ *)
(** * Connection identifiers *)
(* ------------------------------------------------------------------ *)

(** C10.  Building the identifier of a record and parsing it gives the
    record back, when the user is not empty and has no [@], the host
    is not empty and has no [:], and the port is a non-negative integer
    printed in decimal digits (as integers up to 2^53 are).  And the
    parser returns a record only for a string [user@host:port] of
    that form, so it returns null on every other string. *)
Theorem connectionId_roundtrip (fractionToString : Q -> string) :
  (forall (u h : string) (z : Z),
     Str.truthy u = true -> Str.includes u "@" = false ->
     Str.truthy h = true -> Str.includes h ":" = false ->
     (0 <= z <= 2 ^ 53)%Z ->
     parseConnectionId
       (buildConnectionId fractionToString
          {| ci_host := h; ci_user := u; ci_port := Num.of_Z z |})
     = Some {| ci_host := h; ci_user := u; ci_port := Num.of_Z z |})
  /\ (forall (id : string) (r : ConnectionId),
        parseConnectionId id = Some r ->
        exists portStr : string,
          id = ci_user r ++ "@" ++ ci_host r ++ ":" ++ portStr
          /\ Str.truthy (ci_user r) = true
          /\ Str.includes (ci_user r) "@" = false
          /\ Str.truthy (ci_host r) = true
          /\ Str.includes (ci_host r) ":" = false
          /\ Str.truthy portStr = true
          /\ Str.forallb Str.is_digit portStr = true
          /\ ci_port r = Num.parseInt10 portStr).
Proof.
  split.
  - intros u h z Hu Hu' Hh Hh' Hz.
    unfold parseConnectionId, buildConnectionId. cbn [ci_user ci_host ci_port].
    rewrite ConnectionIdFacts.exec_connection_id. cbv zeta.
    assert (Hport : String_ fractionToString (Num.of_Z z)
                    = Num.digits (Z.to_N z)).
    { unfold String_, Num.toString, Num.of_Z, Num.is_integer, Num.floor,
        inject_Z. cbn [Qnum Qden]. rewrite Z.mod_1_r, Z.div_1_r.
      cbn [Z.eqb]. unfold Num.Z_toString. destruct z; try reflexivity. lia. }
    rewrite Hport.
    apply StrFacts.includes_char in Hu', Hh'.
    rewrite (RegexFacts.span_app _ u ("@" ++ h ++ ":" ++ Num.digits (Z.to_N z)))
      by (assumption || reflexivity).
    cbn [fst snd]. destruct u as [|u0 u]; [discriminate|].
    cbn [append]. rewrite Ascii.eqb_refl.
    rewrite (RegexFacts.span_app _ h (":" ++ Num.digits (Z.to_N z)))
      by (assumption || reflexivity).
    cbn [fst snd]. destruct h as [|h0 h]; [discriminate|].
    cbn [append]. rewrite Ascii.eqb_refl.
    assert (Hsp : span Str.is_digit (Num.digits (Z.to_N z))
                  = (Num.digits (Z.to_N z), "")).
    { rewrite <- (StrFacts.append_nil_r (Num.digits (Z.to_N z))) at 1.
      apply RegexFacts.span_app;
        [apply ConnectionIdFacts.forallb_digits | reflexivity]. }
    rewrite Hsp. cbn [fst snd].
    pose proof (PortFacts.parseInt10_digits (Z.to_N z) "" eq_refl) as Hp.
    rewrite StrFacts.append_nil_r, Z2N.id in Hp by lia.
    destruct (PortFacts.digits_head (Z.to_N z)) as (c & t & E & _).
    rewrite E in *. unfold RegExp.group. cbn. now rewrite Hp.
  - intros id r. unfold parseConnectionId.
    rewrite ConnectionIdFacts.exec_connection_id. cbv zeta.
    destruct (RegexFacts.span_spec (fun x => negb (Ascii.eqb "@" x)) id)
      as (Hid & Hu & _).
    destruct (span (fun x => negb (Ascii.eqb "@" x)) id) as [u v].
    cbn [fst snd] in *. destruct u as [|u0 u]; [discriminate|].
    destruct v as [|a v1]; [discriminate|].
    destruct (Ascii.eqb_spec "@" a) as [<-|]; [|discriminate].
    destruct (RegexFacts.span_spec (fun x => negb (Ascii.eqb ":" x)) v1)
      as (Hv1 & Hh & _).
    destruct (span (fun x => negb (Ascii.eqb ":" x)) v1) as [h v2].
    cbn [fst snd] in *. destruct h as [|h0 h]; [discriminate|].
    destruct v2 as [|b v3]; [discriminate|].
    destruct (Ascii.eqb_spec ":" b) as [<-|]; [|discriminate].
    destruct (RegexFacts.span_spec Str.is_digit v3) as (Hv3 & Hd & _).
    destruct (span Str.is_digit v3) as [d v4].
    cbn [fst snd] in *. destruct d as [|d0 d]; [discriminate|].
    destruct v4; [|discriminate].
    unfold RegExp.group. cbn. intros [= <-]. cbn [ci_user ci_host ci_port].
    exists (String d0 d). rewrite StrFacts.append_nil_r in Hv3.
    subst v3 v1 id. repeat split; try assumption.
    + now apply StrFacts.includes_char.
    + now apply StrFacts.includes_char.
Qed.

(** The identifier of [admin] at [example.com], port 2222. *)
Lemma connectionId_roundtrip_witness :
  parseConnectionId
    (buildConnectionId (fun _ => "")
       {| ci_host := "example.com"; ci_user := "admin";
          ci_port := Num.of_Z 2222 |})
  = Some {| ci_host := "example.com"; ci_user := "admin";
            ci_port := Num.of_Z 2222 |}.
Proof.
  apply (proj1 (connectionId_roundtrip (fun _ => "")));
    try reflexivity. lia.
Defined.

(* ------------------------------------------------------------------ *)
(** * Further properties of the sources *)
(* ------------------------------------------------------------------ *)

(* ------------------------------------------------------------------ *)
(** * The validators of core/security.ts *)
(* ------------------------------------------------------------------ *)

(** [isValidHost] accepts one letter or digit, and the texts that
    begin and end with a letter or digit and have only letters,
    digits, [.] and [-] in between; it accepts nothing else, so no
    empty host and none with a space or a shell metacharacter. *)
Theorem isValidHost_shape (h : string) :
  isValidHost h = true <->
  (exists a, h = String a "" /\ Str.is_alnum a = true)
  \/ (exists a m z,
        h = String a (m ++ String z "")
        /\ Str.is_alnum a = true
        /\ Str.forallb (alnum_or ".-") m = true
        /\ Str.is_alnum z = true).
Proof.
  rewrite ValidatorFacts.isValidHost_test. split.
  - destruct h as [|a t]; [discriminate|]. intros H.
    apply andb_prop in H as [Ha H]. apply orb_prop in H as [H|H].
    + right. destruct (ValidatorFacts.ends_with_elim _ _ _ H)
        as (m & z & -> & Hm & Hz).
      exists a, m, z. auto.
    + left. destruct t; [|discriminate]. exists a. auto.
  - intros [(a & -> & Ha) | (a & m & z & -> & Ha & Hm & Hz)].
    + now rewrite Ha.
    + now rewrite Ha, ValidatorFacts.ends_with_intro.
Qed.

(** [isValidUser] accepts the texts that begin with a letter or [_]
    and go on with letters, digits, [_] and [-], and nothing else. *)
Theorem isValidUser_shape (u : string) :
  isValidUser u
  = match u with
    | EmptyString => false
    | String c t =>
        (Str.is_lower c || Str.is_upper c || Ascii.eqb c "_")
        && Str.forallb (alnum_or "_-") t
    end.
Proof. apply ValidatorFacts.isValidUser_test. Qed.

(** [isValidFleetName] accepts the texts of 1 to 50 characters that
    begin with a letter or digit and go on with letters, digits,
    spaces, [_] and [-], and nothing else. *)
Theorem isValidFleetName_shape (n : string) :
  isValidFleetName n
  = match n with
    | EmptyString => false
    | String c t =>
        Str.is_alnum c && Str.forallb (alnum_or " _-") t
        && (String.length n <=? 50)%nat
    end.
Proof. apply ValidatorFacts.isValidFleetName_test. Qed.

(** [isValidVesselName] accepts the texts of 1 to 50 characters that
    begin with a letter or digit and go on with letters, digits,
    spaces, [_], [.] and [-], and nothing else; so every valid fleet
    name is a valid vessel name. *)
Theorem isValidVesselName_shape :
  (forall n : string,
     isValidVesselName n
     = match n with
       | EmptyString => false
       | String c t =>
           Str.is_alnum c && Str.forallb (alnum_or " _.-") t
           && (String.length n <=? 50)%nat
       end)
  /\ (forall n : string,
        isValidFleetName n = true -> isValidVesselName n = true).
Proof.
  split; [exact ValidatorFacts.isValidVesselName_test|].
  intros n.
  rewrite ValidatorFacts.isValidVesselName_test,
    ValidatorFacts.isValidFleetName_test.
  destruct n as [|c t]; [discriminate|].
  intros Hn. apply andb_prop in Hn as [Hn Hlen].
  apply andb_prop in Hn as [Hc Ht]. rewrite Hc, Hlen.
  rewrite (ConfigFacts.forallb_imp (alnum_or " _-") (alnum_or " _.-"))
    by (exact Ht || (intros x; unfold alnum_or;
          rewrite !ValidatorFacts.chars_cons;
          destruct (Str.is_alnum x), (Ascii.eqb " " x), (Ascii.eqb "_" x),
            (Ascii.eqb "." x), (Ascii.eqb "-" x); cbn; congruence)).
  reflexivity.
Qed.

(** The fleet name [My Fleet-1] is a vessel name too. *)
Lemma isValidVesselName_shape_witness :
  isValidVesselName "My Fleet-1" = true.
Proof.
  apply (proj2 isValidVesselName_shape "My Fleet-1"). reflexivity.
Defined.

(** [isValidTag] accepts the texts of 1 to 30 letters, digits and
    [-], and nothing else. *)
Theorem isValidTag_shape (tag : string) :
  isValidTag tag
  = Str.truthy tag && Str.forallb (alnum_or "-") tag
    && (String.length tag <=? 30)%nat.
Proof.
  unfold isValidTag, re_tag. rewrite ValidatorFacts.test_plus.
  destruct tag; reflexivity.
Qed.

(* ------------------------------------------------------------------ *)
(** * The connection string of the quick connection *)
(* ------------------------------------------------------------------ *)

(** [parseQuickConnect] accepts the four documented formats:
    [host], [user@host], [host:port] and [user@host:port], for a valid
    host, a valid user and a port from 1 to 65535 in decimal
    notation, and returns these parts. *)
Theorem parseQuickConnect_accepts (user : option string) (host : string)
    (port : option Z) :
  isValidHost host = true ->
  match user with Some u => isValidUser u = true | None => True end ->
  match port with Some z => (1 <= z <= 65535)%Z | None => True end ->
  parseQuickConnect (Shape.quick_text user host port)
  = Some {| qc_user := user; qc_host := host;
            qc_port := option_map Num.of_Z port |}.
Proof.
  intros Hh Hu Hp.
  pose proof (QuickFacts.quick_chars user host port Hh Hu Hp) as Hchars.
  assert (Hspace : Str.forallb (fun c => negb (Str.is_space c))
                     (Shape.quick_text user host port) = true).
  { apply (ConfigFacts.forallb_imp _ _ _ (fun c H => proj1 (andb_prop _ _ H))
             Hchars). }
  assert (Hsafe : Str.forallb (fun c => negb (dangerous c))
                    (Shape.quick_text user host port) = true).
  { apply (ConfigFacts.forallb_imp _ _ _ (fun c H => proj2 (andb_prop _ _ H))
             Hchars). }
  unfold parseQuickConnect.
  rewrite (QuickFacts.trim_no_space _ Hspace).
  rewrite SanitizeFacts.sanitize_keep, (SanitizeFacts.keep_all _ _ Hsafe).
  destruct (ValidatorFacts.isValidHost_chars host Hh) as [Hht Hhc].
  assert (Htext : Str.truthy (Shape.quick_text user host port) = true).
  { unfold Shape.quick_text. destruct user as [[|u0 u]|];
      [destruct host | reflexivity | destruct host]; try discriminate;
      reflexivity. }
  rewrite Htext. cbn [negb].
  unfold Shape.quick_text.
  destruct (QuickFacts.exec_quick user host
              (option_map Num.Z_toString port)) as (m & Hm & H1 & H2 & H3).
  - destruct user as [u|]; [|exact I].
    destruct (SessionFacts.isValidUser_no_at u Hu) as [Ht Hat].
    split; [exact Ht|]. apply (proj1 (StrFacts.includes_char "@" u) Hat).
  - exact Hht.
  - apply (ConfigFacts.forallb_imp (alnum_or ".-")); [|exact Hhc].
    ValidatorFacts.check_chars.
  - apply (ConfigFacts.forallb_imp (alnum_or ".-")); [|exact Hhc].
    ValidatorFacts.check_chars.
  - destruct port as [z|]; [|exact I].
    exact (QuickFacts.port_digits z ltac:(lia)).
  - replace (match port with
             | Some z => ":" ++ Num.Z_toString z
             | None => ""
             end)
      with (match option_map Num.Z_toString port with
            | Some t => ":" ++ t
            | None => ""
            end) by (destruct port; reflexivity).
    rewrite Hm, H1, H2, H3, Hh. cbn [negb].
    assert (Huser : truthy_opt user
                    && negb match user with
                            | Some u => isValidUser u
                            | None => false
                            end = false).
    { destruct user as [u|]; [|reflexivity]. rewrite Hu.
      apply andb_false_r. }
    rewrite Huser.
    assert (Hq : js_or Str.truthy user None = user).
    { destruct user as [u|]; [|reflexivity]. cbn.
      destruct (SessionFacts.isValidUser_no_at u Hu) as [-> _]. reflexivity. }
    rewrite Hq.
    destruct port as [z|]; [|reflexivity]. cbn [option_map].
    destruct (QuickFacts.port_digits z ltac:(lia)) as [-> _].
    rewrite <- (StrFacts.append_nil_r (Num.Z_toString z)).
    rewrite PortFacts.parseInt10_Z_toString by reflexivity.
    rewrite PortFacts.isValidPort_of_Z.
    destruct (Z.ltb_spec 0 z); [|lia].
    destruct (Z.leb_spec z 65535); [|lia]. reflexivity.
Qed.

(** The connection string of the tests. *)
Lemma parseQuickConnect_accepts_witness :
  parseQuickConnect (Shape.quick_text (Some "admin") "example.com" (Some 2222%Z))
  = Some {| qc_user := Some "admin"; qc_host := "example.com";
            qc_port := option_map Num.of_Z (Some 2222%Z) |}.
Proof.
  apply parseQuickConnect_accepts; [reflexivity | reflexivity | lia].
Defined.

(* ------------------------------------------------------------------ *)
(** * [sanitize] and the command sent to the terminal *)
(* ------------------------------------------------------------------ *)

(** [sanitize] drops the characters of the class of its pattern, which
    [dangerous] is: the semicolon, [&], [|], the backquote, [$], the
    round, curly and square brackets, [<], [>], the backslash, the
    single and the double quote, [!], [#], line feed and carriage
    return.  It keeps the other characters in their order: what it
    returns holds none of the class, and sanitizing twice is
    sanitizing once. *)
Theorem sanitize_removes_metacharacters (input : string) :
  sanitize input = Shape.keep (fun c => negb (dangerous c)) input
  /\ Shape.shell_safe (sanitize input) = true
  /\ sanitize (sanitize input) = sanitize input.
Proof.
  rewrite !SanitizeFacts.sanitize_keep. split; [reflexivity|].
  split; [apply SanitizeFacts.keep_forallb|].
  apply SanitizeFacts.keep_all, SanitizeFacts.keep_forallb.
Qed.

(** The command [buildSSHCommand] returns for a connection with an
    integer port holds no shell metacharacter, quote, backslash or
    line break, when the home directory holds none: [sanitize] would
    leave it as it is. *)
Theorem buildSSHCommand_shell_safe (homedir cwd : string)
    (fractionToString : Q -> string) (info : SSHConnectionInfo) (z : Z)
    (w w' : world) (command : string) :
  Shape.shell_safe homedir = true ->
  port info = Num.of_Z z ->
  buildSSHCommand homedir cwd fractionToString info w
  = (Normal command, w') ->
  Shape.shell_safe command = true /\ sanitize command = command.
Proof.
  intros Hhome Hport Hrun.
  assert (Hinj : forall (a b : string) (x y : world),
                    (Normal a, x) = (Normal b, y) -> a = b)
    by (intros a b x y [= ->]; reflexivity).
  assert (Hsafe : Shape.shell_safe command = true).
  { destruct (valid (validateConnectionInfo homedir cwd fractionToString
                       info)) eqn:Hv.
    - destruct (SanitizeFacts.validate_fields _ _ _ _ Hv)
        as (Hh & Hu & Hp & Hi).
      rewrite Hport, PortFacts.isValidPort_of_Z in Hp.
      apply andb_prop in Hp as [Hz _]. apply Z.ltb_lt in Hz.
      rewrite build_valid in Hrun by exact Hv.
      destruct (Spec.identity_set info) as [f|] eqn:Hf.
      + specialize (Hi f eq_refl).
        destruct (files w (expandPath homedir f));
          apply Hinj in Hrun; subst command;
          apply (SanitizeFacts.command_tokens_safe _ _ _ z);
          try assumption; try exact I.
        now apply (SanitizeFacts.expandPath_safe homedir cwd).
      + apply Hinj in Hrun. subst command.
        now apply (SanitizeFacts.command_tokens_safe _ _ _ z).
    - unfold buildSSHCommand in Hrun. rewrite Hv in Hrun.
      discriminate Hrun. }
  split; [exact Hsafe|].
  rewrite SanitizeFacts.sanitize_keep. now apply SanitizeFacts.keep_all.
Qed.

(** The command of the connection with a key, on a store that holds
    the key. *)
Lemma buildSSHCommand_shell_safe_witness :
  Shape.shell_safe
    "ssh -i /home/testuser/.ssh/id_rsa -p 2222 admin@example.com" = true
  /\ sanitize "ssh -i /home/testuser/.ssh/id_rsa -p 2222 admin@example.com"
     = "ssh -i /home/testuser/.ssh/id_rsa -p 2222 admin@example.com".
Proof.
  apply (buildSSHCommand_shell_safe "/home/testuser" "/" (fun _ => "")
           Spec.vessel_keyed 2222 Spec.world_with_key Spec.world_with_key);
    reflexivity.
Defined.

(** [expandPath] puts the home directory in the place of a leading
    [~] when the home directory holds no [$] (which [replace] would
    read as a pattern), and returns every other path as it is. *)
Theorem expandPath_home (homedir : string) :
  (Str.includes homedir "$" = false ->
   forall rest : string,
     expandPath homedir (String "~" rest) = homedir ++ rest)
  /\ (forall filePath : string,
        Str.startsWith filePath "~" = false ->
        expandPath homedir filePath = filePath).
Proof.
  split.
  - intros H rest. rewrite <- ImportFacts.replace_home.
    now apply IdentityFacts.expand_home.
  - intros filePath H. unfold expandPath. now rewrite H.
Qed.

(** The key path of the tests. *)
Lemma expandPath_home_witness :
  expandPath "/home/testuser" (String "~" "/.ssh/id_rsa")
  = "/home/testuser" ++ "/.ssh/id_rsa".
Proof.
  apply (proj1 (expandPath_home "/home/testuser")). reflexivity.
Defined.

(* ------------------------------------------------------------------ *)
(** * The entry in the SSH configuration, rewritten and read back *)
(* ------------------------------------------------------------------ *)

(** When the fields of a vessel have changed, the next run puts the
    new entry in the place of the old one.  From a text that does not
    mention the alias yet (and in which no marker is followed at once
    by two spaces), [ensureSSHConfigEntry] writes the entry of a
    connection after the marker; run again for a connection of the
    same name and fleet with other plain fields, it leaves the text
    around the entry as it is, writes the new entry where the old one
    stood, and the text has one [Host] line of the alias. *)
Theorem updatedConfig_rewrites_entry (fts : Q -> string)
    (info info' : SSHConnectionInfo) (x : string) :
  Spec.plain_fields fts info = true ->
  Spec.plain_fields fts info' = true ->
  name info' = name info ->
  fleetName info' = fleetName info ->
  Str.includes x ("Host " ++ generateSSHConfigAlias info) = false ->
  (forall p s, x = p ++ marker ++ s -> Str.startsWith s "  " = false) ->
  exists p s,
    updatedConfig fts info x
    = p ++ marker ++ Str.nl ++ newEntry fts info ++ s
    /\ updatedConfig fts info' (updatedConfig fts info x)
       = p ++ marker ++ Str.nl ++ newEntry fts info' ++ s
    /\ Spec.host_lines (generateSSHConfigAlias info)
         (updatedConfig fts info' (updatedConfig fts info x)) = 1.
Proof.
  intros Hplain Hplain' Hname Hfleet Hinc Hafter.
  assert (Halias : generateSSHConfigAlias info'
                   = generateSSHConfigAlias info).
  { unfold generateSSHConfigAlias. now rewrite Hname, Hfleet. }
  destruct (ConfigFacts.first_run fts info x Hplain Hinc)
    as (p & s & E & Hinc' & Habs & Hs).
  assert (Hs' : Str.startsWith s "  " = false).
  { destruct Hs as [->|Hx]; [reflexivity | exact (Hafter p s Hx)]. }
  exists p, s. split; [exact E|]. rewrite E.
  rewrite (RewriteFacts.updatedConfig_replace fts info info' p s)
    by assumption.
  split; [reflexivity|].
  rewrite ConfigFacts.newEntry_lines, Halias.
  replace (p ++ marker ++ Str.nl
           ++ ("Host " ++ generateSSHConfigAlias info ++ Str.nl
               ++ Spec.indented (Spec.body_lines fts info')) ++ s)
    with ((p ++ marker) ++ Str.nl
          ++ ("Host " ++ generateSSHConfigAlias info) ++ Str.nl
          ++ Spec.indented (Spec.body_lines fts info') ++ s)
    by now rewrite !StrFacts.append_assoc.
  apply ConfigFacts.host_lines_entry.
  - apply ConfigFacts.host_line_plain.
  - now apply ConfigFacts.body_lines_plain.
  - now rewrite StrFacts.append_assoc.
Qed.

(** The vessel [V] of the fleet [F], moved to another host and
    port. *)
Lemma updatedConfig_rewrites_entry_witness :
  exists p s,
    updatedConfig (fun _ => "") Spec.vessel_V ""
    = p ++ marker ++ Str.nl ++ newEntry (fun _ => "") Spec.vessel_V ++ s
    /\ updatedConfig (fun _ => "")
         {| name := "V"; host := "new.example"; user := "u";
            port := Num.of_Z 2222; identityFile := None;
            shell := "/bin/bash"; fleetName := "F"; favorite := false;
            tags := [] |}
         (updatedConfig (fun _ => "") Spec.vessel_V "")
       = p ++ marker ++ Str.nl
         ++ newEntry (fun _ => "")
              {| name := "V"; host := "new.example"; user := "u";
                 port := Num.of_Z 2222; identityFile := None;
                 shell := "/bin/bash"; fleetName := "F"; favorite := false;
                 tags := [] |} ++ s
    /\ Spec.host_lines (generateSSHConfigAlias Spec.vessel_V)
         (updatedConfig (fun _ => "")
            {| name := "V"; host := "new.example"; user := "u";
               port := Num.of_Z 2222; identityFile := None;
               shell := "/bin/bash"; fleetName := "F"; favorite := false;
               tags := [] |}
            (updatedConfig (fun _ => "") Spec.vessel_V "")) = 1.
Proof.
  apply (updatedConfig_rewrites_entry (fun _ => "") Spec.vessel_V
           {| name := "V"; host := "new.example"; user := "u";
              port := Num.of_Z 2222; identityFile := None;
              shell := "/bin/bash"; fleetName := "F"; favorite := false;
              tags := [] |} "").
  - reflexivity.
  - reflexivity.
  - reflexivity.
  - reflexivity.
  - reflexivity.
  - intros p s H. destruct p; discriminate H.
Defined.

(** In a directory that exists and holds no configuration file yet,
    [ensureSSHConfigEntry] returns the alias, and what it writes
    [parseSshConfig] reads back as one host: its name is the alias,
    its host, user, port (when not 22) and identity file (with [~]
    expanded) are those of the connection.  When the directory of the
    file does not exist, the error of [fs.writeFileSync] leaves
    [ensureSSHConfigEntry] and the store is as it was.  This holds for
    a connection that passes the validation and has an integer
    port. *)
Theorem parseSshConfig_reads_new_entry (homedir cwd : string)
    (fractionToString : Q -> string) (info : SSHConnectionInfo) (z : Z)
    (w : world) :
  valid (validateConnectionInfo homedir cwd fractionToString info) = true ->
  port info = Num.of_Z z ->
  files w (Path.join [homedir; ".ssh"; "config"]) = None ->
  (files w (Path.dirname (Path.join [homedir; ".ssh"; "config"]))
   = Some Directory ->
   fst (ensureSSHConfigEntry homedir fractionToString info w)
   = Normal (generateSSHConfigAlias info)
   /\ exists text,
        files (snd (ensureSSHConfigEntry homedir fractionToString info w))
          (Path.join [homedir; ".ssh"; "config"]) = Some (File text)
        /\ parseSshConfig homedir text
           = [{| ph_name := generateSSHConfigAlias info;
                 ph_host := host info;
                 ph_user := Some (user info);
                 ph_port := if nonstandard_port info then Some (port info)
                            else None;
                 ph_identityFile :=
                   option_map (expandPath homedir)
                     (Spec.identity_set info) |}])
  /\ (files w (Path.dirname (Path.join [homedir; ".ssh"; "config"]))
      = None ->
      ensureSSHConfigEntry homedir fractionToString info w
      = (Throw ("ENOENT: no such file or directory, open '"
                ++ Path.join [homedir; ".ssh"; "config"] ++ "'"), w)).
Proof.
  intros Hvalid Hport Hnone. split.
  - intros Hdir.
    destruct (ConfigFacts.ensureSSHConfigEntry_writes homedir
                fractionToString info w Hdir) as [Hret Hfile].
    { rewrite Hnone. discriminate. }
    split; [exact Hret|].
    rewrite Hnone in Hfile. eexists. split; [exact Hfile|].
    rewrite ImportFacts.updatedConfig_empty.
    now apply (ImportFacts.parse_new_entry homedir cwd fractionToString
                 info z).
  - apply ConfigFacts.ensureSSHConfigEntry_no_directory.
Qed.

(** The connection with a key and a port of its own, on a store that
    holds the directory and the key, and no configuration file. *)
Lemma parseSshConfig_reads_new_entry_witness :
  fst (ensureSSHConfigEntry "/home/testuser" (fun _ => "")
         Spec.vessel_keyed Spec.world_with_key)
  = Normal "SSHarbor_Production_Server"
  /\ exists text,
       files (snd (ensureSSHConfigEntry "/home/testuser" (fun _ => "")
                     Spec.vessel_keyed Spec.world_with_key))
         (Path.join ["/home/testuser"; ".ssh"; "config"]) = Some (File text)
       /\ parseSshConfig "/home/testuser" text
          = [{| ph_name := "SSHarbor_Production_Server";
                ph_host := "example.com";
                ph_user := Some "admin";
                ph_port := Some (Num.of_Z 2222);
                ph_identityFile := Some "/home/testuser/.ssh/id_rsa" |}].
Proof.
  apply (proj1 (parseSshConfig_reads_new_entry "/home/testuser" "/"
                  (fun _ => "") Spec.vessel_keyed 2222 Spec.world_with_key
                  eq_refl eq_refl eq_refl)).
  reflexivity.
Defined.

(** Whatever the text, every host [parseSshConfig] returns has a name
    that is not empty and holds neither [*] nor [?], and a host that
    is not empty: patterns of hosts are never imported. *)
Theorem parseSshConfig_skips_patterns (homedir content : string) :
  List.forallb Shape.importable (parseSshConfig homedir content) = true.
Proof. apply ImportInvariant.parseSshConfig_ok. Qed.

(* ------------------------------------------------------------------ *)
(** * The fleets, vessels and favorites of the document (core/config.ts) *)
(* ------------------------------------------------------------------ *)

(** [removeVessel] after [addVessel] restores the document, when the
    fleet exists and had no vessel with the host of the new one. *)
Theorem addVessel_removeVessel (fleetName : string) (vessel : Vessel)
    (config : HarborConfig) (fleet : Fleet) :
  List.find (fleet_named fleetName) (hc_fleets config) = Some fleet ->
  List.find (vessel_at (v_host vessel)) (f_vessels fleet) = None ->
  exists config1,
    addVessel fleetName vessel config = Saved tt config1
    /\ removeVessel fleetName (v_host vessel) config1 = Saved tt config.
Proof.
  intros Hfleet Hnone. unfold addVessel. rewrite Hfleet.
  eexists. split; [reflexivity|].
  unfold removeVessel. cbn [hc_fleets set_fleets].
  rewrite FleetFacts.find_update_first by (intros x Hx; exact Hx).
  rewrite Hfleet. cbn [option_map]. f_equal.
  rewrite FleetFacts.set_fleets_twice.
  rewrite FleetFacts.update_first_twice by (intros x Hx; exact Hx).
  rewrite (FleetFacts.update_first_id _ _ _ fleet Hfleet).
  - apply FleetFacts.set_fleets_same.
  - cbn [f_vessels set_vessels f_name f_defaults].
    rewrite List.filter_app, (FleetFacts.filter_negb_none _ _ Hnone).
    cbn [List.filter]. unfold vessel_at at 1. rewrite String.eqb_refl.
    cbn [negb]. rewrite List.app_nil_r. now destruct fleet.
Qed.

(** A witness: a second vessel for a fleet of one. *)
Lemma addVessel_removeVessel_witness :
  exists config1,
    addVessel "prod"
      {| v_name := "db"; v_host := "10.0.0.2"; v_user := None; v_port := None;
         v_identityFile := None; v_shell := None; v_tags := None;
         v_favorite := None; v_notes := None |}
  {| hc_defaults := None;
     hc_fleets :=
       [{| f_name := "prod"; f_defaults := None;
           f_vessels :=
      [{| v_name := "web"; v_host := "10.0.0.1"; v_user := None; v_port := None;
         v_identityFile := None; v_shell := None; v_tags := None;
         v_favorite := None; v_notes := None |}] |}] |}
    = Saved tt config1
    /\ removeVessel "prod" "10.0.0.2" config1
       = Saved tt
  {| hc_defaults := None;
     hc_fleets :=
       [{| f_name := "prod"; f_defaults := None;
           f_vessels :=
      [{| v_name := "web"; v_host := "10.0.0.1"; v_user := None; v_port := None;
         v_identityFile := None; v_shell := None; v_tags := None;
         v_favorite := None; v_notes := None |}] |}] |}.
Proof.
  apply (addVessel_removeVessel "prod"
      {| v_name := "db"; v_host := "10.0.0.2"; v_user := None; v_port := None;
         v_identityFile := None; v_shell := None; v_tags := None;
         v_favorite := None; v_notes := None |}
  {| hc_defaults := None;
     hc_fleets :=
       [{| f_name := "prod"; f_defaults := None;
           f_vessels :=
      [{| v_name := "web"; v_host := "10.0.0.1"; v_user := None; v_port := None;
         v_identityFile := None; v_shell := None; v_tags := None;
         v_favorite := None; v_notes := None |}] |}] |}
           {| f_name := "prod"; f_defaults := None;
              f_vessels :=
      [{| v_name := "web"; v_host := "10.0.0.1"; v_user := None; v_port := None;
         v_identityFile := None; v_shell := None; v_tags := None;
         v_favorite := None; v_notes := None |}] |});
    reflexivity.
Defined.

(** [removeVessel] removes every vessel with the host from the fleet:
    [toggleFavorite] finds none afterwards. *)
Theorem removeVessel_removes_all (fleetName vesselHost : string)
    (config config1 : HarborConfig) :
  removeVessel fleetName vesselHost config = Saved tt config1 ->
  toggleFavorite fleetName vesselHost config1
  = Throws ("Vessel not found: " ++ vesselHost).
Proof.
  unfold removeVessel.
  destruct (List.find (fleet_named fleetName) (hc_fleets config))
    as [fleet|] eqn:Hfleet; [|discriminate].
  intros [= <-]. unfold toggleFavorite. cbn [hc_fleets set_fleets].
  rewrite FleetFacts.find_update_first by (intros x Hx; exact Hx).
  rewrite Hfleet. cbn [option_map f_vessels set_vessels].
  now rewrite (FleetFacts.find_filter_negb (vessel_at vesselHost)).
Qed.

(** A witness: a fleet with two vessels at the host. *)
Lemma removeVessel_removes_all_witness :
  toggleFavorite "prod" "10.0.0.1"
    {| hc_defaults := None;
       hc_fleets := [{| f_name := "prod"; f_defaults := None;
                        f_vessels := [] |}] |}
  = Throws ("Vessel not found: " ++ "10.0.0.1").
Proof.
  apply (removeVessel_removes_all "prod" "10.0.0.1"
  {| hc_defaults := None;
     hc_fleets :=
       [{| f_name := "prod"; f_defaults := None;
           f_vessels :=
      [{| v_name := "a"; v_host := "10.0.0.1"; v_user := None; v_port := None;
         v_identityFile := None; v_shell := None; v_tags := None;
         v_favorite := None; v_notes := None |};
       {| v_name := "b"; v_host := "10.0.0.1"; v_user := None; v_port := None;
         v_identityFile := None; v_shell := None; v_tags := None;
         v_favorite := None; v_notes := None |}] |}] |}).
  reflexivity.
Defined.

(** [toggleFavorite], called a second time for the same vessel, answers
    the opposite of the first call and leaves the favorites
    [getFavorites] lists as they were before the first call. *)
Theorem toggleFavorite_twice (fleetName vesselHost : string)
    (config config1 : HarborConfig) (favorite : bool) :
  toggleFavorite fleetName vesselHost config = Saved favorite config1 ->
  exists config2,
    toggleFavorite fleetName vesselHost config1
    = Saved (negb favorite) config2
    /\ getFavorites config2 = getFavorites config.
Proof.
  unfold toggleFavorite.
  destruct (List.find (fleet_named fleetName) (hc_fleets config))
    as [fleet|] eqn:Hfleet; [|discriminate].
  destruct (List.find (vessel_at vesselHost) (f_vessels fleet))
    as [vessel|] eqn:Hvessel; [|discriminate].
  cbv zeta. intros [= <- <-].
  cbn [hc_fleets set_fleets].
  rewrite FleetFacts.find_update_first by (intros x Hx; exact Hx).
  rewrite Hfleet. cbn [option_map f_vessels set_vessels].
  rewrite FleetFacts.find_update_first by (intros x Hx; exact Hx).
  rewrite Hvessel. cbn [option_map].
  eexists. split; [reflexivity|].
  unfold getFavorites. cbn [hc_fleets hc_defaults].
  rewrite FleetFacts.update_first_twice by (intros x Hx; exact Hx).
  apply (FleetFacts.flat_map_update_first _ _ _ _ fleet Hfleet).
  cbn [f_name f_vessels set_vessels].
  rewrite FleetFacts.update_first_twice by (intros x Hx; exact Hx).
  change (is_favorite (set_favorite vessel (negb (is_favorite vessel))))
    with (negb (is_favorite vessel)).
  rewrite negb_involutive.
  destruct (FleetFacts.set_favorite_back vessel) as [Ht Hf].
  now rewrite (FleetFacts.filter_update_first _ is_favorite _ _ vessel
                 Hvessel Ht Hf).
Qed.

(** A witness: a vessel whose [favorite] is not set. *)
Lemma toggleFavorite_twice_witness :
  exists config2,
    toggleFavorite "prod" "10.0.0.1"
  {| hc_defaults := None;
     hc_fleets :=
       [{| f_name := "prod"; f_defaults := None;
           f_vessels :=
      [{| v_name := "web"; v_host := "10.0.0.1"; v_user := None; v_port := None;
         v_identityFile := None; v_shell := None; v_tags := None;
         v_favorite := Some true; v_notes := None |}] |}] |}
    = Saved (negb true) config2
    /\ getFavorites config2
       = getFavorites
  {| hc_defaults := None;
     hc_fleets :=
       [{| f_name := "prod"; f_defaults := None;
           f_vessels :=
      [{| v_name := "web"; v_host := "10.0.0.1"; v_user := None; v_port := None;
         v_identityFile := None; v_shell := None; v_tags := None;
         v_favorite := None; v_notes := None |}] |}] |}.
Proof.
  apply (toggleFavorite_twice "prod" "10.0.0.1"
  {| hc_defaults := None;
     hc_fleets :=
       [{| f_name := "prod"; f_defaults := None;
           f_vessels :=
      [{| v_name := "web"; v_host := "10.0.0.1"; v_user := None; v_port := None;
         v_identityFile := None; v_shell := None; v_tags := None;
         v_favorite := None; v_notes := None |}] |}] |}).
  reflexivity.
Defined.

(** When [toggleFavorite] answers true, [getFavorites] lists a vessel
    with the given host under the given fleet name. *)
Theorem toggleFavorite_listed (fleetName vesselHost : string)
    (config config1 : HarborConfig) :
  toggleFavorite fleetName vesselHost config = Saved true config1 ->
  exists vessel,
    List.In (vessel, fleetName) (getFavorites config1)
    /\ v_host vessel = vesselHost.
Proof.
  unfold toggleFavorite.
  destruct (List.find (fleet_named fleetName) (hc_fleets config))
    as [fleet|] eqn:Hfleet; [|discriminate].
  destruct (List.find (vessel_at vesselHost) (f_vessels fleet))
    as [vessel|] eqn:Hvessel; [|discriminate].
  cbv zeta. intros [= Hfav <-]. rewrite Hfav.
  exists (set_favorite vessel true). split.
  - unfold getFavorites. apply List.in_flat_map.
    eexists. split.
    + cbn [hc_fleets set_fleets].
      apply (FleetFacts.update_first_In _ _ _ fleet Hfleet).
    + cbn [f_name f_vessels set_vessels].
      rewrite (FleetFacts.find_named _ _ _ Hfleet).
      apply (List.in_map (fun v => (v, fleetName))).
      apply List.filter_In. split; [|reflexivity].
      apply (FleetFacts.update_first_In _
               (fun vessel => set_favorite vessel true) _ vessel Hvessel).
  - exact (FleetFacts.find_at _ _ _ Hvessel).
Qed.

(** A witness: the first of two vessels with the same host. *)
Lemma toggleFavorite_listed_witness :
  exists found,
    List.In (found, "prod")
      (getFavorites
  {| hc_defaults := None;
     hc_fleets :=
       [{| f_name := "prod"; f_defaults := None;
           f_vessels :=
      [{| v_name := "web"; v_host := "10.0.0.1"; v_user := None; v_port := None;
         v_identityFile := None; v_shell := None; v_tags := None;
         v_favorite := Some true; v_notes := None |};
       {| v_name := "web"; v_host := "10.0.0.1"; v_user := None; v_port := None;
         v_identityFile := None; v_shell := None; v_tags := None;
         v_favorite := Some false; v_notes := None |}] |}] |})
    /\ v_host found = "10.0.0.1".
Proof.
  apply (toggleFavorite_listed "prod" "10.0.0.1"
  {| hc_defaults := None;
     hc_fleets :=
       [{| f_name := "prod"; f_defaults := None;
           f_vessels :=
      [{| v_name := "web"; v_host := "10.0.0.1"; v_user := None; v_port := None;
         v_identityFile := None; v_shell := None; v_tags := None;
         v_favorite := Some false; v_notes := None |};
       {| v_name := "web"; v_host := "10.0.0.1"; v_user := None; v_port := None;
         v_identityFile := None; v_shell := None; v_tags := None;
         v_favorite := Some false; v_notes := None |}] |}] |}).
  reflexivity.
Defined.

(* ------------------------------------------------------------------ *)
(** * The recent connections and the saved folders (core/config.ts) *)
(* ------------------------------------------------------------------ *)

(** With a limit that is a natural number [n], the list [addRecent]
    saves has at most [n] entries.  When [n] is not 0 it begins with
    the connection, stamped with the time of the call, which is then
    what [getLastConnection] returns; and every entry after the first
    comes from the list that was loaded and is not the same connection
    (same host, user and port). *)
Theorem addRecent_newest_first (settings : SSHarborSettings) (now : number)
    (connection : RecentConnection) (recent : list RecentConnection)
    (n : nat) :
  maxRecentConnections settings = Num.of_Z (Z.of_nat n) ->
  let newest :=
    {| rc_host := rc_host connection;
       rc_user := rc_user connection;
       rc_port := rc_port connection;
       rc_identityFile := rc_identityFile connection;
       rc_timestamp := now;
       rc_fleetName := rc_fleetName connection;
       rc_vesselName := rc_vesselName connection |} in
  List.length (addRecent settings now connection recent) <= n
  /\ (1 <= n ->
      getLastConnection (addRecent settings now connection recent)
      = Some newest
      /\ exists rest,
           addRecent settings now connection recent = newest :: rest
           /\ forall r, List.In r rest ->
                List.In r recent /\ same_connection r connection = false).
Proof.
  intros Hmax newest. unfold addRecent. fold newest.
  rewrite Hmax, StoreFacts.slice0_nat.
  split; [apply List.firstn_le_length|].
  intros Hn. destruct n as [|n]; [lia|]. rewrite List.firstn_cons.
  split; [reflexivity|].
  eexists. split; [reflexivity|].
  intros r Hr. apply StoreFacts.In_firstn in Hr.
  apply List.filter_In in Hr as [Hr Hs].
  split; [exact Hr | now apply negb_true_iff].
Qed.

(** With no setting of the user, five connections are kept; here the
    connection is in the list already. *)
Lemma addRecent_newest_first_witness :
  let connection :=
    {| rc_host := "example.com"; rc_user := "admin";
       rc_port := Num.of_Z 22; rc_identityFile := None;
       rc_timestamp := NaN; rc_fleetName := Some "Production";
       rc_vesselName := Some "Server" |} in
  let recent :=
    [{| rc_host := "other.example"; rc_user := "root";
        rc_port := Num.of_Z 22; rc_identityFile := None;
        rc_timestamp := Num.of_Z 1600000000000; rc_fleetName := None;
        rc_vesselName := None |};
     {| rc_host := "example.com"; rc_user := "admin";
        rc_port := Num.of_Z 22; rc_identityFile := None;
        rc_timestamp := Num.of_Z 1500000000000;
        rc_fleetName := Some "Production";
        rc_vesselName := Some "Server" |}] in
  let now := Num.of_Z 1700000000000 in
  let newest :=
    {| rc_host := "example.com"; rc_user := "admin";
       rc_port := Num.of_Z 22; rc_identityFile := None;
       rc_timestamp := now; rc_fleetName := Some "Production";
       rc_vesselName := Some "Server" |} in
  List.length (addRecent Spec.settings_shipped now connection recent) <= 5
  /\ (1 <= 5 ->
      getLastConnection (addRecent Spec.settings_shipped now connection recent)
      = Some newest
      /\ exists rest,
           addRecent Spec.settings_shipped now connection recent
           = newest :: rest
           /\ forall r, List.In r rest ->
                List.In r recent /\ same_connection r connection = false).
Proof.
  cbv zeta.
  apply (addRecent_newest_first Spec.settings_shipped
           (Num.of_Z 1700000000000)
           {| rc_host := "example.com"; rc_user := "admin";
              rc_port := Num.of_Z 22; rc_identityFile := None;
              rc_timestamp := NaN; rc_fleetName := Some "Production";
              rc_vesselName := Some "Server" |}
           [{| rc_host := "other.example"; rc_user := "root";
               rc_port := Num.of_Z 22; rc_identityFile := None;
               rc_timestamp := Num.of_Z 1600000000000; rc_fleetName := None;
               rc_vesselName := None |};
            {| rc_host := "example.com"; rc_user := "admin";
               rc_port := Num.of_Z 22; rc_identityFile := None;
               rc_timestamp := Num.of_Z 1500000000000;
               rc_fleetName := Some "Production";
               rc_vesselName := Some "Server" |}] 5).
  reflexivity.
Defined.

(** [addRecent] keeps the list free of doubles: from a list in which
    no two entries are the same connection it saves such a list,
    whatever the limit. *)
Theorem addRecent_keeps_distinct (settings : SSHarborSettings)
    (now : number) (connection : RecentConnection)
    (recent : list RecentConnection) :
  Shape.distinct_connections recent = true ->
  Shape.distinct_connections (addRecent settings now connection recent)
  = true.
Proof.
  intros H. unfold addRecent.
  destruct (StoreFacts.slice0_firstn
              ({| rc_host := rc_host connection;
                  rc_user := rc_user connection;
                  rc_port := rc_port connection;
                  rc_identityFile := rc_identityFile connection;
                  rc_timestamp := now;
                  rc_fleetName := rc_fleetName connection;
                  rc_vesselName := rc_vesselName connection |}
               :: List.filter
                    (fun r => negb (same_connection r connection)) recent)
              (maxRecentConnections settings)) as [k ->].
  apply StoreFacts.distinct_firstn. cbn [Shape.distinct_connections].
  rewrite (StoreFacts.distinct_filter _ _ H), andb_true_r.
  apply List.forallb_forall. intros r Hr.
  apply List.filter_In in Hr as [_ Hr].
  now rewrite StoreFacts.same_connection_stamp.
Qed.

(** A list of two connections, and the first of them once more. *)
Lemma addRecent_keeps_distinct_witness :
  Shape.distinct_connections
    (addRecent Spec.settings_shipped (Num.of_Z 1700000000000)
       {| rc_host := "a.example"; rc_user := "root";
          rc_port := Num.of_Z 22; rc_identityFile := None;
          rc_timestamp := NaN; rc_fleetName := None;
          rc_vesselName := None |}
       [{| rc_host := "a.example"; rc_user := "root";
           rc_port := Num.of_Z 22; rc_identityFile := None;
           rc_timestamp := Num.of_Z 1600000000000; rc_fleetName := None;
           rc_vesselName := None |};
        {| rc_host := "b.example"; rc_user := "root";
           rc_port := Num.of_Z 22; rc_identityFile := None;
           rc_timestamp := Num.of_Z 1500000000000; rc_fleetName := None;
           rc_vesselName := None |}])
  = true.
Proof.
  apply addRecent_keeps_distinct. reflexivity.
Defined.

(** After [addVesselPath] the saved folders of the vessel begin with
    the folder, hold it once, are at most ten, and hold besides it
    only folders that were saved before; the folders under every other
    key are as they were. *)
Theorem addVesselPath_most_recent_first (fts : Q -> string)
    (storage : VesselPathsStorage) (host user : string) (port : number)
    (folderPath : string) :
  let saved := addVesselPath fts storage host user port folderPath in
  (exists rest,
     getVesselSavedPaths fts saved host user port = folderPath :: rest
     /\ ~ List.In folderPath rest
     /\ (forall p, List.In p rest ->
           List.In p (getVesselSavedPaths fts storage host user port)))
  /\ List.length (getVesselSavedPaths fts saved host user port) <= 10
  /\ (forall key, key <> getVesselKey fts host user port ->
        saved key = storage key).
Proof.
  cbv zeta. unfold addVesselPath, getVesselSavedPaths.
  set (key := getVesselKey fts host user port).
  assert (Hget : forall s l, set_paths s key l key = Some l).
  { intros s l. unfold set_paths. now rewrite String.eqb_refl. }
  assert (Hat : forall s l, paths_at (set_paths s key l) key = l).
  { intros s l. unfold paths_at. now rewrite Hget. }
  rewrite Hget, !Hat.
  change (Num.of_Z 10) with (Num.of_Z (Z.of_nat 10)).
  rewrite StoreFacts.slice0_nat.
  set (old := paths_at match storage key with
                       | Some _ => storage
                       | None => set_paths storage key []
                       end key).
  assert (Hold : forall p, List.In p old ->
                   List.In p match storage key with
                             | Some paths => paths
                             | None => []
                             end).
  { subst old. unfold paths_at.
    destruct (storage key) eqn:E; [now rewrite E|]. now rewrite Hget. }
  split; [|split].
  - change 10 with (S 9). rewrite List.firstn_cons.
    eexists. split; [reflexivity|]. split.
    + intros Hin. apply StoreFacts.In_firstn in Hin.
      apply List.filter_In in Hin as [_ Hin].
      now rewrite String.eqb_refl in Hin.
    + intros p Hin. apply StoreFacts.In_firstn in Hin.
      apply List.filter_In in Hin as [Hin _]. now apply Hold.
  - apply List.firstn_le_length.
  - intros k Hk. unfold set_paths.
    rewrite (proj2 (String.eqb_neq k key) Hk).
    destruct (storage key); [reflexivity|].
    now rewrite (proj2 (String.eqb_neq k key) Hk).
Qed.

(** The saved folders of two vessels are never filed under one key:
    for valid hosts and users and ports from 1 to 65535, equal keys
    mean the same host, the same user and the same port. *)
Theorem getVesselKey_injective (fts : Q -> string)
    (host1 user1 host2 user2 : string) (port1 port2 : Z) :
  isValidHost host1 = true -> isValidUser user1 = true ->
  isValidHost host2 = true -> isValidUser user2 = true ->
  (1 <= port1 <= 65535)%Z -> (1 <= port2 <= 65535)%Z ->
  getVesselKey fts host1 user1 (Num.of_Z port1)
  = getVesselKey fts host2 user2 (Num.of_Z port2) ->
  host1 = host2 /\ user1 = user2 /\ port1 = port2.
Proof.
  intros Hh1 Hu1 Hh2 Hu2 Hp1 Hp2 Hkey.
  destruct (SessionFacts.isValidHost_no_colon _ Hh1) as [Ha1 Hb1].
  destruct (SessionFacts.isValidHost_no_colon _ Hh2) as [Ha2 Hb2].
  destruct (SessionFacts.isValidUser_no_at _ Hu1) as [Hc1 Hd1].
  destruct (SessionFacts.isValidUser_no_at _ Hu2) as [Hc2 Hd2].
  pose proof (SessionFacts.parse_key fts host1 user1 port1
                Hc1 Hd1 Ha1 Hb1 ltac:(lia)) as P1.
  pose proof (SessionFacts.parse_key fts host2 user2 port2
                Hc2 Hd2 Ha2 Hb2 ltac:(lia)) as P2.
  rewrite Hkey, P2 in P1. injection P1 as -> -> H.
  repeat split. unfold inject_Z in H. congruence.
Qed.

(** Two users on one host. *)
Lemma getVesselKey_injective_witness :
  "example.com" = "example.com" /\ "admin" = "admin" /\ 22%Z = 22%Z.
Proof.
  apply (getVesselKey_injective (fun _ => "") "example.com" "admin"
           "example.com" "admin" 22 22); try reflexivity; lia.
Defined.

(* ------------------------------------------------------------------ *)
(** * The folder of a remote session (commands/connect.ts) *)
(* ------------------------------------------------------------------ *)

(** In a window opened on the alias of a vessel of the configuration,
    [saveCurrentFolder] saves the folder, and it saves it under the
    host, user and port of a vessel that has this alias (the vessel
    itself when no other has the same alias): the host, user and port
    of its tree item, with the defaults resolved. *)
Theorem saveCurrentFolder_finds_vessel (config : HarborConfig)
    (settings : SSHarborSettings) (fleet : Fleet) (vessel : Vessel)
    (folderPath : string) :
  List.In fleet (hc_fleets config) ->
  List.In vessel (f_vessels fleet) ->
  let item v f :=
    VesselItem_connectionInfo v f (defaults_or_empty config) settings in
  exists fleet' vessel',
    List.In fleet' (hc_fleets config)
    /\ List.In vessel' (f_vessels fleet')
    /\ generateSSHConfigAlias (item vessel' fleet')
       = generateSSHConfigAlias (item vessel fleet)
    /\ saveCurrentFolder config settings
         (Some {| uri_scheme := "vscode-remote";
                  uri_authority :=
                    "ssh-remote+" ++ generateSSHConfigAlias (item vessel fleet);
                  uri_path := folderPath |})
       = SavePath (host (item vessel' fleet')) (user (item vessel' fleet'))
           (port (item vessel' fleet')) folderPath.
Proof.
  intros Hf Hv item.
  destruct (SessionFacts.find_in_fleets_some config settings
              (generateSSHConfigAlias (item vessel fleet))
              (hc_fleets config) fleet vessel Hf Hv eq_refl)
    as (f' & v' & Hf' & Hv' & Ha & Hfind).
  exists f', v'. split; [exact Hf'|]. split; [exact Hv'|].
  split; [exact Ha|].
  unfold saveCurrentFolder. cbn [uri_scheme uri_authority uri_path].
  rewrite SessionFacts.authority_alias.
  change (String.eqb "vscode-remote" "vscode-remote") with true.
  cbn [negb].
  rewrite (StrFacts.prefix_append "ssh-remote+" _
           : Str.startsWith ("ssh-remote+" ++ _) "ssh-remote+" = true).
  cbn [negb].
  assert (Hs : Str.startsWith (generateSSHConfigAlias (item vessel fleet))
                 "SSHarbor_" = true)
    by apply (StrFacts.prefix_append "SSHarbor_").
  rewrite Hs, Hfind. reflexivity.
Qed.

(** The vessel [web] of the fleet [Production], which takes its user
    from the fleet and its port from the settings. *)
Lemma saveCurrentFolder_finds_vessel_witness :
  exists fleet' vessel',
    List.In fleet' [Spec.fleet_deploy]
    /\ List.In vessel' (f_vessels fleet')
    /\ generateSSHConfigAlias
         (VesselItem_connectionInfo vessel' fleet' Spec.harbor_none
            Spec.settings_shipped)
       = "SSHarbor_Production_web"
    /\ saveCurrentFolder
         {| hc_defaults := Some Spec.harbor_none;
            hc_fleets := [Spec.fleet_deploy] |}
         Spec.settings_shipped
         (Some {| uri_scheme := "vscode-remote";
                  uri_authority := "ssh-remote+" ++ "SSHarbor_Production_web";
                  uri_path := "/srv/app" |})
       = SavePath
           (host (VesselItem_connectionInfo vessel' fleet' Spec.harbor_none
                    Spec.settings_shipped))
           (user (VesselItem_connectionInfo vessel' fleet' Spec.harbor_none
                    Spec.settings_shipped))
           (port (VesselItem_connectionInfo vessel' fleet' Spec.harbor_none
                    Spec.settings_shipped))
           "/srv/app".
Proof.
  apply (saveCurrentFolder_finds_vessel
           {| hc_defaults := Some Spec.harbor_none;
              hc_fleets := [Spec.fleet_deploy] |}
           Spec.settings_shipped Spec.fleet_deploy Spec.vessel_bare
           "/srv/app"); left; reflexivity.
Defined.

(* ------------------------------------------------------------------ *)
(** * The panels (views/add-vessel-webview.ts) *)
(* ------------------------------------------------------------------ *)

(** A vessel that [saveVessel] hands to the configuration has a fleet,
    a valid host, a name that is not empty, a valid user or none, and
    for its port an integer from 1 to 65535 or none: the number read
    by [parseInt] from the text that [isValidPort] accepted. *)
Theorem saveVessel_saves_valid (data : VesselForm) (fleet : string)
    (vessel : Vessel) :
  saveVessel data = AddVessel fleet vessel ->
  Str.truthy fleet = true
  /\ isValidHost (v_host vessel) = true
  /\ Str.truthy (v_name vessel) = true
  /\ match v_user vessel with
     | Some u => isValidUser u = true
     | None => True
     end
  /\ match v_port vessel with
     | Some p => exists z, p = Num.of_Z z /\ (1 <= z <= 65535)%Z
     | None => True
     end.
Proof.
  unfold saveVessel.
  destruct (Str.truthy (vf_fleet data)) eqn:Hfleet; cbn [negb];
    [|discriminate].
  destruct (Str.truthy (vf_host data)) eqn:Hhost; cbn [negb orb];
    [|discriminate].
  destruct (isValidHost (vf_host data)) eqn:Hvalid; cbn [negb];
    [|discriminate].
  destruct (Str.truthy (vf_user data) && negb (isValidUser (vf_user data)))
    eqn:Huser; [discriminate|].
  destruct (Str.truthy (vf_port data)
            && negb (isValidPort (IsString (vf_port data))))
    eqn:Hport; [discriminate|].
  intros [= <- <-]. cbn [v_host v_name v_user v_port].
  split; [exact Hfleet|]. split; [exact Hvalid|]. split; [|split].
  - destruct (Str.truthy (vf_name data)) eqn:Hn; assumption.
  - unfold or_undefined. destruct (Str.truthy (vf_user data));
      [|exact I].
    cbn [andb] in Huser. now apply negb_false_iff in Huser.
  - destruct (Str.truthy (vf_port data)); [|exact I].
    cbn [andb] in Hport. apply negb_false_iff in Hport.
    unfold isValidPort in Hport.
    destruct (SessionFacts.parseInt10_integer (vf_port data))
      as [E|[z E]]; rewrite E in *; [discriminate|].
    exists z. split; [reflexivity|].
    fold (isValidPort (IsNumber (Num.of_Z z))) in Hport.
    rewrite PortFacts.isValidPort_of_Z in Hport.
    apply andb_prop in Hport as [H1 H2].
    apply Z.ltb_lt in H1. apply Z.leb_le in H2. lia.
Qed.

(** The form with the host [h.x] and the port [22abc], of which
    [parseInt] reads 22. *)
Lemma saveVessel_saves_valid_witness :
  Str.truthy "F" = true
  /\ isValidHost "h.x" = true
  /\ Str.truthy "h.x" = true
  /\ True
  /\ exists z, Num.of_Z 22 = Num.of_Z z /\ (1 <= z <= 65535)%Z.
Proof.
  apply (saveVessel_saves_valid
           {| vf_fleet := "F"; vf_name := ""; vf_host := "h.x";
              vf_user := ""; vf_port := "22abc"; vf_identityFile := "";
              vf_tags := ""; vf_favorite := false; vf_notes := "" |}
           "F"
           {| v_name := "h.x"; v_host := "h.x"; v_user := None;
              v_port := Some (Num.of_Z 22); v_identityFile := None;
              v_shell := None; v_tags := None; v_favorite := Some false;
              v_notes := None |}).
  reflexivity.
Defined.

(** [escapeHtml] writes [&amp;], [&lt;], [&gt;], [&quot;] and [&#039;]
    for the five characters and copies the others, each character of
    the text once (an [&] is not escaped twice); what it returns holds
    no [<], [>] or quote. *)
Theorem escapeHtml_entities (text : string) :
  escapeHtml text = Shape.expand_chars Shape.entity text
  /\ Str.forallb Shape.html_inert (escapeHtml text) = true.
Proof.
  rewrite SessionFacts.escapeHtml_expand. split; [reflexivity|].
  induction text as [|c text IH]; [reflexivity|].
  cbn [Shape.expand_chars].
  now rewrite StrFacts.forallb_append, SessionFacts.entity_inert, IH.
Qed.

